(** * LATS test-suite synthesis: the search engine and its helpers

    A shallow embedding of the Python sources under [core/lats] and of the
    [/sessions] route of [api/routes/lats.py].

    - Python [float] is IEEE 754 binary64; it is modelled by [spec_float]
      with precision 53 and maximal exponent 1024, so that NaN, the
      infinities and rounding behave as they do in the interpreter.
    - Python [int] is [Z]; [str] is [string], a sequence of 8-bit
      characters, which is what ASCII text is to [len], [strip] and
      [encode]; [List[str]] is [list string].
    - The search tree is a store of nodes addressed by index: a node's
      [parent] and [children] hold indices, the way the Python objects hold
      references to one another.
    - The language model and the coverage executor are outside the
      repository; each call to them is resolved by an explicit outcome. *)

From Stdlib Require Import ZArith Lia Bool List Ascii String.
From Stdlib Require Import Floats.SpecFloat.
From stdpp Require Import gmap strings list.

Local Open Scope Z_scope.

(* ===================================================================== *)
(** ** Python floats *)
(* ===================================================================== *)

Module PyFloat.

Definition prec : Z := 53.
Definition emax : Z := 1024.

Definition float : Type := spec_float.

(** [float(z)] for a Python int [z]: round to nearest, ties to even. *)
Definition of_int (z : Z) : float := binary_normalize prec emax z 0 false.

Definition add (x y : float) : float := SFadd prec emax x y.
Definition sub (x y : float) : float := SFsub prec emax x y.
Definition mul (x y : float) : float := SFmul prec emax x y.
Definition div (x y : float) : float := SFdiv prec emax x y.
Definition sqrt (x : float) : float := SFsqrt prec emax x.

(** The comparison operators [x < y], [x > y], [x <= y], [x >= y],
    [x == y]; each is [False] as soon as one side is NaN. *)
Definition lt (x y : float) : bool := SFltb x y.
Definition gt (x y : float) : bool := SFltb y x.
Definition le (x y : float) : bool := SFleb x y.
Definition ge (x y : float) : bool := SFleb y x.
Definition eqb (x y : float) : bool := SFeqb x y.

Definition is_nan (x : float) : bool :=
  match x with S754_nan => true | _ => false end.

(** The literal with digits [d] and [k] digits after the point, i.e.
    the double nearest to [d / 10^k].  Both [d] and [10^k] are exactly
    representable for the literals of this development, and IEEE
    division rounds correctly, so the quotient is the value the Python
    parser gives the literal. *)
Definition decimal (d : Z) (k : nat) : float :=
  div (of_int d) (of_int (10 ^ Z.of_nat k)).

Definition zero : float := S754_zero false.
Definition nan : float := S754_nan.
Definition inf : float := S754_infinity false.

(** [max(a, b)] and [min(a, b)] of the builtins: the first argument is
    kept unless the second compares strictly greater (resp. smaller). *)
Definition max2 (a b : float) : float := if gt b a then b else a.
Definition min2 (a b : float) : float := if lt b a then b else a.

(** [max(xs)] on a non-empty list; [None] stands for the [ValueError]
    raised on an empty one. *)
Definition max_list (xs : list float) : option float :=
  match xs with
  | [] => None
  | x :: rest => Some (fold_left max2 rest x)
  end.

End PyFloat.

Abbreviation float := PyFloat.float.

(* ===================================================================== *)
(** ** core/lats/state.py *)
(* ===================================================================== *)

Record ConditionInfo := mkConditionInfo {
  condition : string;
  need_true : bool;
  need_false : bool;
  parent_decision : option string
}.

(** The tuple [(self.condition, self.need_true, self.need_false)]. *)
Definition cond_key : Type := string * bool * bool.

(** Values that may stand on the right of [==]: another [ConditionInfo]
    or an object of some other class. *)
Inductive pyobj :=
| ObjCondition (c : ConditionInfo)
| ObjOther (repr : string).

Module ConditionInfoM.

Definition key (c : ConditionInfo) : cond_key :=
  (condition c, need_true c, need_false c).

(** [ConditionInfo.__eq__] *)
Definition eq (self : ConditionInfo) (other : pyobj) : bool :=
  match other with
  | ObjOther _ => false
  | ObjCondition o =>
      String.eqb (condition self) (condition o)
      && Bool.eqb (need_true self) (need_true o)
      && Bool.eqb (need_false self) (need_false o)
  end.

Definition eqb (a b : ConditionInfo) : bool := eq a (ObjCondition b).

(** [ConditionInfo.__hash__], over the builtin hash of tuples. *)
Definition hash (tuple_hash : cond_key -> Z) (self : ConditionInfo) : Z :=
  tuple_hash (key self).

(** [cond in conds] on a list. *)
Definition mem (c : ConditionInfo) (conds : list ConditionInfo) : bool :=
  existsb (fun d => eqb d c) conds.

End ConditionInfoM.

Record ExecutionResult := mkExecutionResult {
  new_test_name : string;
  new_test_compiled : bool;
  error_message : option string;
  suite_test_names : list string;
  statement_coverage : float;
  branch_coverage : float;
  mcdc_coverage : float;
  conditions_covered : list ConditionInfo
}.

Module ExecutionResultM.

(** Constructor with the dataclass defaults of the trailing fields. *)
Definition make (name : string) (compiled : bool) (err : option string)
    (suite : list string) : ExecutionResult :=
  mkExecutionResult name compiled err suite
    PyFloat.zero PyFloat.zero PyFloat.zero [].

Definition failed (r : ExecutionResult) : bool :=
  negb (new_test_compiled r) || bool_decide (is_Some (error_message r)).

Definition primary_coverage (r : ExecutionResult) : float := mcdc_coverage r.

End ExecutionResultM.

Record TestState := mkTestState {
  function_signature : string;
  function_path : string;
  context : string;
  coverage_target : float;
  test_case_names : list string;
  current_coverage : float;
  coverage_details : list (string * float);
  uncovered_conditions : list ConditionInfo;
  execution_errors : list string;
  learned_rules : list string
}.

Module TestStateM.

(** Constructor with the dataclass defaults of every field after
    [coverage_target], as [MCTSController.search] builds the root. *)
Definition initial (sig path ctx : string) (target : float)
    (uncovered : list ConditionInfo) (rules : list string) : TestState :=
  mkTestState sig path ctx target [] PyFloat.zero [] uncovered [] rules.

Definition is_terminal (s : TestState) : bool :=
  PyFloat.ge (current_coverage s) (coverage_target s)
  || (length (uncovered_conditions s) =? 0)%nat.

(** Truthiness of an [Optional[str]]. *)
Definition truthy (o : option string) : bool :=
  match o with
  | Some s => negb (String.eqb s "")
  | None => false
  end.

Definition clone_with_new_test (self : TestState) (r : ExecutionResult)
    : TestState :=
  let new_uncovered :=
    List.filter (fun c => negb (ConditionInfoM.mem c (conditions_covered r)))
           (uncovered_conditions self) in
  let new_errors :=
    if ExecutionResultM.failed r && truthy (error_message r)
    then execution_errors self ++ [default ""%string (error_message r)]
    else execution_errors self in
  {| function_signature := function_signature self;
     function_path := function_path self;
     context := context self;
     coverage_target := coverage_target self;
     test_case_names := suite_test_names r;
     current_coverage := ExecutionResultM.primary_coverage r;
     coverage_details :=
       [("statement"%string, statement_coverage r);
        ("branch"%string, branch_coverage r);
        ("mcdc"%string, mcdc_coverage r)];
     uncovered_conditions := new_uncovered;
     execution_errors := new_errors;
     learned_rules := learned_rules self |}.

(** [add_learned_rule] *)
Definition add_learned_rule (self : TestState) (rule : string) : TestState :=
  if negb (String.eqb rule "")
     && negb (existsb (String.eqb rule) (learned_rules self))
  then
    mkTestState (function_signature self) (function_path self) (context self)
      (coverage_target self) (test_case_names self) (current_coverage self)
      (coverage_details self) (uncovered_conditions self)
      (execution_errors self) (learned_rules self ++ [rule])
  else self.

Definition suite_size (self : TestState) : Z :=
  Z.of_nat (length (test_case_names self)).

Definition conditions_remaining (self : TestState) : Z :=
  Z.of_nat (length (uncovered_conditions self)).

(** [coverage_progress]; [None] is the [ZeroDivisionError] that the
    division of floats raises on a zero target. *)
Definition coverage_progress (self : TestState) : option float :=
  if PyFloat.eqb (coverage_target self) PyFloat.zero then None
  else Some (PyFloat.min2
               (PyFloat.div (current_coverage self) (coverage_target self))
               (PyFloat.decimal 10 1)).

End TestStateM.

(* ===================================================================== *)
(** ** core/lats/reward.py *)
(* ===================================================================== *)

Record RewardConfig := mkRewardConfig {
  coverage_weight : float;
  compile_reward : float;
  compile_penalty : float;
  condition_weight : float;
  suite_size_penalty : float;
  early_bonus : float
}.

Module RewardFunction.

Import PyFloat.

Definition default_config : RewardConfig :=
  {| coverage_weight := decimal 100 1;
     compile_reward := decimal 20 1;
     compile_penalty := decimal (-10) 1;
     condition_weight := decimal 5 1;
     suite_size_penalty := decimal (-1) 1;
     early_bonus := decimal 30 1 |}.

Definition len {A} (l : list A) : Z := Z.of_nat (length l).

(** Steps 1 to 5 of [compute]: the reward before it is clipped. *)
Definition weighted_sum (cfg : RewardConfig) (old_state new_state : TestState)
    (exec_result : ExecutionResult) : float :=
  let reward := zero in
  let coverage_delta :=
    sub (current_coverage new_state) (current_coverage old_state) in
  let coverage_reward := mul coverage_delta (coverage_weight cfg) in
  let reward := add reward coverage_reward in
  let reward :=
    if new_test_compiled exec_result
    then add reward (compile_reward cfg)
    else add reward (compile_penalty cfg) in
  let old_uncovered := len (uncovered_conditions old_state) in
  let new_uncovered := len (uncovered_conditions new_state) in
  let conditions_covered := old_uncovered - new_uncovered in
  let condition_reward :=
    mul (of_int conditions_covered) (condition_weight cfg) in
  let reward := add reward condition_reward in
  let size_penalty :=
    mul (of_int (len (test_case_names new_state))) (suite_size_penalty cfg) in
  let reward := add reward size_penalty in
  if (len (test_case_names old_state) =? 0)
     && new_test_compiled exec_result
     && gt coverage_delta zero
  then add reward (early_bonus cfg)
  else reward.

(** Step 6 of [compute]. *)
Definition clip (reward : float) : float :=
  let reward := max2 reward (decimal (-50) 1) in
  min2 reward (decimal 150 1).

Definition compute (cfg : RewardConfig) (old_state new_state : TestState)
    (exec_result : ExecutionResult) : float :=
  clip (weighted_sum cfg old_state new_state exec_result).

Definition compute_terminal_bonus (state : TestState) : float :=
  if ge (current_coverage state) (coverage_target state) then
    let excess := sub (current_coverage state) (coverage_target state) in
    add (decimal 50 1) (mul excess (decimal 100 1))
  else zero.

Definition normalize_reward (reward max_seen : float) : float :=
  if le max_seen zero then zero
  else min2 (div reward max_seen) (decimal 10 1).

(** The module-level [compute_reward]. *)
Definition compute_reward (old_state new_state : TestState)
    (exec_result : ExecutionResult) : float :=
  compute default_config old_state new_state exec_result.

End RewardFunction.

(* ===================================================================== *)
(** ** core/lats/tree.py *)
(* ===================================================================== *)

Inductive ActionType := INITIALIZE | EXPAND_BATCH | EXPAND_TARGETED | REFINE.

(** A node of the search tree.  [parent] and [children] are indices into
    the store of nodes. *)
Record TreeNode := mkTreeNode {
  state : TestState;
  parent : option nat;
  children : list nat;
  visits : Z;
  total_reward : float;
  action : ActionType;
  depth : Z;
  value_estimate : float
}.

Module TreeNodeM.

Import PyFloat.

(** [TreeNode(state=s, parent=p)] with the dataclass defaults. *)
Definition make (s : TestState) (p : option nat) : TreeNode :=
  mkTreeNode s p [] 0 zero INITIALIZE 0 zero.

Definition is_leaf (n : TreeNode) : bool := (length (children n) =? 0)%nat.

Definition is_fully_expanded (n : TreeNode) : bool :=
  (0 <? length (children n))%nat.

Definition is_terminal (n : TreeNode) : bool := TestStateM.is_terminal (state n).

Definition average_reward (n : TreeNode) : float :=
  if visits n =? 0 then zero else div (total_reward n) (of_int (visits n)).

(** The effect of [update] on the node itself. *)
Definition updated (reward : float) (n : TreeNode) : TreeNode :=
  mkTreeNode (state n) (parent n) (children n)
    (visits n + 1) (add (total_reward n) reward)
    (action n) (depth n) (value_estimate n).

(** [nodes[i].update(reward)] *)
Definition update (nodes : list TreeNode) (i : nat) (reward : float)
    : list TreeNode :=
  alter (updated reward) i nodes.

(** [ucb1_score]; [math_log] is [math.log].  The argument of
    [math.sqrt] is [ln(v)/w] with [v, w >= 1], where [math.sqrt] does
    not raise. *)
Definition ucb1_score (math_log : float -> float) (nodes : list TreeNode)
    (self : TreeNode) (exploration_coef : float) : float :=
  if visits self =? 0 then inf
  else
    let parent_visits :=
      match parent self with
      | None => None
      | Some p => visits <$> nodes !! p
      end in
    match parent_visits with
    | None => div (total_reward self) (of_int (visits self))
    | Some pv =>
        if pv =? 0 then div (total_reward self) (of_int (visits self))
        else
          let exploitation := div (total_reward self) (of_int (visits self)) in
          let exploration :=
            mul exploration_coef
                (sqrt (div (math_log (of_int pv)) (of_int (visits self)))) in
          add exploitation exploration
    end.

(** [nodes[p].add_child(nodes[c])] *)
Definition add_child (nodes : list TreeNode) (p c : nat) : list TreeNode :=
  let pdepth := default 0 (depth <$> nodes !! p) in
  let nodes :=
    alter (fun n => mkTreeNode (state n) (Some p) (children n) (visits n)
                      (total_reward n) (action n) (pdepth + 1)
                      (value_estimate n)) c nodes in
  alter (fun n => mkTreeNode (state n) (parent n) (children n ++ [c])
                    (visits n) (total_reward n) (action n) (depth n)
                    (value_estimate n)) p nodes.

(** [max(items, key=key)]: the first item whose key no later key
    exceeds. *)
Definition max_by {A} (key : A -> float) (items : list A) : option A :=
  match items with
  | [] => None
  | x :: rest =>
      Some (fold_left (fun best y => if gt (key y) (key best) then y else best)
                      rest x)
  end.

(** The key of a child index; an index outside the store has no node to
    score and does not occur among the children of a stored node. *)
Definition key_of (nodes : list TreeNode) (f : TreeNode -> float) (c : nat)
    : float :=
  match nodes !! c with
  | Some n => f n
  | None => nan
  end.

Definition best_child (math_log : float -> float) (nodes : list TreeNode)
    (self : TreeNode) (exploration_coef : float) : option nat :=
  match children self with
  | [] => None
  | cs =>
      if eqb exploration_coef zero
      then max_by (key_of nodes average_reward) cs
      else max_by (key_of nodes
                     (fun n => ucb1_score math_log nodes n exploration_coef)) cs
  end.

(** The [while current is not None] loop of [get_path_from_root]:
    [path] with the nodes from [current] up to the root appended; [None]
    when [fuel] turns do not reach the root. *)
Fixpoint path_loop (fuel : nat) (nodes : list TreeNode) (current : option nat)
    (path : list nat) : option (list nat) :=
  match current with
  | None => Some path
  | Some i =>
      match fuel with
      | O => None
      | S fuel => path_loop fuel nodes (nodes !! i ≫= parent) (path ++ [i])
      end
  end.

(** [nodes[self].get_path_from_root()] *)
Definition get_path_from_root (nodes : list TreeNode) (self : nat)
    : option (list nat) :=
  reverse <$> path_loop (S (length nodes)) nodes (Some self) [].

End TreeNodeM.

(* ===================================================================== *)
(** ** core/lats/execution_engine.py *)
(* ===================================================================== *)

(** The ["log"] entry of a response body. *)
Inductive log_field := LogMissing | LogNull | LogText (s : string).

(** The decoded JSON body of the Java backend, reduced to the entries
    [_parse_java_response] reads.  A missing ["status"] is [None]; a
    missing percentage is given as [0.0], the default of the source. *)
Record JavaResponse := mkJavaResponse {
  jr_status : option string;
  jr_log : log_field;
  jr_statement_pct : float;
  jr_branch_pct : float;
  jr_mcdc_pct : float;
  jr_uncovered : list ConditionInfo;
  jr_all : list ConditionInfo
}.

(** What one request to the backend comes to inside the [try] block:
    - [HttpOk]: a 2xx answer whose body decodes and parses;
    - [HttpError]: [httpx.HTTPError], i.e. a transport failure, a timeout,
      or the error status raised by [raise_for_status];
    - [OtherError]: any other exception raised before the body is
      decoded to a dictionary;
    - [HttpMalformed]: a 2xx answer whose body decodes to a dictionary
      with that ["status"] entry, on which [_parse_java_response] raises. *)
Inductive http_outcome :=
| HttpOk (body : JavaResponse)
| HttpError (msg : string)
| OtherError (msg : string)
| HttpMalformed (status : option string) (msg : string).

Module ExecutionEngine.

Import PyFloat.

Definition hundred : float := decimal 1000 1.

Definition _parse_java_response (response : JavaResponse)
    (new_test_name : option string) (suite_names : list string)
    : ExecutionResult :=
  let status := default "error"%string (jr_status response) in
  let compiled := String.eqb status "success" in
  let error_msg :=
    if compiled then None
    else match jr_log response with
         | LogMissing => Some "Unknown error"%string
         | LogNull => None
         | LogText s => Some s
         end in
  let uncovered := jr_uncovered response in
  let all_conditions := jr_all response in
  let covered :=
    match all_conditions with
    | [] => []
    | _ => List.filter (fun c => negb (ConditionInfoM.mem c uncovered))
                       all_conditions
    end in
  {| new_test_name := default ""%string new_test_name;
     new_test_compiled := compiled;
     error_message := error_msg;
     suite_test_names := suite_names;
     statement_coverage := div (jr_statement_pct response) hundred;
     branch_coverage := div (jr_branch_pct response) hundred;
     mcdc_coverage := div (jr_mcdc_pct response) hundred;
     conditions_covered := covered |}.

(** [get_suite_coverage]; [outcome] is that of its one request. *)
Definition get_suite_coverage (outcome : http_outcome)
    (function_path : string) (test_names : list string) : ExecutionResult :=
  match outcome with
  | HttpOk result => _parse_java_response result None test_names
  | HttpError e | OtherError e | HttpMalformed _ e =>
      ExecutionResultM.make "" true
        (Some ("Coverage retrieval error: " ++ e)%string) test_names
  end.

Definition name_in (name : string) (names : list string) : bool :=
  existsb (String.eqb name) names.

(** [execute_new_test].  [_hash_test_code] is the truncated SHA-256 of
    the source, on a body that [str.encode] accepts; [test_cache] is the
    engine's dictionary, returned updated; [outcome] is that of the one
    request the call makes (the execution request, or the coverage
    request on a cache hit). *)
Definition execute_new_test (_hash_test_code : string -> string)
    (test_cache : gmap string string) (outcome : http_outcome)
    (function_path test_code test_name : string)
    (existing_test_names : list string)
    : ExecutionResult * gmap string string :=
  let test_hash := _hash_test_code test_code in
  match test_cache !! test_hash with
  | Some cached_name =>
      let suite_names :=
        if negb (name_in cached_name existing_test_names)
        then existing_test_names ++ [cached_name]
        else existing_test_names in
      (get_suite_coverage outcome function_path suite_names, test_cache)
  | None =>
      match outcome with
      | HttpOk result =>
          let test_cache :=
            if bool_decide (jr_status result = Some "success"%string)
            then <[test_hash := test_name]> test_cache
            else test_cache in
          (_parse_java_response result (Some test_name)
             (existing_test_names ++ [test_name]), test_cache)
      | HttpError e =>
          (ExecutionResultM.make test_name false
             (Some ("HTTP error: " ++ e)%string) existing_test_names,
           test_cache)
      | OtherError e =>
          (ExecutionResultM.make test_name false
             (Some ("Execution error: " ++ e)%string) existing_test_names,
           test_cache)
      | HttpMalformed status e =>
          let test_cache :=
            if bool_decide (status = Some "success"%string)
            then <[test_hash := test_name]> test_cache
            else test_cache in
          (ExecutionResultM.make test_name false
             (Some ("Execution error: " ++ e)%string) existing_test_names,
           test_cache)
      end
  end.

(** [get_all_conditions]: the decoded inventory, or any exception. *)
Definition get_all_conditions (outcome : option (list ConditionInfo))
    : list ConditionInfo :=
  default [] outcome.

Definition clear_cache (test_cache : gmap string string) : gmap string string :=
  ∅.

End ExecutionEngine.

(* ===================================================================== *)
(** ** core/lats/llm_client.py *)
(* ===================================================================== *)

(** What one [client.post] of [generate] comes to:
    - [LlmStatus]: an HTTP answer; [content] is
      [choices[0].message.content] of its body, [None] when the body does
      not decode to that shape;
    - [LlmTimeout]: [httpx.TimeoutException];
    - [LlmException]: any other exception raised by the request. *)
Inductive llm_attempt :=
| LlmStatus (status_code : Z) (content : option string)
| LlmTimeout
| LlmException (msg : string).

(** The [raise] statements of [generate]:
    - [RequestTimeout]: "Request timeout after 3 attempts";
    - [GenerationFailed]: "LLM generation failed: ..." with its cause;
    - [ApiError]: the same, caused by "API error: <status> - ...";
    - [RetriesExhausted]: "Failed to generate after 3 attempts". *)
Inductive llm_failure :=
| RequestTimeout
| GenerationFailed (cause : string)
| ApiError (status_code : Z)
| RetriesExhausted.

Inductive gen_result :=
| Generated (content : string)
| GenRaised (e : llm_failure).

(** A run of [generate]: its result, the arguments of the successive
    [asyncio.sleep] calls in seconds, and the number of requests sent. *)
Record gen_run := mkGenRun {
  gen_outcome : gen_result;
  gen_sleeps : list Z;
  gen_attempts : nat
}.

Module DeepSeekClient.

Definition max_retries : nat := 3.

(** The body of [for attempt in range(max_retries)], from [attempt] on,
    with [remaining] turns of the loop left. *)
Fixpoint generate_from (outcomes : nat -> llm_attempt)
    (attempt remaining : nat) (sleeps : list Z) : gen_run :=
  match remaining with
  | O => mkGenRun (GenRaised RetriesExhausted) sleeps attempt
  | S rest =>
      let last := (attempt =? max_retries - 1)%nat in
      let wait_time := 2 ^ Z.of_nat attempt in
      let again :=
        generate_from outcomes (S attempt) rest (sleeps ++ [wait_time]) in
      let raised e := mkGenRun (GenRaised e) sleeps (S attempt) in
      match outcomes attempt with
      | LlmStatus status_code content =>
          if status_code =? 200 then
            match content with
            | Some c => mkGenRun (Generated c) sleeps (S attempt)
            | None =>
                if last then raised (GenerationFailed "invalid response body")
                else again
            end
          else if status_code =? 429 then again
          else if last then raised (ApiError status_code)
          else again
      | LlmTimeout => if last then raised RequestTimeout else again
      | LlmException msg =>
          if last then raised (GenerationFailed msg) else again
      end
  end.

(** [generate]; [outcomes n] is what the request of attempt [n] (from 0)
    comes to. *)
Definition generate (outcomes : nat -> llm_attempt) : gen_run :=
  generate_from outcomes 0 max_retries [].

End DeepSeekClient.

(* ===================================================================== *)
(** ** core/lats/context_manager.py *)
(* ===================================================================== *)

(** The two timestamps of a session are left out: nothing below reads
    them. *)
Module SessionContext.

Record t := mk {
  session_id : string;
  function_signature : string;
  function_path : string;
  function_code : string;
  context : string;
  coverage_target : float;
  max_iterations : Z;
  learned_rules : list string;
  total_prompt_tokens : Z;
  total_completion_tokens : Z;
  max_tokens : Z
}.

(** The constructor call of [get_or_create], with the defaults. *)
Definition make (id sig path code ctx : string) (target : float)
    (iters : Z) : t :=
  mk id sig path code ctx target iters [] 0 0 100000.

Definition add_token_usage (self : t) (prompt_tokens completion_tokens : Z)
    : t :=
  mk (session_id self) (function_signature self) (function_path self)
     (function_code self) (context self) (coverage_target self)
     (max_iterations self) (learned_rules self)
     (total_prompt_tokens self + prompt_tokens)
     (total_completion_tokens self + completion_tokens)
     (max_tokens self).

Definition total_tokens (self : t) : Z :=
  total_prompt_tokens self + total_completion_tokens self.

Definition tokens_remaining (self : t) : Z :=
  Z.max 0 (max_tokens self - total_tokens self).

Definition budget_exceeded (self : t) : bool :=
  max_tokens self <=? total_tokens self.

Definition add_learned_rule (self : t) (rule : string) : t :=
  if negb (String.eqb rule "")
     && negb (existsb (String.eqb rule) (learned_rules self))
  then
    mk (session_id self) (function_signature self) (function_path self)
       (function_code self) (context self) (coverage_target self)
       (max_iterations self) (learned_rules self ++ [rule])
       (total_prompt_tokens self) (total_completion_tokens self)
       (max_tokens self)
  else self.

End SessionContext.

(** A Python value raised or returned. *)
Inductive py_result (A : Type) :=
| Returned (a : A)
| RaisedKeyError (key : string).
Arguments Returned {A} a.
Arguments RaisedKeyError {A} key.

Module ContextManager.

(** [_cache] is a dictionary; its entries are kept in insertion order. *)
Record t := mk {
  ttl_seconds : Z;
  _cache : list (string * SessionContext.t)
}.

Definition values (self : t) : list SessionContext.t := snd <$> _cache self.
Definition keys (self : t) : list string := fst <$> _cache self.

Definition sum (xs : list Z) : Z := fold_left Z.add xs 0.

Definition get_active_sessions (self : t) : list string := keys self.

(** [get_stats]: the dictionary it returns, entry by entry. *)
Definition get_stats (self : t) : list (string * Z) :=
  let total_sessions := Z.of_nat (length (_cache self)) in
  let total_tokens := sum (SessionContext.total_tokens <$> values self) in
  let total_rules :=
    sum ((fun ctx => Z.of_nat (length (SessionContext.learned_rules ctx)))
           <$> values self) in
  [("total_sessions"%string, total_sessions);
   ("total_tokens_used"%string, total_tokens);
   ("total_learned_rules"%string, total_rules);
   ("ttl_seconds"%string, ttl_seconds self)].

(** [self._cache.get(session_id)] *)
Fixpoint lookup (cache : list (string * SessionContext.t)) (session_id : string)
    : option SessionContext.t :=
  match cache with
  | [] => None
  | (k, ctx) :: rest =>
      if String.eqb k session_id then Some ctx else lookup rest session_id
  end.

(** The cache after the context stored under [session_id] has been
    mutated by [f]. *)
Definition mutate (f : SessionContext.t -> SessionContext.t)
    (session_id : string) (cache : list (string * SessionContext.t))
    : list (string * SessionContext.t) :=
  (fun entry : string * SessionContext.t =>
     if String.eqb (fst entry) session_id then (fst entry, f (snd entry))
     else entry) <$> cache.

(** [del self._cache[session_id]] *)
Definition delete (session_id : string)
    (cache : list (string * SessionContext.t))
    : list (string * SessionContext.t) :=
  List.filter (fun entry => negb (String.eqb (fst entry) session_id)) cache.

Definition with_cache (self : t) (cache : list (string * SessionContext.t))
    : t :=
  mk (ttl_seconds self) cache.

(** [get_or_create]: the context returned and the manager afterwards. *)
Definition get_or_create (self : t)
    (session_id function_signature function_path function_code context : string)
    (coverage_target : float) (max_iterations : Z) : SessionContext.t * t :=
  match lookup (_cache self) session_id with
  | Some ctx => (ctx, self)
  | None =>
      let ctx :=
        SessionContext.make session_id function_signature function_path
          function_code context coverage_target max_iterations in
      (ctx, with_cache self (_cache self ++ [(session_id, ctx)]))
  end.

Definition get (self : t) (session_id : string) : option SessionContext.t :=
  lookup (_cache self) session_id.

Definition update_learned_rules (self : t) (session_id rule : string)
    : bool * t :=
  match lookup (_cache self) session_id with
  | Some _ =>
      (true,
       with_cache self
         (mutate (fun ctx => SessionContext.add_learned_rule ctx rule)
            session_id (_cache self)))
  | None => (false, self)
  end.

Definition add_token_usage (self : t) (session_id : string)
    (prompt_tokens completion_tokens : Z) : bool * t :=
  match lookup (_cache self) session_id with
  | Some _ =>
      (true,
       with_cache self
         (mutate (fun ctx => SessionContext.add_token_usage ctx prompt_tokens
                               completion_tokens)
            session_id (_cache self)))
  | None => (false, self)
  end.

Definition remove (self : t) (session_id : string) : bool * t :=
  match lookup (_cache self) session_id with
  | Some _ => (true, with_cache self (delete session_id (_cache self)))
  | None => (false, self)
  end.

(** [cleanup_expired]: the number of sessions evicted and the manager
    afterwards.  [age id] is [(now - ctx.last_accessed).total_seconds()]
    for the context stored under [id], the timestamps not being part of
    the record. *)
Definition cleanup_expired (self : t) (age : string -> float) : Z * t :=
  let expired :=
    fst <$> List.filter
              (fun entry : string * SessionContext.t =>
                 PyFloat.gt (age (fst entry))
                   (PyFloat.of_int (ttl_seconds self)))
              (_cache self) in
  (Z.of_nat (length expired),
   with_cache self (fold_left (fun cache id => delete id cache) expired
                      (_cache self))).

End ContextManager.

(* ===================================================================== *)
(** ** api/routes/lats.py *)
(* ===================================================================== *)

Module Routes.

(** [d[key]] on a dictionary given by its entries. *)
Fixpoint getitem {V} (d : list (string * V)) (key : string) : py_result V :=
  match d with
  | [] => RaisedKeyError key
  | (k, v) :: rest => if String.eqb k key then Returned v else getitem rest key
  end.

(** The body of the answer to [GET /sessions]. *)
Record sessions_response := mkSessionsResponse {
  active_sessions : Z;
  session_ids : list string;
  total_tokens_used : Z
}.

(** [list_sessions], on the module's [context_manager]. *)
Definition list_sessions (context_manager : ContextManager.t)
    : py_result sessions_response :=
  let stats := ContextManager.get_stats context_manager in
  match getitem stats "active_sessions" with
  | RaisedKeyError k => RaisedKeyError k
  | Returned active =>
      Returned
        {| active_sessions := active;
           session_ids := ContextManager.keys context_manager;
           total_tokens_used :=
             ContextManager.sum
               (SessionContext.total_tokens
                  <$> ContextManager.values context_manager) |}
  end.

(** What a handler comes to: its answer, or an [HTTPException] with a
    status code. *)
Inductive handled (A : Type) :=
| Answered (a : A)
| HTTPException (status_code : Z).
Arguments Answered {A} a.
Arguments HTTPException {A} status_code.

Record SessionInfo := mkSessionInfo {
  si_session_id : string;
  si_function_signature : string;
  si_coverage_target : float;
  si_tokens_used : Z;
  si_tokens_remaining : Z;
  si_age_seconds : float;
  si_learned_rules : list string
}.

(** [get_session_info]; [age] is what [get_age_seconds] returns. *)
Definition get_session_info (context_manager : ContextManager.t)
    (age : float) (session_id : string) : handled SessionInfo :=
  match ContextManager.get context_manager session_id with
  | None => HTTPException 404
  | Some session =>
      Answered
        {| si_session_id := SessionContext.session_id session;
           si_function_signature := SessionContext.function_signature session;
           si_coverage_target := SessionContext.coverage_target session;
           si_tokens_used := SessionContext.total_tokens session;
           si_tokens_remaining := SessionContext.tokens_remaining session;
           si_age_seconds := age;
           si_learned_rules := SessionContext.learned_rules session |}
  end.

(** [delete_session]: the status of the answer and the manager
    afterwards. *)
Definition delete_session (context_manager : ContextManager.t)
    (session_id : string) : handled Z * ContextManager.t :=
  let '(removed, context_manager) :=
    ContextManager.remove context_manager session_id in
  if removed then (Answered 204, context_manager)
  else (HTTPException 404, context_manager).

End Routes.

(* ===================================================================== *)
(** ** core/lats/mcts_controller.py *)
(* ===================================================================== *)

Module MCTSConfig.

Record t := mk {
  max_iterations : Z;
  exploration_coef : float;
  max_depth : Z;
  expansion_k : Z;
  min_k : Z;
  max_k : Z;
  adaptive_k : bool;
  enable_pruning : bool;
  prune_threshold : float;
  beam_width : Z;
  coverage_target : float;
  max_no_progress_iters : Z;
  verbose : bool
}.

Definition default : t :=
  mk 100 (PyFloat.decimal 1414 3) 50 3 1 5 true true
     (PyFloat.decimal (-20) 1) 5 (PyFloat.decimal 95 2) 10 false.

End MCTSConfig.

(** The three renderers of [PromptManager] the controller calls, each
    with the arguments of the call; [None] is an exception. *)
Record PromptManager := mkPromptManager {
  render_initialize :
    string -> string -> string -> list ConditionInfo -> list string -> Z ->
    option string;
  render_targeted :
    string -> ConditionInfo -> string -> list string -> option string;
  render_batch :
    string -> list string -> list ConditionInfo -> list string ->
    list string -> Z -> option string
}.

(** An entry of the list of tests decoded from a response: a JSON object
    with its ["code"] and ["name"] entries when present, or another value
    given by its [str()]. *)
Inductive test_obj :=
| TestDict (code : option string) (name : option string)
| TestOther (text : string).

(** Everything the controller reaches outside the repository's own code.
    Calls are told apart by the search iteration they occur in, and
    within it by the attempt of the language-model client or by the
    position of the candidate.  [parse_tests] is
    [extract_json_from_response] followed by the selection of the list of
    tests, [None] when either raises or when an entry of the list makes
    the loop over the tests raise: all of these end in a handler that
    returns no candidate. *)
Record Env := mkEnv {
  math_log : float -> float;
  prompt_manager : PromptManager;
  llm_post : nat -> string -> float -> nat -> llm_attempt;
  parse_tests : string -> option (list test_obj);
  str_hash : string -> Z;
  sha256_16 : string -> string;
  http_post : nat -> nat -> http_outcome;
  conditions_post : option (list ConditionInfo)
}.

(** The mutable objects of a search: the store of tree nodes, the session
    context, the engine's cache and the controller's own fields.
    [updates] records every call of [TreeNode.update], oldest first, with
    the node and the reward. *)
Record Controller := mkController {
  nodes : list TreeNode;
  updates : list (nat * float);
  session : SessionContext.t;
  test_cache : gmap string string;
  root : option nat;
  best_node : option nat;
  iterations : Z;
  no_progress_count : Z;
  last_best_coverage : float
}.

Module PyList.

Definition len {A} (l : list A) : Z := Z.of_nat (length l).

(** [l[:k]] *)
Definition upto {A} (k : Z) (l : list A) : list A :=
  if 0 <=? k then take (Z.to_nat k) l
  else take (length l - Z.to_nat (- k)) l.

(** [l[-k:]] for a positive literal [k] *)
Definition last_n {A} (k : nat) (l : list A) : list A :=
  drop (length l - k) l.

(** Insertion of [x] into a list sorted by decreasing key, after the
    entries whose key is not smaller. *)
Fixpoint insert_desc {A} (key : A -> float) (x : A) (l : list A) : list A :=
  match l with
  | [] => [x]
  | y :: rest =>
      if PyFloat.lt (key y) (key x) then x :: y :: rest
      else y :: insert_desc key x rest
  end.

(** [l.sort(key=key, reverse=True)]: the stable sort by decreasing key.
    On keys without NaN this is the list the builtin sort yields. *)
Definition sort_desc {A} (key : A -> float) (l : list A) : list A :=
  fold_left (fun acc x => insert_desc key x acc) l [].

End PyList.

Module PyStr.

Definition len (s : string) : Z := Z.of_nat (String.length s).

(** ASCII characters for which [str.isspace] holds. *)
Definition is_space (a : ascii) : bool :=
  let n := nat_of_ascii a in
  ((9 <=? n) && (n <=? 13) || (28 <=? n) && (n <=? 32))%nat.

Fixpoint lstrip (l : list ascii) : list ascii :=
  match l with
  | a :: rest => if is_space a then lstrip rest else l
  | [] => []
  end.

(** [s.strip()] *)
Definition strip (s : string) : string :=
  string_of_list_ascii
    (rev (lstrip (rev (lstrip (list_ascii_of_string s))))).

(** The decimal digits of a natural number, most significant first;
    [fuel] bounds their number. *)
Fixpoint digits (fuel : nat) (n : N) (acc : string) : string :=
  match fuel with
  | O => acc
  | S f =>
      let acc := String (ascii_of_N (48 + n mod 10)%N) acc in
      if (n / 10 =? 0)%N then acc else digits f (n / 10)%N acc
  end.

(** [f"{n:03d}"] for [n >= 0] *)
Definition format_03d (n : Z) : string :=
  let s := digits (S (N.to_nat (N.log2 (Z.to_N n)))) (Z.to_N n) "" in
  match String.length s with
  | 1%nat => "00" ++ s
  | 2%nat => "0" ++ s
  | _ => s
  end%string.

End PyStr.

Module MCTSController.

Import PyFloat.

Definition _adaptive_k (config : MCTSConfig.t) (node : TreeNode) : Z :=
  if negb (MCTSConfig.adaptive_k config) then MCTSConfig.expansion_k config
  else
    let coverage := current_coverage (state node) in
    let target := coverage_target (state node) in
    let progress := if gt target zero then div coverage target else zero in
    if lt progress (decimal 3 1) then MCTSConfig.max_k config
    else if lt progress (decimal 7 1) then MCTSConfig.expansion_k config
    else MCTSConfig.min_k config.

Definition _adaptive_temperature (coverage : float) : float :=
  if lt coverage (decimal 3 1) then decimal 9 1
  else if lt coverage (decimal 7 1) then decimal 7 1
  else decimal 5 1.

(** [_get_recent_errors]: a [TreeNode] has no attribute
    [execution_result], so the test on each child fails and nothing is
    collected. *)
Definition _get_recent_errors (nodes : list TreeNode) (node : TreeNode)
    : list string :=
  fold_left (fun errors (_ : nat) => errors)
            (PyList.last_n 10 (children node)) [].

(** The loop of [_deduplicate_candidates]. *)
Fixpoint dedup_loop (hash : string -> Z) (candidates : list (string * string))
    (seen_hashes : gset Z) (seen_names : gset string)
    : list (string * string) :=
  match candidates with
  | [] => []
  | (test_code, test_name) :: rest =>
      let code_hash := hash (PyStr.strip test_code) in
      if bool_decide (code_hash ∉ seen_hashes)
         && bool_decide (test_name ∉ seen_names)
      then (test_code, test_name)
             :: dedup_loop hash rest ({[code_hash]} ∪ seen_hashes)
                  ({[test_name]} ∪ seen_names)
      else dedup_loop hash rest seen_hashes seen_names
  end.

Definition _deduplicate_candidates (hash : string -> Z)
    (candidates : list (string * string)) (existing_names : list string)
    : list (string * string) :=
  dedup_loop hash candidates ∅ (list_to_set existing_names).

(** The pair [(test_code, test_name)] made from entry [i] of the
    response. *)
Definition candidate_of (existing : list string) (i : nat) (t : test_obj)
    : string * string :=
  let fallback :=
    ("test_" ++ PyStr.format_03d (PyList.len existing + Z.of_nat i + 1))%string in
  match t with
  | TestDict code name =>
      let test_code := default ""%string code in
      let test_name := default fallback name in
      (test_code, if String.eqb test_name "" then fallback else test_name)
  | TestOther text => (text, fallback)
  end.

(** The choice of the generation mode in [_generate_candidates] and
    the prompt rendered for it. *)
Definition render_prompt (env : Env) (all_nodes : list TreeNode)
    (node : TreeNode) (session_ctx : SessionContext.t) (k : Z)
    : option string :=
  let st := state node in
  let is_initialize := eqb (current_coverage st) zero in
  let is_targeted :=
    (length (uncovered_conditions st) <=? 3)%nat
    && gt (current_coverage st) (decimal 5 1) in
  let recent_errors := _get_recent_errors all_nodes node in
  if is_initialize then
    render_initialize (prompt_manager env)
      (SessionContext.function_signature session_ctx)
      (SessionContext.function_code session_ctx)
      (SessionContext.context session_ctx)
      (uncovered_conditions st)
      (SessionContext.learned_rules session_ctx) k
  else
    match is_targeted, uncovered_conditions st with
    | true, target_condition :: _ =>
        render_targeted (prompt_manager env)
          (SessionContext.function_signature session_ctx)
          target_condition
          (SessionContext.context session_ctx)
          (SessionContext.learned_rules session_ctx)
    | _, _ =>
        render_batch (prompt_manager env)
          (SessionContext.function_signature session_ctx)
          (PyList.last_n 5 (test_case_names st))
          (PyList.upto 10 (uncovered_conditions st))
          (SessionContext.learned_rules session_ctx)
          recent_errors k
    end.

(** The call of the language model in [_generate_candidates]. *)
Definition llm_call (env : Env) (iter : nat) (node : TreeNode)
    (prompt : string) : gen_run :=
  let temperature := _adaptive_temperature (current_coverage (state node)) in
  DeepSeekClient.generate (llm_post env iter prompt temperature).

(** [_generate_candidates], in iteration [iter] of the search: the
    candidates and the session context after the call.  Any exception
    of the rendering, of the language-model call or of the decoding
    ends in one of the two handlers, which return no candidate. *)
Definition _generate_candidates (env : Env) (iter : nat)
    (all_nodes : list TreeNode) (node : TreeNode)
    (session_ctx : SessionContext.t) (k : Z)
    : list (string * string) * SessionContext.t :=
  let st := state node in
  match render_prompt env all_nodes node session_ctx k with
  | None => ([], session_ctx)
  | Some prompt =>
      let prompt_tokens := PyStr.len prompt / 4 in
      match gen_outcome (llm_call env iter node prompt) with
      | GenRaised _ => ([], session_ctx)
      | Generated response =>
          let completion_tokens := PyStr.len response / 4 in
          let session_ctx :=
            SessionContext.add_token_usage session_ctx
              prompt_tokens completion_tokens in
          match parse_tests env response with
          | None => ([], session_ctx)
          | Some tests_list =>
              let candidates :=
                imap (candidate_of (test_case_names st))
                     (PyList.upto k tests_list) in
              (_deduplicate_candidates (str_hash env) candidates
                 (test_case_names st),
               session_ctx)
          end
      end
  end.

Section Search.

Variable config : MCTSConfig.t.
Variable reward_config : RewardConfig.
Variable env : Env.

(** The execution of the candidate at position [j] of iteration
    [iter], on the suite of the expanded leaf. *)
Definition execute (iter j : nat) (session_ctx : SessionContext.t)
    (cache : gmap string string) (leaf_state : TestState)
    (candidate : string * string) : ExecutionResult * gmap string string :=
  ExecutionEngine.execute_new_test (sha256_16 env) cache
    (http_post env iter j)
    (SessionContext.function_path session_ctx)
    (fst candidate) (snd candidate) (test_case_names leaf_state).

Definition pruned (reward : float) : bool :=
  MCTSConfig.enable_pruning config
  && lt reward (MCTSConfig.prune_threshold config).

(** The results the executor returns in the loop over the candidates,
    in order. *)
Fixpoint executions (iter j : nat) (session_ctx : SessionContext.t)
    (cache : gmap string string) (leaf_state : TestState)
    (candidates : list (string * string)) : list ExecutionResult :=
  match candidates with
  | [] => []
  | cand :: rest =>
      let '(exec_result, cache) :=
        execute iter j session_ctx cache leaf_state cand in
      exec_result :: executions iter (S j) session_ctx cache leaf_state rest
  end.

(** The loop over the candidates of [_expansion_and_simulation]: the
    list [valid_children], each child given by its state, and the
    engine's cache afterwards.  The node object of a child is put in
    the store when it is added to the leaf; nothing reads it before. *)
Fixpoint simulate (iter j : nat) (session_ctx : SessionContext.t)
    (cache : gmap string string) (leaf_state : TestState)
    (candidates : list (string * string))
    : list (TestState * float) * gmap string string :=
  match candidates with
  | [] => ([], cache)
  | cand :: rest =>
      let '(exec_result, cache) :=
        execute iter j session_ctx cache leaf_state cand in
      let child_state :=
        TestStateM.clone_with_new_test leaf_state exec_result in
      let reward :=
        RewardFunction.compute reward_config leaf_state child_state
          exec_result in
      let '(valid_children, cache) :=
        simulate iter (S j) session_ctx cache leaf_state rest in
      if pruned reward then (valid_children, cache)
      else ((child_state, reward) :: valid_children, cache)
  end.

(** The beam step on [valid_children]. *)
Definition beam (valid_children : list (TestState * float))
    : list (TestState * float) :=
  if MCTSConfig.enable_pruning config
     && (MCTSConfig.beam_width config <? PyList.len valid_children)
  then PyList.upto (MCTSConfig.beam_width config)
         (PyList.sort_desc snd valid_children)
  else valid_children.

(** One turn of the loop that adds the children to the leaf:
    [child = TreeNode(state, parent=leaf)], [leaf.add_child(child)],
    [child.update(reward)]. *)
Definition insert_child (leaf : nat)
    (acc : list TreeNode * list (nat * float))
    (child : TestState * float) : list TreeNode * list (nat * float) :=
  let '(nodes, updates) := acc in
  let id := length nodes in
  let nodes := nodes ++ [TreeNodeM.make (fst child) (Some leaf)] in
  let nodes := TreeNodeM.add_child nodes leaf id in
  let nodes := TreeNodeM.update nodes id (snd child) in
  (nodes, updates ++ [(id, snd child)]).

Definition with_tree (c : Controller)
    (tree : list TreeNode * list (nat * float)) : Controller :=
  mkController (fst tree) (snd tree) (session c) (test_cache c) (root c)
    (best_node c) (iterations c) (no_progress_count c)
    (last_best_coverage c).

Definition with_session (c : Controller) (s : SessionContext.t)
    (cache : gmap string string) : Controller :=
  mkController (nodes c) (updates c) s cache (root c)
    (best_node c) (iterations c) (no_progress_count c)
    (last_best_coverage c).

Definition with_best (c : Controller) (b : option nat) : Controller :=
  mkController (nodes c) (updates c) (session c) (test_cache c) (root c)
    b (iterations c) (no_progress_count c) (last_best_coverage c).

Definition with_progress (c : Controller) (count : Z) (best_cov : float)
    : Controller :=
  mkController (nodes c) (updates c) (session c) (test_cache c) (root c)
    (best_node c) (iterations c) count best_cov.

Definition with_iterations (c : Controller) (n : Z) : Controller :=
  mkController (nodes c) (updates c) (session c) (test_cache c) (root c)
    (best_node c) n (no_progress_count c) (last_best_coverage c).

(** The children kept by the expansion of [leaf_node] in iteration
    [iter], with the session and the cache after the calls. *)
Definition kept_children (iter : nat) (c : Controller)
    (leaf_node : TreeNode)
    : list (TestState * float) * SessionContext.t * gmap string string :=
  let k := _adaptive_k config leaf_node in
  let '(candidates, session_ctx) :=
    _generate_candidates env iter (nodes c) leaf_node (session c) k in
  match candidates with
  | [] => ([], session_ctx, test_cache c)
  | _ =>
      let '(valid_children, cache) :=
        simulate iter 0 session_ctx (test_cache c) (state leaf_node)
          candidates in
      (beam valid_children, session_ctx, cache)
  end.

(** [_expansion_and_simulation]: the rewards it returns and the
    objects after it. *)
Definition _expansion_and_simulation (iter : nat) (c : Controller)
    (leaf : nat) : list float * Controller :=
  match nodes c !! leaf with
  | None => ([], c)
  | Some leaf_node =>
      let '(valid_children, session_ctx, cache) :=
        kept_children iter c leaf_node in
      let c := with_session c session_ctx cache in
      let tree :=
        fold_left (insert_child leaf) valid_children (nodes c, updates c) in
      (snd <$> valid_children, with_tree c tree)
  end.

(** The [while current is not None] loop of [_backpropagation];
    [None] when [fuel] turns do not reach the root. *)
Fixpoint backprop_loop (fuel : nat)
    (tree : list TreeNode * list (nat * float)) (current : option nat)
    (reward : float) : option (list TreeNode * list (nat * float)) :=
  match current with
  | None => Some tree
  | Some i =>
      match fuel with
      | O => None
      | S fuel =>
          let nodes := TreeNodeM.update (fst tree) i reward in
          backprop_loop fuel (nodes, snd tree ++ [(i, reward)])
            (nodes !! i ≫= parent) reward
      end
  end.

Definition _backpropagation (c : Controller) (leaf : nat) (reward : float)
    : option Controller :=
  with_tree c <$>
    backprop_loop (length (nodes c)) (nodes c, updates c)
      (nodes c !! leaf ≫= parent) reward.

(** The [while depth < max_depth] loop of [_selection], with
    [remaining] turns left; [None] is the [None] of the source. *)
Fixpoint selection_loop (nodes : list TreeNode) (current : nat)
    (remaining : nat) : option nat :=
  match remaining with
  | O => None
  | S remaining =>
      match nodes !! current with
      | None => None
      | Some n =>
          if TreeNodeM.is_terminal n then Some current
          else if negb (TreeNodeM.is_fully_expanded n) then Some current
          else
            match TreeNodeM.best_child (math_log env) nodes n
                    (MCTSConfig.exploration_coef config) with
            | None => Some current
            | Some child => selection_loop nodes child remaining
            end
      end
  end.

Definition _selection (nodes : list TreeNode) (root : nat) : option nat :=
  selection_loop nodes root (Z.to_nat (MCTSConfig.max_depth config)).

Definition better (n best : TreeNode) : bool :=
  gt (current_coverage (state n)) (current_coverage (state best))
  || eqb (current_coverage (state n)) (current_coverage (state best))
     && (PyList.len (test_case_names (state n))
         <? PyList.len (test_case_names (state best))).

Definition _update_best (c : Controller) (node : nat) : Controller :=
  match best_node c with
  | None => with_best c (Some node)
  | Some b =>
      match nodes c !! node, nodes c !! b with
      | Some n, Some best =>
          if better n best then with_best c (Some node) else c
      | _, _ => c
      end
  end.

Definition _update_best_from_children (c : Controller) (node : nat)
    : Controller :=
  fold_left _update_best (default [] (children <$> nodes c !! node)) c.

Definition best_coverage (c : Controller) : float :=
  default zero
    ((fun n => current_coverage (state n))
       <$> (best_node c ≫= fun b => nodes c !! b)).

Definition _should_terminate (c : Controller) : bool :=
  ge (best_coverage c) (SessionContext.coverage_target (session c))
  || (MCTSConfig.max_no_progress_iters config <=? no_progress_count c)
  || SessionContext.budget_exceeded (session c).

Inductive flow := Break | Continue.

(** The body of the main loop for [iteration] (from 0); [None] when
    backpropagation does not reach the root. *)
Definition iteration_body (iteration : nat) (c : Controller)
    : option (flow * Controller) :=
  let c := with_iterations c (Z.of_nat iteration + 1) in
  if _should_terminate c then Some (Break, c)
  else
    match root c ≫= fun r => _selection (nodes c) r with
    | None => Some (Break, c)
    | Some leaf =>
        if default false (TreeNodeM.is_terminal <$> nodes c !! leaf)
        then Some (Break, _update_best c leaf)
        else
          let '(rewards, c) := _expansion_and_simulation iteration c leaf in
          match max_list rewards with
          | None => Some (Continue, c)
          | Some best_reward =>
              c ← _backpropagation c leaf best_reward;
              let c := _update_best_from_children c leaf in
              if gt (best_coverage c) (last_best_coverage c)
              then Some (Continue, with_progress c 0 (best_coverage c))
              else Some (Continue,
                         with_progress c (no_progress_count c + 1)
                           (last_best_coverage c))
          end
    end.

(** [for iteration in range(max_iterations)], from [iteration] on. *)
Fixpoint search_loop (iteration remaining : nat) (c : Controller)
    : option Controller :=
  match remaining with
  | O => Some c
  | S remaining =>
      match iteration_body iteration c with
      | None => None
      | Some (Break, c) => Some c
      | Some (Continue, c) => search_loop (S iteration) remaining c
      end
  end.

(** The root state [search] builds when it is given none. *)
Definition root_state (session_ctx : SessionContext.t) : TestState :=
  TestStateM.initial
    (SessionContext.function_signature session_ctx)
    (SessionContext.function_path session_ctx)
    (SessionContext.context session_ctx)
    (SessionContext.coverage_target session_ctx)
    (ExecutionEngine.get_all_conditions (conditions_post env))
    (SessionContext.learned_rules session_ctx).

(** The controller as [search] sets it up before its loop. *)
Definition start (session_ctx : SessionContext.t)
    (cache : gmap string string) (initial_state : option TestState)
    : Controller :=
  let initial_state := default (root_state session_ctx) initial_state in
  mkController [TreeNodeM.make initial_state None] [] session_ctx cache
    (Some 0%nat) (Some 0%nat) 0 0 zero.

(** [search]: the controller when it returns; the value returned is
    its [best_node].  [None] when a loop of the model runs out of
    fuel. *)
Definition search (session_ctx : SessionContext.t)
    (cache : gmap string string) (initial_state : option TestState)
    : option Controller :=
  search_loop 0 (Z.to_nat (MCTSConfig.max_iterations config))
    (start session_ctx cache initial_state).

(** The results the executor returns during the expansion of
    [leaf_node] in iteration [iter]. *)
Definition expansion_results (iter : nat) (c : Controller)
    (leaf_node : TreeNode) : list ExecutionResult :=
  let k := _adaptive_k config leaf_node in
  let gen := _generate_candidates env iter (nodes c) leaf_node (session c) k in
  executions iter 0 (snd gen) (test_cache c) (state leaf_node) (fst gen).

(** [get_best_path] *)
Definition get_best_path (c : Controller) : list string :=
  match best_node c ≫= fun b => nodes c !! b with
  | None => []
  | Some n => test_case_names (state n)
  end.

End Search.

End MCTSController.

(* ===================================================================== *)
(** * Vocabulary of the properties *)
(* ===================================================================== *)

Section Vocabulary.

Import PyFloat MCTSController.

(** The bounds [-5.0] and [15.0] of the reward. *)
Definition minus_five : float := decimal (-50) 1.
Definition fifteen : float := decimal 150 1.

(** Ceiling division, as the claim has it. *)
Definition ceil_div (n d : Z) : Z := (n + d - 1) / d.

(** The reason of a request that failed before an answer was decoded:
    an error status, a transport error or another exception. *)
Definition failure_reason (outcome : http_outcome) : option string :=
  match outcome with
  | HttpOk _ | HttpMalformed _ _ => None
  | HttpError e | OtherError e => Some e
  end.

(** The node [leaf] after it has adopted the children [ids]. *)
Definition adopt (ids : list nat) (n : TreeNode) : TreeNode :=
  mkTreeNode (state n) (parent n) (children n ++ ids) (visits n)
    (total_reward n) (action n) (depth n) (value_estimate n).

(** The node of a kept child after its insertion under [leaf]. *)
Definition child_node (leaf : nat) (leaf_depth : Z) (child : TestState * float)
    : TreeNode :=
  mkTreeNode (fst child) (Some leaf) [] 1 (add zero (snd child)) INITIALIZE
    (leaf_depth + 1) zero.

(** The [update] calls of the insertion of [rewards] from index [base]. *)
Definition child_updates (base : nat) (rewards : list float)
    : list (nat * float) :=
  imap (fun i r => ((base + i)%nat, r)) rewards.

(** The store after the kept children [kept] are added under [leaf]. *)
Definition expanded_nodes (nodes : list TreeNode) (leaf : nat)
    (leaf_node : TreeNode) (kept : list (TestState * float)) : list TreeNode :=
  alter (adopt (seq (length nodes) (length kept))) leaf nodes
    ++ (child_node leaf (depth leaf_node) <$> kept).

(** [chain ps current path]: following the parent column [ps] from
    [current] up to the root visits exactly the nodes of [path], in that
    order. *)
Inductive chain (ps : list (option nat)) : option nat -> list nat -> Prop :=
| chain_root : chain ps None []
| chain_step (i : nat) (p : option nat) (path : list nat) :
    ps !! i = Some p -> chain ps p path -> chain ps (Some i) (i :: path).

(** Every parent is older than its child. *)
Definition wf_parents (ps : list (option nat)) : Prop :=
  forall i p, ps !! i = Some (Some p) -> (p < i)%nat.

(** The store after [update(reward)] on each node of [path]. *)
Definition updated_along (path : list nat) (reward : float)
    (nodes : list TreeNode) : list TreeNode :=
  fold_left (fun ns a => TreeNodeM.update ns a reward) path nodes.

(** What every turn of the main loop keeps true: parents are older than
    their children, the root is node 0 and keeps its state [s0], the best
    node is a stored node, and it is the root as long as the store holds
    the root alone. *)
Record search_inv (s0 : TestState) (c : Controller) : Prop := mkSearchInv {
  inv_wf : wf_parents (parent <$> nodes c);
  inv_root : root c = Some 0%nat;
  inv_root_state : state <$> nodes c !! 0%nat = Some s0;
  inv_best : exists b, best_node c = Some b /\ (b < length (nodes c))%nat;
  inv_alone : length (nodes c) = 1%nat -> best_node c = Some 0%nat
}.

(** The language model is down: every call of [generate] raises. *)
Definition llm_down (env : Env) : Prop :=
  forall (iter : nat) (prompt : string) (temperature : float),
    exists e, gen_outcome (DeepSeekClient.generate
                             (llm_post env iter prompt temperature))
              = GenRaised e.

(** The content of an attempt answered with status 200 and a well-formed
    body. *)
Definition llm_content (attempt : llm_attempt) : option string :=
  match attempt with
  | LlmStatus status_code (Some c) =>
      if status_code =? 200 then Some c else None
  | _ => None
  end.

(** The tokens of all sessions, as [get_stats] adds them up. *)
Definition tokens_in (cache : list (string * SessionContext.t)) : Z :=
  ContextManager.sum (SessionContext.total_tokens <$> (snd <$> cache)).

(** The code and name of a candidate, as the filter sees them. *)
Definition code_hash (hash : string -> Z) (candidate : string * string) : Z :=
  hash (PyStr.strip (fst candidate)).

(** [s'] is [s] after calls of [add_token_usage] that add [p] prompt
    tokens and [q] completion tokens in all. *)
Definition tokens_added (s s' : SessionContext.t) : Prop :=
  exists p q, 0 <= p /\ 0 <= q /\ s' = SessionContext.add_token_usage s p q.

(** Node [i] of the store is consistent with the rest of it: its
    visits are not negative and it has no reward before its first visit;
    a node without parent has depth 0, and a node with a parent is one
    level below it and among its children; every child is a stored node
    that names [i] as its parent, and no child is listed twice. *)
Definition node_ok (nodes : list TreeNode) (i : nat) (n : TreeNode) : Prop :=
  0 <= visits n
  /\ (visits n = 0 -> total_reward n = PyFloat.zero)
  /\ match parent n with
     | None => depth n = 0
     | Some p => exists pn, nodes !! p = Some pn
                            /\ depth n = depth pn + 1
                            /\ i ∈ children pn
     end
  /\ (forall ch, ch ∈ children n ->
        exists cn, nodes !! ch = Some cn /\ parent cn = Some i)
  /\ NoDup (children n).

Definition tree_ok (nodes : list TreeNode) : Prop :=
  forall i n, nodes !! i = Some n -> node_ok nodes i n.

End Vocabulary.

(* ===================================================================== *)
(** * Inputs of the examples *)
(* ===================================================================== *)

Section Inputs.

Import PyFloat MCTSController.

Definition two_conditions : list ConditionInfo :=
  [mkConditionInfo "x > 0" true false None;
   mkConditionInfo "x > 0" false true None].

Definition state_before : TestState :=
  TestStateM.initial "int f(int x)" "src/f.cpp::f" "" (decimal 95 2)
    two_conditions [].

Definition full_result : ExecutionResult :=
  mkExecutionResult "test_001" true None ["test_001"%string]
    (of_int 1) (of_int 1) (of_int 1) two_conditions.

Definition state_after : TestState :=
  TestStateM.clone_with_new_test state_before full_result.

Definition overflow_config : RewardConfig :=
  {| coverage_weight := of_int (2 ^ 1023);
     compile_reward := of_int (2 ^ 1023);
     compile_penalty := of_int (-1);
     condition_weight := of_int (- 2 ^ 1023);
     suite_size_penalty := decimal (-1) 1;
     early_bonus := of_int 3 |}.

Definition cond_with_parent : ConditionInfo :=
  mkConditionInfo "x > 0" true false (Some "x > 0 && y < 10"%string).

Definition cond_without_parent : ConditionInfo :=
  mkConditionInfo "x > 0" true false None.

Definition one_cached : gmap string string := {[ "code"%string := "test_001"%string ]}.

Definition five_char_prompts : PromptManager :=
  mkPromptManager (fun _ _ _ _ _ _ => Some "12345"%string)
    (fun _ _ _ _ => Some "12345"%string)
    (fun _ _ _ _ _ _ => Some "12345"%string).

Definition fresh_session : SessionContext.t :=
  SessionContext.make "s1" "int f(int x)" "src/f.cpp::f" "int f(int x);" ""
    (PyFloat.decimal 95 2) 10.

Definition env_five : Env :=
  mkEnv (fun x => x) five_char_prompts
    (fun _ _ _ _ => LlmStatus 200 (Some "[]"%string))
    (fun _ => Some [])
    (fun s => Z.of_nat (String.length s))
    (fun s => s)
    (fun _ _ => HttpError "unreachable")
    None.

Definition fresh_root : TreeNode :=
  TreeNodeM.make (root_state env_five fresh_session) None.

(** A node whose state has the given coverage and target. *)
Definition node_at (coverage target : float) : TreeNode :=
  TreeNodeM.make
    (mkTestState "int f(int x)" "src/f.cpp::f" "" target ["test_001"%string]
       coverage [] two_conditions [] [])
    None.

Definition demo_prompts : PromptManager :=
  mkPromptManager (fun _ _ _ _ _ _ => Some "initialize"%string)
    (fun _ _ _ _ => Some "targeted"%string)
    (fun _ _ _ _ _ _ => Some "batch"%string).

(** A backend answer reporting a compiled test and [pct] percent MC/DC. *)
Definition success_body (pct : Z) : JavaResponse :=
  mkJavaResponse (Some "success"%string) LogMissing (of_int 100) (of_int 100)
    (of_int pct) [] [].

(** A language model that answers the first two calls with one test
    each and then times out, and an executor that accepts the first test
    at 5 percent coverage and cannot be reached afterwards. *)
Definition demo_env : Env :=
  mkEnv (fun x => x) demo_prompts
    (fun iter _ _ _ =>
       match iter with
       | 0%nat => LlmStatus 200 (Some "r0"%string)
       | 1%nat => LlmStatus 200 (Some "r1"%string)
       | _ => LlmTimeout
       end)
    (fun response =>
       if String.eqb response "r0" then Some [TestDict (Some "a"%string) None]
       else if String.eqb response "r1" then Some [TestDict (Some "b"%string) None]
       else None)
    (fun s => Z.of_nat (String.length s))
    (fun s => s)
    (fun iter _ =>
       match iter with
       | 0%nat => HttpOk (success_body 5)
       | _ => HttpError "connection refused"
       end)
    (Some two_conditions).

Definition demo_config (iterations : Z) : MCTSConfig.t :=
  MCTSConfig.mk iterations (decimal 1414 3) 50 3 1 5 true true
    (decimal (-20) 1) 5 (decimal 95 2) 10 false.

(** The search of [demo_env] stopped after [iterations] turns. *)
Definition demo_search (iterations : Z) : option Controller :=
  search (demo_config iterations) RewardFunction.default_config demo_env
    fresh_session ∅ None.

(** The nodes of [demo_search 1]: the root with one child, node 1, of
    coverage 0.05 and reward 5.4. *)
Definition demo_root : TreeNode :=
  mkTreeNode (root_state demo_env fresh_session) None [1%nat] 0 zero
    INITIALIZE 0 zero.

Definition demo_first_child : TreeNode :=
  mkTreeNode
    (TestStateM.clone_with_new_test (root_state demo_env fresh_session)
       (mkExecutionResult "test_001" true None ["test_001"%string]
          (of_int 1) (of_int 1) (decimal 5 2) []))
    (Some 0%nat) [] 1 (decimal 54 1) INITIALIZE 1 zero.

(** The controller when [demo_search 1] returns. *)
Definition demo_after_first : Controller :=
  mkController [demo_root; demo_first_child] [(1%nat, decimal 54 1)]
    (SessionContext.add_token_usage fresh_session 2 0)
    {[ "a"%string := "test_001"%string ]}
    (Some 0%nat) (Some 1%nat) 1 0 (decimal 5 2).

(** The result of the executor when it cannot be reached in the second
    iteration, and the node inserted for it under node 1. *)
Definition unreachable_result : ExecutionResult :=
  ExecutionResultM.make "test_002" false
    (Some "HTTP error: connection refused"%string) ["test_001"%string].

Definition demo_second_child : TreeNode :=
  child_node 1 1
    (TestStateM.clone_with_new_test (state demo_first_child)
       unreachable_result,
     decimal (-16) 1).

(** [demo_env] with a language model that always times out. *)
Definition silent_env : Env :=
  mkEnv (math_log demo_env) (prompt_manager demo_env)
    (fun _ _ _ _ => LlmTimeout)
    (parse_tests demo_env) (str_hash demo_env) (sha256_16 demo_env)
    (http_post demo_env) (conditions_post demo_env).

(** A model that is rate limited once and then answers. *)
Definition rate_limited_once (attempt : nat) : llm_attempt :=
  match attempt with
  | O => LlmStatus 429 None
  | _ => LlmStatus 200 (Some "ok"%string)
  end.

(** A manager holding two sessions. *)
Definition other_session : SessionContext.t :=
  SessionContext.make "s2" "int g(int y)" "src/g.cpp::g" "int g(int y);" ""
    (PyFloat.decimal 90 2) 20.

Definition two_sessions : ContextManager.t :=
  ContextManager.mk 3600 [("s1"%string, fresh_session);
                          ("s2"%string, other_session)].

(** Ages in seconds: session "s1" was last read two hours ago, the
    others a minute ago. *)
Definition ages (session_id : string) : float :=
  if String.eqb session_id "s1" then PyFloat.of_int 7200 else PyFloat.of_int 60.

End Inputs.

(* ===================================================================== *)
(** * Properties *)
(* ===================================================================== *)

(** ** Order of floats *)

Section FloatOrder.

Import PyFloat.

Lemma SFcompare_antisym (x y : float) (c : comparison) :
  SFcompare x y = Some c -> SFcompare y x = Some (CompOpp c).
Proof.
  destruct x as [sx|sx| |sx mx ex], y as [sy|sy| |sy my ey]; simpl;
    try discriminate; intros [= <-];
    try (destruct sx); try (destruct sy); simpl; try reflexivity.
  all: rewrite (Z.compare_antisym ex ey).
  all: destruct (ex ?= ey); simpl; try reflexivity.
  all: rewrite ?CompOpp_involutive, Pos.compare_cont_antisym; reflexivity.
Qed.

Lemma SFcompare_total (x y : float) :
  is_nan x = false -> is_nan y = false -> exists c, SFcompare x y = Some c.
Proof.
  destruct x, y; simpl; try discriminate; intros _ _; eexists; reflexivity.
Qed.

Lemma SFcompare_nan_l (x y : float) :
  is_nan x = true -> SFcompare x y = None.
Proof. destruct x; simpl; try discriminate. reflexivity. Qed.

Lemma SFcompare_nan_r (x y : float) :
  is_nan y = true -> SFcompare x y = None.
Proof. destruct y; simpl; try discriminate. destruct x; reflexivity. Qed.

Lemma lt_not_nan_l (x y : float) : lt x y = true -> is_nan x = false.
Proof.
  unfold lt, SFltb. destruct (is_nan x) eqn:E; [|reflexivity].
  now rewrite (SFcompare_nan_l x y E).
Qed.

Lemma lt_not_nan_r (x y : float) : lt x y = true -> is_nan y = false.
Proof.
  unfold lt, SFltb. destruct (is_nan y) eqn:E; [|reflexivity].
  now rewrite (SFcompare_nan_r x y E).
Qed.

Lemma le_of_not_lt (x y : float) :
  is_nan x = false -> is_nan y = false -> lt x y = false -> le y x = true.
Proof.
  intros Hx Hy. destruct (SFcompare_total x y Hx Hy) as [c Hc].
  unfold lt, le, SFltb, SFleb.
  rewrite (SFcompare_antisym _ _ _ Hc), Hc. now destruct c.
Qed.

Lemma lt_false_of_le (x y : float) : le y x = true -> lt x y = false.
Proof.
  unfold lt, le, SFltb, SFleb.
  destruct (SFcompare y x) as [c|] eqn:Hc; [|discriminate].
  rewrite (SFcompare_antisym _ _ _ Hc). now destruct c.
Qed.

Lemma le_not_nan_l (x y : float) : le x y = true -> is_nan x = false.
Proof.
  unfold le, SFleb. destruct (is_nan x) eqn:E; [|reflexivity].
  now rewrite (SFcompare_nan_l x y E).
Qed.

End FloatOrder.

(** The literals of the sources, as numerators and binary exponents. *)
Example literal_0_3 : PyFloat.decimal 3 1 = S754_finite false 5404319552844595 (-54).
Proof. vm_compute. reflexivity. Qed.

Example literal_0_95 : PyFloat.decimal 95 2 = S754_finite false 8556839292003942 (-53).
Proof. vm_compute. reflexivity. Qed.

Example literal_minus_5 : PyFloat.decimal (-50) 1 = PyFloat.of_int (-5).
Proof. vm_compute. reflexivity. Qed.

Example literal_15 : PyFloat.decimal 150 1 = PyFloat.of_int 15.
Proof. vm_compute. reflexivity. Qed.

(** ** Reward clipping *)

Section Reward.

Import PyFloat RewardFunction.

(** Clipping between any two ordered numbers. *)
Lemma min_max_bounds (lo hi w : float) :
  is_nan lo = false -> is_nan hi = false ->
  le lo lo = true -> le hi hi = true -> le lo hi = true ->
  is_nan w = false ->
  le lo (min2 (max2 w lo) hi) = true /\ le (min2 (max2 w lo) hi) hi = true.
Proof.
  intros Hlo Hhi Hll Hhh Hlh Hw. unfold max2, min2, gt.
  change (SFltb w lo) with (lt w lo).
  destruct (lt w lo) eqn:Hlow.
  - rewrite (lt_false_of_le hi lo Hlh). auto.
  - destruct (lt hi w) eqn:Hhigh; [auto|].
    split; apply le_of_not_lt; assumption.
Qed.

Lemma min_max_nan (lo hi w : float) :
  is_nan lo = false -> is_nan hi = false -> le lo hi = true ->
  is_nan (min2 (max2 w lo) hi) = is_nan w.
Proof.
  intros Hlo Hhi Hlh. unfold max2, min2, gt.
  change (SFltb w lo) with (lt w lo).
  destruct (lt w lo) eqn:Hlow.
  - rewrite (lt_false_of_le hi lo Hlh), Hlo.
    symmetry. exact (lt_not_nan_l _ _ Hlow).
  - destruct (lt hi w) eqn:Hhigh; [|reflexivity].
    rewrite Hhi. symmetry. exact (lt_not_nan_r _ _ Hhigh).
Qed.

Lemma bounds_facts :
  is_nan minus_five = false /\ is_nan fifteen = false
  /\ le minus_five minus_five = true /\ le fifteen fifteen = true
  /\ le minus_five fifteen = true.
Proof. vm_compute. repeat split. Qed.

(** The clipped value of a reward that is a number lies between the
    two bounds. *)
Lemma clip_bounds (w : float) :
  is_nan w = false ->
  le minus_five (clip w) = true /\ le (clip w) fifteen = true.
Proof.
  destruct bounds_facts as (H1 & H2 & H3 & H4 & H5).
  intros Hw. exact (min_max_bounds minus_five fifteen w H1 H2 H3 H4 H5 Hw).
Qed.

(** NaN goes through both [max] and [min] unchanged. *)
Lemma clip_nan (w : float) : is_nan (clip w) = is_nan w.
Proof.
  destruct bounds_facts as (H1 & H2 & _ & _ & H5).
  exact (min_max_nan minus_five fifteen w H1 H2 H5).
Qed.

(** C1, as stated, fails: with the finite weights [2^1023], [2^1023]
    and [-2^1023] for coverage, compilation and conditions, a test that
    takes the coverage from 0 to 1 and covers two conditions makes the
    sum overflow to [+inf] and then meet [-inf]; the reward returned is
    NaN, which is not between -5 and 15. *)
Lemma reward_clip_counterexample :
  let r := compute overflow_config state_before state_after full_result in
  is_nan r = true /\ ~ (le minus_five r = true /\ le r fifteen = true).
Proof.
  vm_compute. split; [reflexivity|]. intros [H _]. discriminate H.
Qed.

(** The same with the default weights when the executor reports a
    coverage that is not a number. *)
Example reward_of_nan_coverage :
  let r := mkExecutionResult "test_001" true None ["test_001"%string]
             zero zero nan [] in
  is_nan (compute default_config state_before
            (TestStateM.clone_with_new_test state_before r) r) = true.
Proof. vm_compute. reflexivity. Qed.

(** C1 (amended): for all weights, states and execution results,
    whenever the weighted sum of the five terms is a number (not NaN),
    the reward returned by [compute] lies in the closed interval
    [-5, 15]. *)
Theorem reward_clipped (cfg : RewardConfig) (old_state new_state : TestState)
    (exec_result : ExecutionResult) :
  is_nan (weighted_sum cfg old_state new_state exec_result) = false ->
  le minus_five (compute cfg old_state new_state exec_result) = true
  /\ le (compute cfg old_state new_state exec_result) fifteen = true.
Proof. intros Hw. unfold compute. now apply clip_bounds. Qed.

Lemma reward_clipped_witness :
  is_nan (weighted_sum default_config state_before state_after full_result)
    = false
  /\ le minus_five
       (compute default_config state_before state_after full_result) = true
  /\ le (compute default_config state_before state_after full_result)
       fifteen = true.
Proof.
  split; [vm_compute; reflexivity|].
  apply (reward_clipped default_config state_before state_after full_result).
  vm_compute. reflexivity.
Defined.

(** Otherwise the reward is NaN. *)
Lemma reward_nan_iff (cfg : RewardConfig) (old_state new_state : TestState)
    (exec_result : ExecutionResult) :
  is_nan (compute cfg old_state new_state exec_result)
  = is_nan (weighted_sum cfg old_state new_state exec_result).
Proof. apply clip_nan. Qed.

End Reward.

(** ** Equality of conditions *)

Section Conditions.

(** C5, as stated, fails: the two conditions differ in
    [parent_decision] only, and [==] holds between them. *)
Lemma condition_eq_counterexample :
  cond_with_parent <> cond_without_parent
  /\ condition cond_with_parent = condition cond_without_parent
  /\ need_true cond_with_parent = need_true cond_without_parent
  /\ need_false cond_with_parent = need_false cond_without_parent
  /\ ConditionInfoM.eq cond_with_parent (ObjCondition cond_without_parent)
     = true.
Proof. repeat split; try reflexivity. discriminate. Qed.

Lemma condition_eqb_key (a b : ConditionInfo) :
  ConditionInfoM.eqb a b = true <-> ConditionInfoM.key a = ConditionInfoM.key b.
Proof.
  unfold ConditionInfoM.eqb, ConditionInfoM.eq, ConditionInfoM.key.
  rewrite !andb_true_iff, String.eqb_eq, !Bool.eqb_true_iff.
  split.
  - intros [[-> ->] ->]. reflexivity.
  - intros [= -> -> ->]. auto.
Qed.

(** C5 (amended): [a == b] holds if and only if the three fields
    [condition], [need_true] and [need_false] are pairwise equal;
    [parent_decision] is not compared.  [a == b] implies
    [hash(a) == hash(b)], and two conditions that differ only in
    [parent_decision] are equal. *)
Theorem condition_eq_three_fields (a b : ConditionInfo)
    (tuple_hash : cond_key -> Z) :
  (ConditionInfoM.eq a (ObjCondition b) = true
   <-> condition a = condition b
       /\ need_true a = need_true b
       /\ need_false a = need_false b)
  /\ (ConditionInfoM.eq a (ObjCondition b) = true ->
      ConditionInfoM.hash tuple_hash a = ConditionInfoM.hash tuple_hash b)
  /\ (forall pd : option string,
        ConditionInfoM.eq a
          (ObjCondition
             (mkConditionInfo (condition a) (need_true a) (need_false a) pd))
        = true).
Proof.
  repeat split.
  - apply condition_eqb_key in H. now injection H.
  - apply condition_eqb_key in H. now injection H.
  - apply condition_eqb_key in H. now injection H.
  - intros (H1 & H2 & H3). apply condition_eqb_key.
    unfold ConditionInfoM.key. now rewrite H1, H2, H3.
  - intros H. apply condition_eqb_key in H.
    unfold ConditionInfoM.hash. now rewrite H.
  - intros pd. now apply condition_eqb_key.
Qed.

Lemma condition_eq_three_fields_witness :
  ConditionInfoM.eq cond_with_parent (ObjCondition cond_without_parent) = true
  /\ ConditionInfoM.hash (fun k => Z.of_nat (String.length (fst (fst k))))
       cond_with_parent
     = ConditionInfoM.hash (fun k => Z.of_nat (String.length (fst (fst k))))
         cond_without_parent.
Proof.
  split; [reflexivity|].
  apply (condition_eq_three_fields cond_with_parent cond_without_parent).
  reflexivity.
Defined.

(** An object of another class is never equal to a condition. *)
Lemma condition_eq_other (a : ConditionInfo) (repr : string) :
  ConditionInfoM.eq a (ObjOther repr) = false.
Proof. reflexivity. Qed.

End Conditions.

(** ** The retries of the language-model client *)

Section Retry.

Import DeepSeekClient.

(** C4, at three answers with status 429: the client sends three
    requests, sleeps 1 s, 2 s and 4 s after them (the waiting time is
    [2**attempt] with [attempt] counted from 0, where the comment of
    the source announces 2 s, 4 s, 8 s), and raises. *)
Theorem generate_rate_limited :
  generate (fun _ => LlmStatus 429 None)
  = mkGenRun (GenRaised RetriesExhausted) [1; 2; 4] 3.
Proof. reflexivity. Qed.

(** With three answers of status 500, and likewise with three timeouts
    or transport errors, the client sleeps 1 s and 2 s between the
    attempts and raises right after the third. *)
Lemma generate_server_error :
  generate (fun _ => LlmStatus 500 None)
  = mkGenRun (GenRaised (ApiError 500)) [1; 2] 3.
Proof. reflexivity. Qed.

Lemma generate_timeouts :
  generate (fun _ => LlmTimeout) = mkGenRun (GenRaised RequestTimeout) [1; 2] 3.
Proof. reflexivity. Qed.

(** Whatever the requests come to, at most three are sent and the
    sleeps are an initial part of 1 s, 2 s, 4 s. *)
Lemma generate_bounded (outcomes : nat -> llm_attempt) :
  (gen_attempts (generate outcomes) <= 3)%nat
  /\ gen_sleeps (generate outcomes) `prefix_of` [1; 2; 4].
Proof.
  assert (P0 : ([] : list Z) `prefix_of` [1; 2; 4]) by (now exists [1; 2; 4]).
  assert (P1 : [1] `prefix_of` [1; 2; 4]) by (now exists [2; 4]).
  assert (P2 : [1; 2] `prefix_of` [1; 2; 4]) by (now exists [4]).
  assert (P3 : [1; 2; 4] `prefix_of` [1; 2; 4]) by (now exists []).
  unfold generate, generate_from, max_retries.
  destruct (outcomes 0%nat) as [s0 [c0|]| |m0];
    destruct (outcomes 1%nat) as [s1 [c1|]| |m1];
    destruct (outcomes 2%nat) as [s2 [c2|]| |m2]; cbn;
    repeat (match goal with
            | |- _ /\ _ => split
            | |- ?G =>
                match G with
                | context [Z.eqb ?a ?b] => destruct (Z.eqb a b); cbn
                end
            end); auto; lia.
Qed.

End Retry.

(** ** The sessions route *)

Section Sessions.

(** C9 fails on the code for every state of the cache:
    [list_sessions] reads the key "active_sessions" of the dictionary
    of [get_stats], which has the keys "total_sessions",
    "total_tokens_used", "total_learned_rules" and "ttl_seconds" only,
    so the handler raises [KeyError]. *)
Theorem list_sessions_raises (context_manager : ContextManager.t) :
  Routes.list_sessions context_manager = RaisedKeyError "active_sessions".
Proof. reflexivity. Qed.

Example list_sessions_empty_cache :
  Routes.list_sessions (ContextManager.mk 3600 [])
  = RaisedKeyError "active_sessions".
Proof. reflexivity. Qed.

(** What [get_stats] does count. *)
Lemma get_stats_total_sessions (context_manager : ContextManager.t) :
  Routes.getitem (ContextManager.get_stats context_manager) "total_sessions"
  = Returned (Z.of_nat (length (ContextManager._cache context_manager))).
Proof. reflexivity. Qed.

End Sessions.

(** ** Failures of the executor client *)

Section Executor.

Import ExecutionEngine.

(** C6, as stated, fails on the cache-hit path: the body "code" was
    executed before under the name "test_001"; executing it again on
    the empty suite asks for the coverage of ["test_001"], and when
    that request fails the result has [new_test_compiled = True] and
    carries "test_001" in its suite. *)
Lemma executor_cache_hit_counterexample :
  let existing : list string := [] in
  let r := fst (execute_new_test (fun code => code) one_cached
                  (HttpError "timed out") "src/f.cpp::f" "code" "test_002"
                  existing) in
  new_test_compiled r = true
  /\ suite_test_names r = ["test_001"%string]
  /\ ~ (new_test_compiled r = false /\ suite_test_names r = existing).
Proof.
  vm_compute. repeat split. intros [H _]. discriminate H.
Qed.

(** C6 (amended): whatever request fails (error status, transport
    error or any other exception), [execute_new_test] returns a result
    whose [error_message] ends with the reason, hence [failed] holds of
    it, and leaves the cache as it was.  On the direct path the result
    has [new_test_compiled = False], the caller's test name and the
    caller's existing names as suite.  On the cache-hit path the result
    is that of [get_suite_coverage]: [new_test_compiled = True], an
    empty test name, and as suite the names sent to the coverage
    request, the existing names followed by the cached name unless it
    is among them. *)
Theorem executor_failure_result (sha : string -> string)
    (test_cache : gmap string string) (outcome : http_outcome)
    (function_path test_code test_name : string)
    (existing : list string) (reason : string) :
  failure_reason outcome = Some reason ->
  let out := execute_new_test sha test_cache outcome function_path
               test_code test_name existing in
  let r := fst out in
  snd out = test_cache
  /\ (exists label : string, error_message r = Some (label ++ reason)%string)
  /\ ExecutionResultM.failed r = true
  /\ mcdc_coverage r = PyFloat.zero
  /\ match test_cache !! sha test_code with
     | None =>
         new_test_compiled r = false
         /\ new_test_name r = test_name
         /\ suite_test_names r = existing
     | Some cached_name =>
         new_test_compiled r = true
         /\ new_test_name r = ""%string
         /\ suite_test_names r
            = (if name_in cached_name existing then existing
               else existing ++ [cached_name])
         /\ r = get_suite_coverage outcome function_path (suite_test_names r)
     end.
Proof.
  intros Hfail. unfold execute_new_test.
  destruct (test_cache !! sha test_code) as [cached_name|] eqn:Hc;
    destruct outcome as [body|e|e|status e]; simpl in Hfail; try discriminate;
    injection Hfail as ->; cbn;
    try (destruct (name_in cached_name existing); cbn);
    repeat split; eauto.
Qed.

Lemma executor_failure_result_witness :
  failure_reason (HttpError "timed out") = Some "timed out"%string
  /\ new_test_compiled
       (fst (execute_new_test (fun code => code) ∅ (HttpError "timed out")
               "src/f.cpp::f" "code" "test_002" ["test_001"%string]))
     = false.
Proof.
  split; [reflexivity|].
  pose proof (executor_failure_result (fun code => code) ∅
                (HttpError "timed out") "src/f.cpp::f" "code" "test_002"
                ["test_001"%string] "timed out" eq_refl) as H.
  cbv zeta in H. destruct H as (_ & _ & _ & _ & H).
  change ((∅ : gmap string string) !! "code"%string) with (@None string) in H.
  exact (proj1 H).
Defined.

(** The secondary operations never raise either. *)
Lemma get_suite_coverage_failure (outcome : http_outcome)
    (function_path : string) (test_names : list string) (reason : string) :
  failure_reason outcome = Some reason ->
  get_suite_coverage outcome function_path test_names
  = ExecutionResultM.make "" true
      (Some ("Coverage retrieval error: " ++ reason)%string) test_names.
Proof. destruct outcome; simpl; intros [= ->]; reflexivity. Qed.

(** An answer that does not parse gives the same failed result on the
    direct path; the name is cached all the same when the answer said
    "success". *)
Lemma execute_malformed (sha : string -> string)
    (test_cache : gmap string string) (status : option string)
    (function_path test_code test_name e : string) (existing : list string) :
  test_cache !! sha test_code = None ->
  execute_new_test sha test_cache (HttpMalformed status e) function_path
    test_code test_name existing
  = (ExecutionResultM.make test_name false
       (Some ("Execution error: " ++ e)%string) existing,
     if bool_decide (status = Some "success"%string)
     then <[sha test_code := test_name]> test_cache else test_cache).
Proof. intros Hc. unfold execute_new_test. now rewrite Hc. Qed.

Lemma get_all_conditions_failure : get_all_conditions None = [].
Proof. reflexivity. Qed.

End Executor.

(** ** Token accounting *)

Section Tokens.

Import MCTSController.

(** C7, as stated, fails: a prompt of length 5 accrues 1 prompt token,
    not the 2 of the ceiling; the response "[]" of length 2 accrues
    none. *)
Lemma tokens_counterexample :
  let s := snd (_generate_candidates env_five 0 [fresh_root] fresh_root
                  fresh_session 5) in
  SessionContext.total_prompt_tokens s = 1
  /\ SessionContext.total_completion_tokens s = 0
  /\ SessionContext.total_prompt_tokens s
     <> SessionContext.total_prompt_tokens fresh_session
        + ceil_div (PyStr.len "12345") 4.
Proof. vm_compute. repeat split. discriminate. Qed.

(** C7 (amended): for every call of the language model that returns a
    response [r] to the prompt [p], the token counters of the session
    grow by exactly [floor(len(p)/4)] on the prompt side and
    [floor(len(r)/4)] on the completion side. *)
Theorem tokens_accrued (env : Env) (iter : nat) (all_nodes : list TreeNode)
    (node : TreeNode) (session_ctx : SessionContext.t) (k : Z)
    (prompt response : string) :
  render_prompt env all_nodes node session_ctx k = Some prompt ->
  gen_outcome (llm_call env iter node prompt) = Generated response ->
  let s := snd (_generate_candidates env iter all_nodes node session_ctx k) in
  let p := PyStr.len prompt / 4 in
  let r := PyStr.len response / 4 in
  SessionContext.total_prompt_tokens s
    = SessionContext.total_prompt_tokens session_ctx + p
  /\ SessionContext.total_completion_tokens s
    = SessionContext.total_completion_tokens session_ctx + r
  /\ 4 * p <= PyStr.len prompt < 4 * p + 4
  /\ 4 * r <= PyStr.len response < 4 * r + 4.
Proof.
  intros Hp Hr. unfold _generate_candidates. rewrite Hp, Hr.
  destruct (parse_tests env response); cbn;
    (split; [reflexivity|split; [reflexivity|]]);
    unfold PyStr.len; split.
  all: match goal with
       | |- context [Z.of_nat ?n / 4] =>
           pose proof (Z.div_mod (Z.of_nat n) 4 ltac:(lia));
           pose proof (Z.mod_pos_bound (Z.of_nat n) 4 ltac:(lia)); lia
       end.
Qed.

Lemma tokens_accrued_witness :
  SessionContext.total_prompt_tokens
    (snd (_generate_candidates env_five 0 [fresh_root] fresh_root
            fresh_session 5))
  = SessionContext.total_prompt_tokens fresh_session + PyStr.len "12345" / 4.
Proof.
  apply (tokens_accrued env_five 0 [fresh_root] fresh_root fresh_session 5
           "12345" "[]").
  - reflexivity.
  - reflexivity.
Defined.

(** When the call raises, nothing is accrued. *)
Lemma tokens_of_failed_call (env : Env) (iter : nat)
    (all_nodes : list TreeNode) (node : TreeNode)
    (session_ctx : SessionContext.t) (k : Z) (prompt : string)
    (e : llm_failure) :
  render_prompt env all_nodes node session_ctx k = Some prompt ->
  gen_outcome (llm_call env iter node prompt) = GenRaised e ->
  _generate_candidates env iter all_nodes node session_ctx k
  = ([], session_ctx).
Proof.
  intros Hp Hr. unfold _generate_candidates. now rewrite Hp, Hr.
Qed.

End Tokens.

(** ** Adaptive K *)

Section AdaptiveK.

Import PyFloat MCTSController.

Lemma thresholds_are_numbers :
  is_nan (decimal 3 1) = false /\ is_nan (decimal 7 1) = false.
Proof. vm_compute. split; reflexivity. Qed.

(** C8: with a target [t > 0] and [progress = c / t], the count chosen
    under [adaptive_k] is [max_k] if [progress < 0.3], [expansion_k] if
    [0.3 <= progress < 0.7] and [min_k] otherwise; without
    [adaptive_k] it is [expansion_k].  With [min_k = 1],
    [expansion_k = 3], [max_k = 5] and target 0.95, the coverages 0.10,
    0.50 and 0.85 give 5, 3 and 1. *)
Theorem adaptive_k_stages (config : MCTSConfig.t) (node : TreeNode) :
  let c := current_coverage (state node) in
  let t := coverage_target (state node) in
  let progress := div c t in
  (gt t zero = true ->
   MCTSConfig.adaptive_k config = true ->
   (lt progress (decimal 3 1) = true ->
    _adaptive_k config node = MCTSConfig.max_k config)
   /\ (le (decimal 3 1) progress = true ->
       lt progress (decimal 7 1) = true ->
       _adaptive_k config node = MCTSConfig.expansion_k config)
   /\ (lt progress (decimal 3 1) = false ->
       le (decimal 3 1) progress && lt progress (decimal 7 1) = false ->
       _adaptive_k config node = MCTSConfig.min_k config))
  /\ (MCTSConfig.adaptive_k config = false ->
      _adaptive_k config node = MCTSConfig.expansion_k config)
  /\ (MCTSConfig.min_k MCTSConfig.default = 1
      /\ MCTSConfig.expansion_k MCTSConfig.default = 3
      /\ MCTSConfig.max_k MCTSConfig.default = 5
      /\ _adaptive_k MCTSConfig.default
           (node_at (decimal 10 2) (decimal 95 2)) = 5
      /\ _adaptive_k MCTSConfig.default
           (node_at (decimal 50 2) (decimal 95 2)) = 3
      /\ _adaptive_k MCTSConfig.default
           (node_at (decimal 85 2) (decimal 95 2)) = 1).
Proof.
  intros c t progress. split; [|split].
  - intros Ht Ha. unfold _adaptive_k. rewrite Ha.
    change (negb true) with false. cbv iota.
    fold c t. rewrite Ht. fold progress.
    destruct thresholds_are_numbers as [N3 N7].
    split; [|split].
    + intros H. now rewrite H.
    + intros H3 H7. now rewrite (lt_false_of_le _ _ H3), H7.
    + intros H3 H. rewrite H3.
      destruct (lt progress (decimal 7 1)) eqn:H7; [|reflexivity].
      rewrite (le_of_not_lt progress (decimal 3 1)) in H;
        [discriminate| |assumption|assumption].
      exact (lt_not_nan_l _ _ H7).
  - intros Ha. unfold _adaptive_k. now rewrite Ha.
  - vm_compute. repeat split.
Qed.

Lemma adaptive_k_stages_witness :
  gt (decimal 95 2) zero = true
  /\ MCTSConfig.adaptive_k MCTSConfig.default = true
  /\ lt (div (decimal 10 2) (decimal 95 2)) (decimal 3 1) = true
  /\ _adaptive_k MCTSConfig.default (node_at (decimal 10 2) (decimal 95 2))
     = MCTSConfig.max_k MCTSConfig.default.
Proof.
  assert (Ht : gt (decimal 95 2) zero = true) by (vm_compute; reflexivity).
  assert (Hp : lt (div (decimal 10 2) (decimal 95 2)) (decimal 3 1) = true)
    by (vm_compute; reflexivity).
  split; [exact Ht|]. split; [reflexivity|]. split; [exact Hp|].
  exact (proj1 (proj1 (adaptive_k_stages MCTSConfig.default
                         (node_at (decimal 10 2) (decimal 95 2)))
                  Ht eq_refl) Hp).
Defined.

(** A target that is not positive counts as no progress. *)
Lemma adaptive_k_no_target (config : MCTSConfig.t) (node : TreeNode) :
  MCTSConfig.adaptive_k config = true ->
  gt (coverage_target (state node)) zero = false ->
  _adaptive_k config node = MCTSConfig.max_k config.
Proof.
  intros Ha Ht. unfold _adaptive_k. rewrite Ha, Ht.
  change (negb true) with false. cbv iota.
  replace (lt zero (decimal 3 1)) with true by (vm_compute; reflexivity).
  reflexivity.
Qed.

End AdaptiveK.

(** ** The store of nodes under insertion and backpropagation *)

Section Tree.

Import PyFloat MCTSController.

(** Altering an entry in a way a projection does not see. *)
Lemma fmap_alter_same {A B : Type} (g : A -> B) (f : A -> A) (i : nat)
    (l : list A) :
  (forall x, g (f x) = g x) -> g <$> alter f i l = g <$> l.
Proof.
  intros Hg. revert i. induction l as [|x l IH]; intros [|i]; simpl;
    try reflexivity.
  - now rewrite Hg.
  - f_equal. apply IH.
Qed.

Lemma adopt_nil (n : TreeNode) : adopt [] n = n.
Proof. destruct n. unfold adopt. simpl. now rewrite app_nil_r. Qed.

Lemma adopt_adopt (ids1 ids2 : list nat) (n : TreeNode) :
  adopt ids2 (adopt ids1 n) = adopt (ids1 ++ ids2) n.
Proof. unfold adopt. simpl. now rewrite app_assoc. Qed.

Lemma insert_child_spec (leaf : nat) (nodes : list TreeNode)
    (log : list (nat * float)) (leaf_node : TreeNode)
    (child : TestState * float) :
  nodes !! leaf = Some leaf_node ->
  insert_child leaf (nodes, log) child
  = (alter (adopt [length nodes]) leaf nodes
       ++ [child_node leaf (depth leaf_node) child],
     log ++ [(length nodes, snd child)]).
Proof.
  intros Hleaf. pose proof (lookup_lt_Some _ _ _ Hleaf) as Hlt.
  unfold insert_child, TreeNodeM.add_child, TreeNodeM.update.
  f_equal.
  rewrite (lookup_app_l_Some _ _ _ _ Hleaf). simpl.
  rewrite (alter_app_r_alt _ nodes _ (length nodes)) by lia.
  rewrite Nat.sub_diag. simpl.
  rewrite alter_app_l by lia.
  rewrite (alter_app_r_alt _ _ _ (length nodes))
    by (rewrite length_alter; lia).
  rewrite length_alter, Nat.sub_diag. simpl.
  reflexivity.
Qed.

Lemma insert_children_spec (leaf : nat) (children : list (TestState * float)) :
  forall (nodes : list TreeNode) (log : list (nat * float))
         (leaf_node : TreeNode),
    nodes !! leaf = Some leaf_node ->
    fold_left (insert_child leaf) children (nodes, log)
    = (alter (adopt (seq (length nodes) (length children))) leaf nodes
         ++ (child_node leaf (depth leaf_node) <$> children),
       log ++ child_updates (length nodes) (snd <$> children)).
Proof.
  induction children as [|child rest IH]; intros nodes log leaf_node Hleaf.
  - simpl. rewrite !app_nil_r. f_equal.
    symmetry. apply list_alter_id. apply adopt_nil.
  - pose proof (lookup_lt_Some _ _ _ Hleaf) as Hlt.
    cbn [fold_left]. rewrite (insert_child_spec _ _ _ _ _ Hleaf).
    erewrite IH; last first.
    { rewrite lookup_app_l by (rewrite length_alter; lia).
      rewrite list_lookup_alter_eq, Hleaf. reflexivity. }
    rewrite length_app, length_alter. simpl length.
    rewrite alter_app_l by (rewrite length_alter; lia).
    rewrite list_alter_alter_eq.
    f_equal.
    + rewrite <- app_assoc. f_equal.
      apply list_alter_ext; [|reflexivity].
      intros n _. simpl. rewrite adopt_adopt. f_equal.
      rewrite Nat.add_1_r. reflexivity.
    + rewrite <- app_assoc. f_equal. unfold child_updates.
      simpl. f_equal.
      * f_equal. lia.
      * apply imap_ext. intros i r _. simpl. f_equal. lia.
Qed.


(** *** Expansion *)

Section Expansion.

Variable config : MCTSConfig.t.
Variable reward_config : RewardConfig.
Variable env : Env.

Lemma expansion_spec (iter : nat) (c : Controller) (leaf : nat)
    (leaf_node : TreeNode) :
  nodes c !! leaf = Some leaf_node ->
  let kept := kept_children config reward_config env iter c leaf_node in
  _expansion_and_simulation config reward_config env iter c leaf
  = (snd <$> kept.1.1,
     mkController
       (expanded_nodes (nodes c) leaf leaf_node kept.1.1)
       (updates c ++ child_updates (length (nodes c)) (snd <$> kept.1.1))
       kept.1.2 kept.2 (root c) (best_node c) (iterations c)
       (no_progress_count c) (last_best_coverage c)).
Proof.
  intros Hleaf kept. unfold _expansion_and_simulation. rewrite Hleaf.
  subst kept.
  destruct (kept_children config reward_config env iter c leaf_node)
    as [[valid session_ctx] cache].
  cbn [fst snd with_session with_tree nodes updates].
  rewrite (insert_children_spec leaf valid (nodes c) (updates c) leaf_node Hleaf).
  reflexivity.
Qed.

Lemma expanded_nodes_length (nodes : list TreeNode) (leaf : nat)
    (leaf_node : TreeNode) (kept : list (TestState * float)) :
  length (expanded_nodes nodes leaf leaf_node kept)
  = (length nodes + length kept)%nat.
Proof.
  unfold expanded_nodes. now rewrite length_app, length_alter, length_fmap.
Qed.

Lemma expanded_nodes_old (nodes : list TreeNode) (leaf : nat)
    (leaf_node : TreeNode) (kept : list (TestState * float)) (i : nat) :
  (i < length nodes)%nat -> i <> leaf ->
  expanded_nodes nodes leaf leaf_node kept !! i = nodes !! i.
Proof.
  intros Hi Hne. unfold expanded_nodes.
  rewrite lookup_app_l by (rewrite length_alter; lia).
  now rewrite list_lookup_alter_ne by congruence.
Qed.

Lemma expanded_nodes_leaf (nodes : list TreeNode) (leaf : nat)
    (leaf_node : TreeNode) (kept : list (TestState * float)) :
  nodes !! leaf = Some leaf_node ->
  expanded_nodes nodes leaf leaf_node kept !! leaf
  = Some (adopt (seq (length nodes) (length kept)) leaf_node).
Proof.
  intros Hleaf. pose proof (lookup_lt_Some _ _ _ Hleaf). unfold expanded_nodes.
  rewrite lookup_app_l by (rewrite length_alter; lia).
  now rewrite list_lookup_alter_eq, Hleaf.
Qed.

Lemma expanded_nodes_new (nodes : list TreeNode) (leaf : nat)
    (leaf_node : TreeNode) (kept : list (TestState * float)) (i : nat) :
  expanded_nodes nodes leaf leaf_node kept !! (length nodes + i)%nat
  = child_node leaf (depth leaf_node) <$> kept !! i.
Proof.
  unfold expanded_nodes.
  rewrite lookup_app_r by (rewrite length_alter; lia).
  rewrite length_alter, list_lookup_fmap. f_equal. f_equal. lia.
Qed.

Lemma expanded_nodes_parents (nodes : list TreeNode) (leaf : nat)
    (leaf_node : TreeNode) (kept : list (TestState * float)) :
  parent <$> expanded_nodes nodes leaf leaf_node kept
  = (parent <$> nodes) ++ replicate (length kept) (Some leaf).
Proof.
  unfold expanded_nodes. rewrite fmap_app. f_equal.
  - now apply fmap_alter_same.
  - induction kept as [|k rest IH]; [reflexivity|].
    cbn [length replicate]. rewrite <- IH. reflexivity.
Qed.

Lemma expanded_nodes_states (nodes : list TreeNode) (leaf : nat)
    (leaf_node : TreeNode) (kept : list (TestState * float)) :
  state <$> expanded_nodes nodes leaf leaf_node kept
  = (state <$> nodes) ++ (fst <$> kept).
Proof.
  unfold expanded_nodes. rewrite fmap_app. f_equal.
  - now apply fmap_alter_same.
  - rewrite <- list_fmap_compose. reflexivity.
Qed.

End Expansion.

(** *** Parent chains and backpropagation *)

Lemma chain_app (ps extra : list (option nat)) (current : option nat)
    (path : list nat) :
  chain ps current path -> chain (ps ++ extra) current path.
Proof.
  induction 1 as [|i p path Hi _ IH]; [constructor|].
  apply (chain_step _ i p); [now apply lookup_app_l_Some|exact IH].
Qed.

Lemma chain_from (ps : list (option nat)) :
  wf_parents ps ->
  forall i, (i < length ps)%nat ->
    exists path, chain ps (Some i) path
                 /\ Forall (fun a => (a <= i)%nat) path /\ NoDup path
                 /\ (length path <= S i)%nat.
Proof.
  intros Hwf i. induction i as [i IH] using lt_wf_ind. intros Hi.
  destruct (lookup_lt_is_Some_2 ps i Hi) as [p Hp].
  destruct p as [j|].
  - pose proof (Hwf i j Hp) as Hj.
    destruct (IH j Hj ltac:(lia)) as (path & Hc & Hall & Hnd & Hlen).
    exists (i :: path). repeat split.
    + econstructor; eassumption.
    + constructor; [lia|]. eapply Forall_impl; [exact Hall|].
      simpl. intros. lia.
    + constructor; [|exact Hnd]. intros Hin.
      rewrite Forall_forall in Hall. specialize (Hall i Hin). lia.
    + simpl. lia.
  - exists [i]. repeat split.
    + econstructor; [eassumption|constructor].
    + constructor; [lia|constructor].
    + apply NoDup_singleton.
    + simpl. lia.
Qed.

(** The strict ancestors of a stored node. *)
Lemma ancestors_exist (ps : list (option nat)) (leaf : nat) (p : option nat) :
  wf_parents ps -> ps !! leaf = Some p ->
  exists path, chain ps p path
               /\ Forall (fun a => (a < leaf)%nat) path /\ NoDup path
               /\ (length path <= leaf)%nat.
Proof.
  intros Hwf Hp. destruct p as [j|].
  - pose proof (Hwf leaf j Hp) as Hj.
    pose proof (lookup_lt_Some _ _ _ Hp) as Hlt.
    destruct (chain_from ps Hwf j ltac:(lia)) as (path & Hc & Hall & Hnd & Hlen).
    exists path. repeat split; try assumption; [|lia].
    eapply Forall_impl; [exact Hall|]. simpl. intros. lia.
  - exists []. repeat split; [constructor|constructor|constructor|simpl; lia].
Qed.

Lemma update_parents (nodes : list TreeNode) (i : nat) (reward : float) :
  parent <$> TreeNodeM.update nodes i reward = parent <$> nodes.
Proof.
  unfold TreeNodeM.update. now apply fmap_alter_same.
Qed.

Lemma update_states (nodes : list TreeNode) (i : nat) (reward : float) :
  state <$> TreeNodeM.update nodes i reward = state <$> nodes.
Proof.
  unfold TreeNodeM.update. now apply fmap_alter_same.
Qed.

Lemma updated_along_parents (path : list nat) (reward : float) :
  forall nodes, parent <$> updated_along path reward nodes = parent <$> nodes.
Proof.
  induction path as [|a path IH]; intros nodes; [reflexivity|].
  simpl. rewrite IH. apply update_parents.
Qed.

Lemma updated_along_states (path : list nat) (reward : float) :
  forall nodes, state <$> updated_along path reward nodes = state <$> nodes.
Proof.
  induction path as [|a path IH]; intros nodes; [reflexivity|].
  simpl. rewrite IH. apply update_states.
Qed.

Lemma updated_along_length (path : list nat) (reward : float)
    (nodes : list TreeNode) :
  length (updated_along path reward nodes) = length nodes.
Proof.
  rewrite <- (length_fmap parent), updated_along_parents.
  apply length_fmap.
Qed.

Lemma updated_along_other (path : list nat) (reward : float) (i : nat) :
  i ∉ path ->
  forall nodes, updated_along path reward nodes !! i = nodes !! i.
Proof.
  induction path as [|a path IH]; intros Hi nodes; [reflexivity|].
  apply not_elem_of_cons in Hi as [Hne Hi].
  simpl. rewrite (IH Hi). unfold TreeNodeM.update.
  now rewrite list_lookup_alter_ne by congruence.
Qed.

Lemma updated_along_once (path : list nat) (reward : float) (i : nat) :
  NoDup path -> i ∈ path ->
  forall nodes,
    updated_along path reward nodes !! i
    = TreeNodeM.updated reward <$> nodes !! i.
Proof.
  induction path as [|a path IH]; intros Hnd Hi nodes.
  - now apply elem_of_nil in Hi.
  - apply NoDup_cons in Hnd as [Ha Hnd]. simpl.
    destruct (decide (i = a)) as [->|Hne].
    + rewrite (updated_along_other _ _ _ Ha). unfold TreeNodeM.update.
      apply list_lookup_alter_eq.
    + apply elem_of_cons in Hi as [Hi|Hi]; [congruence|].
      rewrite (IH Hnd Hi). unfold TreeNodeM.update.
      now rewrite list_lookup_alter_ne by congruence.
Qed.

Lemma backprop_loop_chain (reward : float) (ps : list (option nat))
    (current : option nat) (path : list nat) :
  chain ps current path ->
  forall (fuel : nat) (nodes : list TreeNode) (log : list (nat * float)),
    parent <$> nodes = ps -> (length path <= fuel)%nat ->
    backprop_loop fuel (nodes, log) current reward
    = Some (updated_along path reward nodes,
            log ++ ((fun a => (a, reward)) <$> path)).
Proof.
  induction 1 as [|i p path Hi _ IH]; intros fuel nodes log Hps Hfuel.
  - destruct fuel; simpl; now rewrite app_nil_r.
  - destruct fuel as [|fuel]; [simpl in Hfuel; lia|].
    simpl in Hfuel. cbn [backprop_loop fst snd].
    assert (Hnext : TreeNodeM.update nodes i reward !! i ≫= parent = p).
    { pose proof (update_parents nodes i reward) as Hup.
      rewrite Hps in Hup.
      assert (H : (parent <$> TreeNodeM.update nodes i reward) !! i = Some p)
        by now rewrite Hup.
      rewrite list_lookup_fmap in H.
      destruct (TreeNodeM.update nodes i reward !! i) as [n|];
        simpl in *; congruence. }
    rewrite Hnext.
    rewrite (IH fuel (TreeNodeM.update nodes i reward)
               (log ++ [(i, reward)]));
      [|now rewrite update_parents|lia].
    simpl. now rewrite <- app_assoc.
Qed.

End Tree.

Section ExpansionProps.

Import PyFloat MCTSController.

Variable config : MCTSConfig.t.
Variable reward_config : RewardConfig.
Variable env : Env.

Lemma insert_desc_elem {A : Type} (key : A -> float) (x y : A) (l : list A) :
  y ∈ PyList.insert_desc key x l -> y = x \/ y ∈ l.
Proof.
  induction l as [|z l IH]; simpl.
  - intros H. apply list_elem_of_singleton in H. now left.
  - destruct (lt (key z) (key x)).
    + intros H. apply elem_of_cons in H. exact H.
    + intros H. apply elem_of_cons in H as [->|H].
      * right. apply elem_of_cons. now left.
      * destruct (IH H) as [->|Hin]; [now left|].
        right. apply elem_of_cons. now right.
Qed.

Lemma sort_desc_elem {A : Type} (key : A -> float) (y : A) (l : list A) :
  y ∈ PyList.sort_desc key l -> y ∈ l.
Proof.
  unfold PyList.sort_desc.
  assert (G : forall acc, y ∈ fold_left (fun acc x => PyList.insert_desc key x acc) l acc
                          -> y ∈ l \/ y ∈ acc).
  { induction l as [|x l IH]; intros acc; simpl.
    - now right.
    - intros H. destruct (IH _ H) as [Hin|Hin].
      + left. apply elem_of_cons. now right.
      + destruct (insert_desc_elem _ _ _ _ Hin) as [->|Hacc].
        * left. apply elem_of_cons. now left.
        * now right. }
  intros H. destruct (G [] H) as [Hin|Hin]; [exact Hin|].
  now apply elem_of_nil in Hin.
Qed.

Lemma upto_elem {A : Type} (k : Z) (y : A) (l : list A) :
  y ∈ PyList.upto k l -> y ∈ l.
Proof.
  unfold PyList.upto. destruct (0 <=? k); apply subseteq_take.
Qed.

Lemma beam_elem (y : TestState * float) (valid : list (TestState * float)) :
  y ∈ beam config valid -> y ∈ valid.
Proof.
  unfold beam.
  destruct (MCTSConfig.enable_pruning config
            && (MCTSConfig.beam_width config <? PyList.len valid));
    [|trivial].
  intros H. apply upto_elem in H. now apply sort_desc_elem in H.
Qed.

(** Every entry of [valid_children] comes from an execution, by
    [clone_with_new_test] and [compute], and was not pruned. *)
Lemma simulate_elem (iter : nat) (session_ctx : SessionContext.t)
    (leaf_state : TestState) (candidates : list (string * string)) :
  forall (j : nat) (cache : gmap string string) (child : TestState * float),
    child ∈ (simulate config reward_config env iter j session_ctx cache
               leaf_state candidates).1 ->
    exists r,
      r ∈ executions env iter j session_ctx cache leaf_state candidates
      /\ child.1 = TestStateM.clone_with_new_test leaf_state r
      /\ child.2 = RewardFunction.compute reward_config leaf_state child.1 r
      /\ pruned config child.2 = false.
Proof.
  induction candidates as [|cand rest IH]; intros j cache child; simpl.
  - intros H. now apply elem_of_nil in H.
  - destruct (execute env iter j session_ctx cache leaf_state cand)
      as [exec_result cache1] eqn:He.
    specialize (IH (S j) cache1 child).
    destruct (simulate config reward_config env iter (S j) session_ctx cache1
                leaf_state rest) as [valid cache2] eqn:Hs.
    simpl in IH.
    destruct (pruned config
                (RewardFunction.compute reward_config leaf_state
                   (TestStateM.clone_with_new_test leaf_state exec_result)
                   exec_result)) eqn:Hp; simpl; intros H.
    + destruct (IH H) as (r & Hr & Hrest). exists r. split; [|exact Hrest].
      apply elem_of_cons. now right.
    + apply elem_of_cons in H as [->|H].
      * exists exec_result. simpl. repeat split; try assumption.
        apply elem_of_cons. now left.
      * destruct (IH H) as (r & Hr & Hrest). exists r. split; [|exact Hrest].
        apply elem_of_cons. now right.
Qed.

Lemma kept_children_elem (iter : nat) (c : Controller) (leaf_node : TreeNode)
    (child : TestState * float) :
  child ∈ (kept_children config reward_config env iter c leaf_node).1.1 ->
  exists r,
    r ∈ expansion_results config env iter c leaf_node
    /\ child.1 = TestStateM.clone_with_new_test (state leaf_node) r
    /\ child.2 = RewardFunction.compute reward_config (state leaf_node) child.1 r
    /\ pruned config child.2 = false.
Proof.
  unfold kept_children, expansion_results.
  destruct (_generate_candidates env iter (nodes c) leaf_node (session c)
              (_adaptive_k config leaf_node)) as [candidates session_ctx].
  destruct candidates as [|cand rest].
  - simpl. intros H. now apply elem_of_nil in H.
  - pose proof (simulate_elem iter session_ctx (state leaf_node) (cand :: rest)
                  0 (test_cache c) child) as Hsim.
    destruct (simulate config reward_config env iter 0 session_ctx
                (test_cache c) (state leaf_node) (cand :: rest))
      as [valid cache].
    cbn [fst snd] in *. intros H. apply beam_elem in H. exact (Hsim H).
Qed.

(** C2 (amended): every child that the expansion of a stored node [N]
    inserts has [N] as parent and a state obtained by
    [clone_with_new_test] from [N.state] and a result [r] the executor
    returned in that expansion, whose reward passed the pruning filter;
    its [current_coverage] is [r.mcdc_coverage], the cumulative coverage
    the executor reported, so that it is greater than or equal to
    [N.state.current_coverage] exactly when the reported coverage is. *)
Theorem expansion_child_coverage (iter : nat) (c : Controller) (leaf : nat)
    (leaf_node : TreeNode) (id : nat) (child : TreeNode) :
  nodes c !! leaf = Some leaf_node ->
  (length (nodes c) <= id)%nat ->
  nodes (_expansion_and_simulation config reward_config env iter c leaf).2
    !! id = Some child ->
  parent child = Some leaf
  /\ exists r,
       r ∈ expansion_results config env iter c leaf_node
       /\ state child = TestStateM.clone_with_new_test (state leaf_node) r
       /\ pruned config
            (RewardFunction.compute reward_config (state leaf_node)
               (state child) r) = false
       /\ current_coverage (state child) = mcdc_coverage r
       /\ ge (current_coverage (state child))
             (current_coverage (state leaf_node))
          = ge (mcdc_coverage r) (current_coverage (state leaf_node)).
Proof.
  intros Hleaf Hid. rewrite (expansion_spec _ _ _ _ _ _ _ Hleaf).
  cbn [snd nodes].
  set (kept := (kept_children config reward_config env iter c leaf_node).1.1).
  replace id with (length (nodes c) + (id - length (nodes c)))%nat by lia.
  rewrite expanded_nodes_new. intros Hchild.
  apply fmap_Some in Hchild as (kid & Hkid & ->).
  split; [reflexivity|].
  apply list_elem_of_lookup_2 in Hkid.
  destruct (kept_children_elem iter c leaf_node kid Hkid)
    as (r & Hr & Hstate & Hreward & Hpruned).
  exists r. cbn [child_node state]. rewrite Hstate.
  repeat split; try assumption.
  rewrite Hreward, Hstate in Hpruned. exact Hpruned.
Qed.


(** C3 (amended): after every expansion of a stored leaf [L] that keeps
    at least one child, backpropagation returns; the [update] calls of
    the iteration are, in order, one per inserted child on that child
    with its own reward, then one on each strict ancestor of [L], from
    [L.parent] up to the root, with the maximum of the kept rewards.
    No ancestor occurs twice and [L] itself is not updated: its
    [visits] and [total_reward] are unchanged, while each ancestor's
    [visits] grows by one and each inserted child has [visits = 1]. *)
Theorem expansion_then_backpropagation (iter : nat) (c : Controller)
    (leaf : nat) (leaf_node : TreeNode) (best : float) :
  wf_parents (parent <$> nodes c) ->
  nodes c !! leaf = Some leaf_node ->
  let expansion :=
    _expansion_and_simulation config reward_config env iter c leaf in
  let rewards := fst expansion in
  max_list rewards = Some best ->
  exists (path : list nat) (c2 : Controller),
    _backpropagation (snd expansion) leaf best = Some c2
    /\ chain (parent <$> nodes c) (parent leaf_node) path
    /\ NoDup path /\ (leaf ∉ path)
    /\ updates c2
       = updates c ++ child_updates (length (nodes c)) rewards
           ++ ((fun a => (a, best)) <$> path)
    /\ (forall a, a ∈ path ->
          nodes c2 !! a = TreeNodeM.updated best <$> nodes c !! a)
    /\ nodes c2 !! leaf
       = Some (adopt (seq (length (nodes c)) (length rewards)) leaf_node)
    /\ (forall i r, rewards !! i = Some r ->
          exists child,
            nodes c2 !! (length (nodes c) + i)%nat = Some child
            /\ parent child = Some leaf
            /\ visits child = 1
            /\ total_reward child = add zero r).
Proof.
  intros Hwf Hleaf expansion rewards Hbest. subst rewards expansion.
  rewrite (expansion_spec _ _ _ _ _ _ _ Hleaf) in *. cbn [fst snd] in *.
  set (kept := (kept_children config reward_config env iter c leaf_node).1.1)
    in *.
  set (sess := (kept_children config reward_config env iter c leaf_node).1.2).
  set (cache := (kept_children config reward_config env iter c leaf_node).2).
  pose proof (lookup_lt_Some _ _ _ Hleaf) as Hlt.
  assert (Hpar : (parent <$> nodes c) !! leaf = Some (parent leaf_node))
    by (now rewrite list_lookup_fmap, Hleaf).
  destruct (ancestors_exist _ _ _ Hwf Hpar) as (path & Hchain & Hbelow & Hnd & Hlen).
  assert (Hnotin : leaf ∉ path).
  { intros Hin. rewrite Forall_forall in Hbelow.
    specialize (Hbelow leaf Hin). lia. }
  set (nodes1 := expanded_nodes (nodes c) leaf leaf_node kept).
  assert (Hleaf1 : nodes1 !! leaf
                   = Some (adopt (seq (length (nodes c)) (length kept)) leaf_node))
    by (now apply expanded_nodes_leaf).
  exists path. eexists. split.
  { unfold _backpropagation. cbn [nodes updates].
    fold nodes1. rewrite Hleaf1. cbn [mbind option_bind adopt parent].
    erewrite (backprop_loop_chain best _ _ path); [reflexivity| |reflexivity|].
    - unfold nodes1. rewrite expanded_nodes_parents. now apply chain_app.
    - unfold nodes1. rewrite expanded_nodes_length. lia. }
  cbn [with_tree nodes updates fst snd].
  split; [exact Hchain|]. split; [exact Hnd|]. split; [exact Hnotin|].
  split; [now rewrite <- app_assoc|].
  split; [|split].
  - intros a Ha. rewrite (updated_along_once _ _ _ Hnd Ha).
    rewrite Forall_forall in Hbelow. specialize (Hbelow a Ha).
    unfold nodes1. rewrite expanded_nodes_old by lia. reflexivity.
  - rewrite (updated_along_other _ _ _ Hnotin), length_fmap. exact Hleaf1.
  - intros i r Hr. rewrite list_lookup_fmap in Hr.
    apply fmap_Some in Hr as (kid & Hkid & ->).
    exists (child_node leaf (depth leaf_node) kid).
    split; [|repeat split].
    rewrite updated_along_other.
    + unfold nodes1. now rewrite expanded_nodes_new, Hkid.
    + intros Hin. rewrite Forall_forall in Hbelow.
      specialize (Hbelow _ Hin). lia.
Qed.

End ExpansionProps.

Section DemoFacts.

Import PyFloat MCTSController.

Lemma demo_search_first : demo_search 1 = Some demo_after_first.
Proof. vm_compute. reflexivity. Qed.

(** C2, as stated, fails: in the second iteration node 1, of coverage
    0.05, is expanded; the executor cannot be reached, the synthetic
    result reports coverage 0.0, its reward -1.6 is not below the prune
    threshold -2.0, and the child is inserted with coverage 0.0. *)
Lemma coverage_monotonicity_counterexample :
  exists (c : Controller) (parent_node child : TreeNode),
    demo_search 2 = Some c
    /\ nodes c !! 1%nat = Some parent_node
    /\ nodes c !! 2%nat = Some child
    /\ children parent_node = [2%nat]
    /\ parent child = Some 1%nat
    /\ current_coverage (state parent_node) = decimal 5 2
    /\ current_coverage (state child) = zero
    /\ ge (current_coverage (state child))
          (current_coverage (state parent_node)) = false.
Proof.
  eexists. eexists. eexists.
  split; [vm_compute; reflexivity|]. vm_compute. repeat split.
Qed.

(** C3, as stated, fails: the expansion of the leaf node 1 in the second
    iteration inserts one child, node 2; the [update] calls of that
    iteration are on node 2 and on the root, none on node 1, whose
    [visits] is 1 before and after. *)
Lemma leaf_update_counterexample :
  exists (c : Controller) (leaf_before leaf_after : TreeNode),
    iteration_body (demo_config 2) RewardFunction.default_config demo_env 1
      demo_after_first = Some (Continue, c)
    /\ nodes demo_after_first !! 1%nat = Some leaf_before
    /\ nodes c !! 1%nat = Some leaf_after
    /\ children leaf_before = []
    /\ children leaf_after = [2%nat]
    /\ updates c
       = updates demo_after_first
           ++ [(2%nat, decimal (-16) 1); (0%nat, decimal (-16) 1)]
    /\ visits leaf_before = 1
    /\ visits leaf_after = 1
    /\ visits leaf_after <> visits leaf_before + 1.
Proof.
  eexists. eexists. eexists.
  split; [vm_compute; reflexivity|]. vm_compute. repeat split. discriminate.
Qed.

Lemma demo_parents_wf : wf_parents (parent <$> nodes demo_after_first).
Proof.
  intros [|[|i]] p H; simpl in H; try discriminate H.
  injection H as <-. lia.
Defined.

Lemma expansion_child_coverage_witness :
  nodes demo_after_first !! 1%nat = Some demo_first_child
  /\ (length (nodes demo_after_first) <= 2)%nat
  /\ nodes (snd (_expansion_and_simulation (demo_config 2)
                   RewardFunction.default_config demo_env 1
                   demo_after_first 1)) !! 2%nat = Some demo_second_child
  /\ parent demo_second_child = Some 1%nat
  /\ exists r,
       state demo_second_child
       = TestStateM.clone_with_new_test (state demo_first_child) r
       /\ current_coverage (state demo_second_child) = mcdc_coverage r.
Proof.
  assert (H1 : nodes demo_after_first !! 1%nat = Some demo_first_child)
    by reflexivity.
  assert (H2 : (length (nodes demo_after_first) <= 2)%nat) by (simpl; lia).
  assert (H3 : nodes (snd (_expansion_and_simulation (demo_config 2)
                             RewardFunction.default_config demo_env 1
                             demo_after_first 1)) !! 2%nat
               = Some demo_second_child) by (vm_compute; reflexivity).
  split; [exact H1|]. split; [exact H2|]. split; [exact H3|].
  destruct (expansion_child_coverage (demo_config 2)
              RewardFunction.default_config demo_env 1 demo_after_first 1
              demo_first_child 2 demo_second_child H1 H2 H3)
    as (Hparent & r & _ & Hstate & _ & Hcov & _).
  split; [exact Hparent|]. exists r. split; assumption.
Defined.

Lemma expansion_then_backpropagation_witness :
  wf_parents (parent <$> nodes demo_after_first)
  /\ nodes demo_after_first !! 1%nat = Some demo_first_child
  /\ max_list (fst (_expansion_and_simulation (demo_config 2)
                      RewardFunction.default_config demo_env 1
                      demo_after_first 1)) = Some (decimal (-16) 1)
  /\ exists (path : list nat) (c2 : Controller),
       _backpropagation
         (snd (_expansion_and_simulation (demo_config 2)
                 RewardFunction.default_config demo_env 1
                 demo_after_first 1)) 1 (decimal (-16) 1) = Some c2
       /\ 1%nat ∉ path.
Proof.
  assert (H1 : nodes demo_after_first !! 1%nat = Some demo_first_child)
    by reflexivity.
  assert (H2 : max_list (fst (_expansion_and_simulation (demo_config 2)
                                RewardFunction.default_config demo_env 1
                                demo_after_first 1))
               = Some (decimal (-16) 1)) by (vm_compute; reflexivity).
  split; [exact demo_parents_wf|]. split; [exact H1|]. split; [exact H2|].
  destruct (expansion_then_backpropagation (demo_config 2)
              RewardFunction.default_config demo_env 1 demo_after_first 1
              demo_first_child (decimal (-16) 1) demo_parents_wf H1 H2)
    as (path & c2 & Hback & _ & _ & Hnotin & _).
  exists path, c2. split; assumption.
Defined.

End DemoFacts.

(** ** The search as a whole *)

Section SearchProps.

Import PyFloat MCTSController.

Variable config : MCTSConfig.t.
Variable reward_config : RewardConfig.
Variable env : Env.

Lemma inv_same_tree (s0 : TestState) (c c' : Controller) :
  nodes c' = nodes c -> root c' = root c -> best_node c' = best_node c ->
  search_inv s0 c -> search_inv s0 c'.
Proof.
  intros Hn Hr Hb [H1 H2 H3 H4 H5].
  constructor; rewrite ?Hn, ?Hr, ?Hb; assumption.
Qed.

Lemma inv_start (session_ctx : SessionContext.t) (cache : gmap string string)
    (initial_state : option TestState) :
  search_inv (default (root_state env session_ctx) initial_state)
    (start env session_ctx cache initial_state).
Proof.
  constructor; cbn [start nodes root best_node].
  - intros [|[|i]] p; simpl; intros H; discriminate H.
  - reflexivity.
  - reflexivity.
  - exists 0%nat. split; [reflexivity|simpl; lia].
  - reflexivity.
Qed.

Lemma inv_update_best (s0 : TestState) (c : Controller) (node : nat) :
  search_inv s0 c -> search_inv s0 (_update_best c node).
Proof.
  intros Hinv. unfold _update_best.
  destruct (best_node c) as [b|] eqn:Hb.
  - destruct (nodes c !! node) as [n|] eqn:Hn; [|exact Hinv].
    destruct (nodes c !! b) as [bn|]; [|exact Hinv].
    destruct (better n bn); [|exact Hinv].
    pose proof (lookup_lt_Some _ _ _ Hn) as Hlt.
    destruct Hinv as [H1 H2 H3 H4 H5].
    constructor; cbn [with_best nodes root best_node]; try assumption.
    + exists node. split; [reflexivity|exact Hlt].
    + intros Hone. f_equal. lia.
  - destruct Hinv as [_ _ _ (b & Hb' & _) _]. congruence.
Qed.

Lemma update_best_nodes (c : Controller) (node : nat) :
  nodes (_update_best c node) = nodes c.
Proof.
  unfold _update_best.
  destruct (best_node c); [|reflexivity].
  destruct (nodes c !! node); [|reflexivity].
  destruct (nodes c !! _); [|reflexivity].
  destruct (better _ _); reflexivity.
Qed.

Lemma inv_update_best_all (s0 : TestState) (ids : list nat) :
  forall c, search_inv s0 c -> search_inv s0 (fold_left _update_best ids c).
Proof.
  induction ids as [|i ids IH]; intros c Hinv; [exact Hinv|].
  simpl. apply IH. now apply inv_update_best.
Qed.

Lemma update_best_all_nodes (ids : list nat) :
  forall c, nodes (fold_left _update_best ids c) = nodes c.
Proof.
  induction ids as [|i ids IH]; intros c; [reflexivity|].
  simpl. rewrite IH. apply update_best_nodes.
Qed.

Lemma wf_parents_grow (ps : list (option nat)) (leaf k : nat) :
  wf_parents ps -> (leaf < length ps)%nat ->
  wf_parents (ps ++ replicate k (Some leaf)).
Proof.
  intros Hwf Hleaf i p Hi.
  destruct (decide (i < length ps)%nat) as [Hlt|Hge].
  - rewrite lookup_app_l in Hi by exact Hlt. now apply Hwf.
  - rewrite lookup_app_r in Hi by lia.
    apply lookup_replicate in Hi as [Heq _]. injection Heq as <-. lia.
Qed.

Lemma inv_expansion (s0 : TestState) (iter : nat) (c : Controller)
    (leaf : nat) :
  is_Some (nodes c !! leaf) -> search_inv s0 c ->
  search_inv s0
    (snd (_expansion_and_simulation config reward_config env iter c leaf)).
Proof.
  intros [leaf_node Hleaf] [H1 H2 H3 (b & Hb & Hblt) H5].
  pose proof (lookup_lt_Some _ _ _ Hleaf) as Hlt.
  rewrite (expansion_spec _ _ _ _ _ _ _ Hleaf). cbn [snd].
  constructor; cbn [nodes root best_node].
  - rewrite expanded_nodes_parents. apply wf_parents_grow; [exact H1|].
    now rewrite length_fmap.
  - exact H2.
  - rewrite <- list_lookup_fmap, expanded_nodes_states.
    rewrite lookup_app_l by (rewrite length_fmap; lia).
    now rewrite list_lookup_fmap.
  - exists b. split; [exact Hb|]. rewrite expanded_nodes_length. lia.
  - rewrite expanded_nodes_length. intros Hone. apply H5. lia.
Qed.

Lemma inv_backpropagation (s0 : TestState) (c : Controller) (leaf : nat)
    (reward : float) :
  is_Some (nodes c !! leaf) -> search_inv s0 c ->
  exists c', _backpropagation c leaf reward = Some c'
             /\ search_inv s0 c' /\ length (nodes c') = length (nodes c).
Proof.
  intros [leaf_node Hleaf] [H1 H2 H3 (b & Hb & Hblt) H5].
  pose proof (lookup_lt_Some _ _ _ Hleaf) as Hlt.
  assert (Hpar : (parent <$> nodes c) !! leaf = Some (parent leaf_node))
    by (now rewrite list_lookup_fmap, Hleaf).
  destruct (ancestors_exist _ _ _ H1 Hpar) as (path & Hchain & _ & _ & Hlen).
  unfold _backpropagation. rewrite Hleaf. cbn [mbind option_bind].
  rewrite (backprop_loop_chain reward _ _ path Hchain _ _ _ eq_refl)
    by lia.
  eexists. split; [reflexivity|].
  split; [|cbn [with_tree fst snd nodes]; apply updated_along_length].
  constructor; cbn [with_tree fst snd nodes root best_node].
  - now rewrite updated_along_parents.
  - exact H2.
  - now rewrite <- list_lookup_fmap, updated_along_states, list_lookup_fmap.
  - exists b. split; [exact Hb|]. now rewrite updated_along_length.
  - rewrite updated_along_length. exact H5.
Qed.

Lemma selection_loop_stored (nodes : list TreeNode) (remaining : nat) :
  forall current leaf,
    selection_loop config env nodes current remaining = Some leaf ->
    is_Some (nodes !! leaf).
Proof.
  induction remaining as [|remaining IH]; intros current leaf; simpl;
    [discriminate|].
  destruct (nodes !! current) as [n|] eqn:Hn; [|discriminate].
  destruct (TreeNodeM.is_terminal n); [intros [= <-]; eauto|].
  destruct (negb (TreeNodeM.is_fully_expanded n)); [intros [= <-]; eauto|].
  destruct (TreeNodeM.best_child _ _ _ _) as [child|];
    [apply IH|intros [= <-]; eauto].
Qed.

(** One turn of the main loop returns and keeps the invariant. *)
Lemma iteration_body_inv (s0 : TestState) (iteration : nat) (c : Controller) :
  search_inv s0 c ->
  exists fl c',
    iteration_body config reward_config env iteration c = Some (fl, c')
    /\ search_inv s0 c'.
Proof.
  intros Hinv. unfold iteration_body.
  set (c0 := with_iterations c (Z.of_nat iteration + 1)).
  assert (Hinv0 : search_inv s0 c0)
    by (apply (inv_same_tree s0 c c0); [reflexivity..|exact Hinv]).
  destruct (_should_terminate config c0); [eauto|].
  destruct (root c0 ≫= _) as [leaf|] eqn:Hsel; [|eauto].
  assert (Hstored : is_Some (nodes c0 !! leaf)).
  { destruct (root c0) as [r|]; [|discriminate].
    simpl in Hsel. unfold _selection in Hsel.
    eapply selection_loop_stored; eassumption. }
  destruct (default false _).
  { eexists _, _. split; [reflexivity|]. now apply inv_update_best. }
  pose proof (inv_expansion s0 iteration c0 leaf Hstored Hinv0) as Hinv1.
  assert (Hstored1 :
    is_Some (nodes (snd (_expansion_and_simulation config reward_config env
                           iteration c0 leaf)) !! leaf)).
  { destruct Hstored as [leaf_node Hleaf].
    rewrite (expansion_spec _ _ _ _ _ _ _ Hleaf). cbn [snd nodes].
    rewrite (expanded_nodes_leaf _ _ _ _ Hleaf). eauto. }
  destruct (_expansion_and_simulation config reward_config env iteration c0
              leaf) as [rewards c1].
  cbn [snd] in *.
  destruct (max_list rewards) as [best_reward|]; [|eauto].
  destruct (inv_backpropagation s0 c1 leaf best_reward Hstored1 Hinv1)
    as (c2 & Hback & Hinv2 & _).
  rewrite Hback. cbn [mbind option_bind].
  assert (Hinv3 : search_inv s0 (_update_best_from_children c2 leaf))
    by (apply inv_update_best_all; exact Hinv2).
  destruct (gt _ _); eexists _, _; (split; [reflexivity|]);
    (eapply inv_same_tree; [| | |exact Hinv3]); reflexivity.
Qed.

Lemma search_loop_inv (s0 : TestState) (remaining : nat) :
  forall (iteration : nat) (c : Controller),
    search_inv s0 c ->
    exists c', search_loop config reward_config env iteration remaining c
               = Some c' /\ search_inv s0 c'.
Proof.
  induction remaining as [|remaining IH]; intros iteration c Hinv; simpl.
  - eauto.
  - destruct (iteration_body_inv s0 iteration c Hinv) as (fl & c' & -> & Hinv').
    destruct fl; [eauto|]. now apply IH.
Qed.


Lemma kept_children_llm_down (iter : nat) (c : Controller)
    (leaf_node : TreeNode) :
  llm_down env ->
  fst (fst (kept_children config reward_config env iter c leaf_node)) = [].
Proof.
  intros Hdown. unfold kept_children, _generate_candidates.
  destruct (render_prompt _ _ _ _ _) as [prompt|]; [|reflexivity].
  unfold llm_call.
  destruct (Hdown iter prompt
              (_adaptive_temperature (current_coverage (state leaf_node))))
    as [e ->].
  reflexivity.
Qed.

Lemma expansion_llm_down (iter : nat) (c : Controller) (leaf : nat) :
  llm_down env ->
  let expansion :=
    _expansion_and_simulation config reward_config env iter c leaf in
  fst expansion = [] /\ length (nodes (snd expansion)) = length (nodes c).
Proof.
  intros Hdown. cbv zeta.
  destruct (nodes c !! leaf) as [leaf_node|] eqn:Hleaf.
  - rewrite (expansion_spec _ _ _ _ _ _ _ Hleaf). cbn [fst snd nodes].
    rewrite expanded_nodes_length, (kept_children_llm_down _ _ _ Hdown).
    split; [reflexivity|simpl; lia].
  - unfold _expansion_and_simulation. rewrite Hleaf. now split.
Qed.

Lemma iteration_body_llm_down (iteration : nat) (c c' : Controller)
    (fl : flow) :
  llm_down env ->
  iteration_body config reward_config env iteration c = Some (fl, c') ->
  length (nodes c') = length (nodes c).
Proof.
  intros Hdown. unfold iteration_body.
  set (c0 := with_iterations c (Z.of_nat iteration + 1)).
  destruct (_should_terminate config c0); [now intros [= _ <-]|].
  destruct (root c0 ≫= _) as [leaf|]; [|now intros [= _ <-]].
  destruct (default false _).
  { intros [= _ <-]. now rewrite update_best_nodes. }
  destruct (expansion_llm_down iteration c0 leaf Hdown) as [Hnone Hlen].
  destruct (_expansion_and_simulation config reward_config env iteration c0
              leaf) as [rewards c1].
  cbn [fst snd] in *. subst rewards. cbn [max_list].
  intros [= _ <-]. exact Hlen.
Qed.

Lemma search_loop_llm_down (remaining : nat) :
  llm_down env ->
  forall (iteration : nat) (c c' : Controller),
    search_loop config reward_config env iteration remaining c = Some c' ->
    length (nodes c') = length (nodes c).
Proof.
  intros Hdown.
  induction remaining as [|remaining IH]; intros iteration c c'; simpl.
  - now intros [= <-].
  - destruct (iteration_body config reward_config env iteration c)
      as [[fl c1]|] eqn:Hbody; [|discriminate].
    pose proof (iteration_body_llm_down _ _ _ _ Hdown Hbody) as Hlen.
    destruct fl.
    + intros [= <-]. exact Hlen.
    + intros H. rewrite (IH _ _ _ H). exact Hlen.
Qed.

(** C10: every search returns, with [best_node] a node of the tree.
    When no expansion has inserted a child (the tree is the root alone,
    as happens when every call of the language model fails), the node
    returned is the root, with the state the search started from; built
    by [search] itself, that state has an empty suite and coverage
    0.0. *)
Theorem search_returns_best_node (session_ctx : SessionContext.t)
    (cache : gmap string string) (initial_state : option TestState) :
  exists (c : Controller) (b : nat) (best : TreeNode),
    search config reward_config env session_ctx cache initial_state = Some c
    /\ best_node c = Some b
    /\ nodes c !! b = Some best
    /\ (length (nodes c) = 1%nat ->
        b = 0%nat
        /\ state best = default (root_state env session_ctx) initial_state
        /\ (initial_state = None ->
            test_case_names (state best) = []
            /\ current_coverage (state best) = zero))
    /\ (llm_down env -> length (nodes c) = 1%nat).
Proof.
  destruct (search_loop_inv _ (Z.to_nat (MCTSConfig.max_iterations config))
              0 _ (inv_start session_ctx cache initial_state))
    as (c & Hsearch & [_ _ Hstate (b & Hb & Hlt) Halone]).
  destruct (lookup_lt_is_Some_2 _ _ Hlt) as [best Hbest].
  exists c, b, best. unfold search.
  split; [exact Hsearch|]. split; [exact Hb|]. split; [exact Hbest|]. split.
  - intros Hone. rewrite (Halone Hone) in Hb. injection Hb as <-.
    rewrite Hbest in Hstate. injection Hstate as Hstate.
    split; [reflexivity|]. split; [exact Hstate|].
    intros ->. rewrite Hstate. split; reflexivity.
  - intros Hdown.
    now rewrite (search_loop_llm_down _ Hdown _ _ _ Hsearch).
Qed.

End SearchProps.

Section SearchDemo.

Import PyFloat MCTSController.

Lemma silent_env_down : llm_down silent_env.
Proof. intros iter prompt temperature. eexists. reflexivity. Defined.

Lemma search_returns_best_node_witness :
  llm_down silent_env
  /\ exists c : Controller,
       search MCTSConfig.default RewardFunction.default_config silent_env
         fresh_session ∅ None = Some c
       /\ best_node c = Some 0%nat.
Proof.
  split; [exact silent_env_down|].
  destruct (search_returns_best_node MCTSConfig.default
              RewardFunction.default_config silent_env fresh_session ∅ None)
    as (c & b & best & Hsearch & Hb & _ & Halone & Hdown).
  exists c. split; [exact Hsearch|].
  rewrite Hb. f_equal. exact (proj1 (Halone (Hdown silent_env_down))).
Defined.

End SearchDemo.

(* ===================================================================== *)
(** * Further properties of the code *)
(* ===================================================================== *)

(** ** States *)

Section States.

Import PyFloat.

Lemma filter_sublist {A : Type} (f : A -> bool) (l : list A) :
  List.filter f l `sublist_of` l.
Proof.
  induction l as [|x l IH]; simpl; [constructor|].
  destruct (f x); [now apply sublist_skip|now apply sublist_cons].
Qed.

(** X1: the uncovered conditions of a child state are those of the
    parent that are equal to none of the conditions the result reports
    as covered, in the parent's order; so they form a sublist of the
    parent's and there are never more of them. *)
Theorem clone_uncovered_shrinks (self : TestState) (r : ExecutionResult) :
  let child := TestStateM.clone_with_new_test self r in
  uncovered_conditions child `sublist_of` uncovered_conditions self
  /\ (length (uncovered_conditions child)
      <= length (uncovered_conditions self))%nat
  /\ (forall c, In c (uncovered_conditions child)
                <-> In c (uncovered_conditions self)
                    /\ ConditionInfoM.mem c (conditions_covered r) = false)
  /\ (conditions_covered r = [] ->
      uncovered_conditions child = uncovered_conditions self).
Proof.
  cbn [TestStateM.clone_with_new_test uncovered_conditions].
  split; [apply filter_sublist|].
  split; [apply sublist_length, filter_sublist|].
  split.
  - intros c. rewrite filter_In, negb_true_iff. reflexivity.
  - intros ->. induction (uncovered_conditions self) as [|c l IH];
      [reflexivity|].
    cbn [List.filter]. change (ConditionInfoM.mem c []) with false.
    cbn [negb]. f_equal. exact IH.
Qed.

Lemma clone_uncovered_shrinks_witness :
  conditions_covered (ExecutionResultM.make "t" true None []) = []
  /\ uncovered_conditions
       (TestStateM.clone_with_new_test state_before
          (ExecutionResultM.make "t" true None []))
     = uncovered_conditions state_before.
Proof.
  split; [reflexivity|].
  apply (clone_uncovered_shrinks state_before
           (ExecutionResultM.make "t" true None [])).
  reflexivity.
Defined.

(** X2: a child state keeps the signature, path, context and target
    of its parent and an equal list of learned rules; its error log is
    the parent's, followed by the message of the result exactly when the
    result failed with a non-empty message. *)
Theorem clone_keeps_context (self : TestState) (r : ExecutionResult) :
  let child := TestStateM.clone_with_new_test self r in
  function_signature child = function_signature self
  /\ function_path child = function_path self
  /\ context child = context self
  /\ coverage_target child = coverage_target self
  /\ learned_rules child = learned_rules self
  /\ execution_errors self `prefix_of` execution_errors child
  /\ (forall msg, error_message r = Some msg -> msg <> ""%string ->
        execution_errors child = execution_errors self ++ [msg])
  /\ (error_message r = None \/ error_message r = Some ""%string ->
        execution_errors child = execution_errors self).
Proof.
  cbn [TestStateM.clone_with_new_test function_signature function_path
         context coverage_target learned_rules execution_errors].
  repeat (split; [reflexivity|]).
  unfold ExecutionResultM.failed, TestStateM.truthy.
  destruct (error_message r) as [msg|] eqn:Hmsg.
  - destruct (String.eqb_spec msg "") as [->|Hne].
    + rewrite andb_false_r. split; [reflexivity|].
      split; [intros m [= <-] Hm; now destruct Hm|reflexivity].
    + assert (Hfailed : negb (new_test_compiled r)
                        || bool_decide (is_Some (Some msg)) = true).
      { rewrite orb_true_iff. right. apply bool_decide_eq_true. eauto. }
      rewrite Hfailed. cbn [andb negb default from_option].
      split; [now exists [msg]|].
      split; [now intros m [= <-] _|].
      intros [H|H]; [discriminate H|injection H as ->; now destruct Hne].
  - rewrite andb_false_r. split; [reflexivity|].
    split; [intros m H; discriminate H|reflexivity].
Qed.

Lemma clone_keeps_context_witness :
  error_message unreachable_result
  = Some "HTTP error: connection refused"%string
  /\ execution_errors
       (TestStateM.clone_with_new_test state_before unreachable_result)
     = execution_errors state_before
         ++ ["HTTP error: connection refused"%string].
Proof.
  split; [reflexivity|].
  apply (clone_keeps_context state_before unreachable_result);
    [reflexivity|discriminate].
Defined.

Lemma existsb_eqb_elem (rule : string) (rules : list string) :
  existsb (String.eqb rule) rules = true <-> rule ∈ rules.
Proof.
  rewrite existsb_exists, list_elem_of_In. split.
  - intros (x & Hx & Heq). apply String.eqb_eq in Heq. now subst.
  - intros H. exists rule. split; [exact H|apply String.eqb_refl].
Qed.

(** X3: adding a learned rule to a state never creates a duplicate and
    never adds the empty rule; a non-empty rule is among the rules
    afterwards, adding it a second time changes nothing, and the rules
    already there keep their places. *)
Theorem state_add_learned_rule (self : TestState) (rule : string) :
  let s := TestStateM.add_learned_rule self rule in
  (NoDup (learned_rules self) -> NoDup (learned_rules s))
  /\ TestStateM.add_learned_rule self "" = self
  /\ (rule <> ""%string -> rule ∈ learned_rules s)
  /\ TestStateM.add_learned_rule s rule = s
  /\ learned_rules self `prefix_of` learned_rules s
  /\ ("" ∈ learned_rules s -> "" ∈ learned_rules self).
Proof.
  cbv zeta. unfold TestStateM.add_learned_rule.
  destruct (String.eqb_spec rule "") as [->|Hne]; cbn [negb andb].
  { repeat split; try tauto. reflexivity. }
  destruct (existsb (String.eqb rule) (learned_rules self)) eqn:Hin;
    cbn [negb learned_rules].
  - apply existsb_eqb_elem in Hin as Hel.
    destruct (String.eqb_spec rule "") as [->|_]; [now destruct Hne|].
    rewrite Hin. cbn [negb andb].
    repeat split; try tauto. reflexivity.
  - assert (Hnot : rule ∉ learned_rules self).
    { intros H. apply existsb_eqb_elem in H. congruence. }
    assert (Hnow : existsb (String.eqb rule) (learned_rules self ++ [rule])
                   = true).
    { apply existsb_eqb_elem. apply elem_of_app. right.
      now apply list_elem_of_singleton. }
    destruct (String.eqb_spec rule "") as [->|_]; [now destruct Hne|].
    rewrite Hnow. cbn [negb andb].
    split; [|split; [reflexivity|split; [|split; [reflexivity|split]]]].
    + intros Hnd. apply NoDup_app. split; [exact Hnd|].
      split; [|apply NoDup_singleton].
      intros x Hx Hx'. apply list_elem_of_singleton in Hx'. now subst.
    + intros _. apply elem_of_app. right. now apply list_elem_of_singleton.
    + now exists [rule].
    + intros H. apply elem_of_app in H as [H|H]; [exact H|].
      apply list_elem_of_singleton in H. now destruct Hne.
Qed.

Lemma state_add_learned_rule_witness :
  NoDup (learned_rules state_before)
  /\ NoDup (learned_rules
              (TestStateM.add_learned_rule state_before "x is positive")).
Proof.
  assert (H : NoDup (learned_rules state_before)) by apply NoDup_nil_2.
  split; [exact H|].
  exact (proj1 (state_add_learned_rule state_before "x is positive") H).
Defined.

Lemma one_is_number :
  is_nan (decimal 10 1) = false /\ gt (decimal 10 1) (decimal 10 1) = false
  /\ gt zero (decimal 10 1) = false.
Proof. vm_compute. repeat split. Qed.

(** The smaller of a value and 1.0 is never greater than 1.0. *)
Lemma min_one_bounded (q : float) :
  gt (min2 q (decimal 10 1)) (decimal 10 1) = false.
Proof.
  destruct one_is_number as (_ & H11 & _).
  unfold min2. destruct (lt (decimal 10 1) q) eqn:Hq; [exact H11|exact Hq].
Qed.

(** X4: [coverage_progress] raises [ZeroDivisionError] exactly when the
    coverage target is zero, and otherwise returns a value that is never
    greater than 1.0. *)
Theorem coverage_progress_bounded (self : TestState) :
  (TestStateM.coverage_progress self = None
   <-> eqb (coverage_target self) zero = true)
  /\ (forall p, TestStateM.coverage_progress self = Some p ->
        gt p (decimal 10 1) = false).
Proof.
  unfold TestStateM.coverage_progress.
  destruct (eqb (coverage_target self) zero); split.
  - tauto.
  - intros p H. discriminate H.
  - split; intros H; discriminate H.
  - intros p [= <-]. apply min_one_bounded.
Qed.

Lemma coverage_progress_bounded_witness :
  TestStateM.coverage_progress state_after = Some (decimal 10 1)
  /\ gt (decimal 10 1) (decimal 10 1) = false.
Proof.
  assert (H : TestStateM.coverage_progress state_after = Some (decimal 10 1))
    by (vm_compute; reflexivity).
  split; [exact H|].
  exact (proj2 (coverage_progress_bounded state_after) _ H).
Defined.

(** A state whose target is 0.0, which a request may ask for. *)
Example coverage_progress_zero_target :
  TestStateM.coverage_progress (state (node_at (decimal 5 1) zero)) = None.
Proof. reflexivity. Qed.

End States.

(** ** Normalised rewards and the token budget *)

Section RewardBudget.

Import PyFloat RewardFunction.

(** X5: [normalize_reward] is 0.0 when the maximum seen is not
    positive, and is never greater than 1.0 whatever the reward and the
    maximum, NaN included. *)
Theorem normalize_reward_at_most_one (reward max_seen : float) :
  gt (normalize_reward reward max_seen) (decimal 10 1) = false
  /\ (le max_seen zero = true -> normalize_reward reward max_seen = zero).
Proof.
  destruct one_is_number as (_ & _ & H01).
  unfold normalize_reward. destruct (le max_seen zero); split.
  - exact H01.
  - reflexivity.
  - apply min_one_bounded.
  - intros H. discriminate H.
Qed.

Lemma normalize_reward_at_most_one_witness :
  le (decimal (-10) 1) zero = true
  /\ normalize_reward (decimal 150 1) (decimal (-10) 1) = zero.
Proof.
  assert (H : le (decimal (-10) 1) zero = true) by (vm_compute; reflexivity).
  split; [exact H|].
  exact (proj2 (normalize_reward_at_most_one (decimal 150 1) (decimal (-10) 1))
           H).
Defined.

(** The normalised value of a negative reward is negative: the range is
    not [0, 1]. *)
Example normalize_reward_negative :
  lt (normalize_reward (decimal (-50) 1) (decimal 150 1)) zero = true.
Proof. vm_compute. reflexivity. Qed.

(** X6: the token budget of a session is exceeded exactly when no
    token remains; the remaining tokens are never negative, and a usage
    of [p] prompt and [c] completion tokens raises the total by
    [p + c]. *)
Theorem session_budget (s : SessionContext.t) (p c : Z) :
  (SessionContext.budget_exceeded s = true
   <-> SessionContext.tokens_remaining s = 0)
  /\ 0 <= SessionContext.tokens_remaining s
  /\ SessionContext.total_tokens (SessionContext.add_token_usage s p c)
     = SessionContext.total_tokens s + p + c
  /\ (0 <= p + c ->
      SessionContext.tokens_remaining (SessionContext.add_token_usage s p c)
      <= SessionContext.tokens_remaining s).
Proof.
  unfold SessionContext.budget_exceeded, SessionContext.tokens_remaining,
    SessionContext.total_tokens, SessionContext.add_token_usage.
  cbn [SessionContext.max_tokens SessionContext.total_prompt_tokens
         SessionContext.total_completion_tokens].
  rewrite Z.leb_le. repeat split; lia.
Qed.

Lemma session_budget_witness :
  0 <= 600 + 500
  /\ SessionContext.tokens_remaining
       (SessionContext.add_token_usage fresh_session 600 500)
     <= SessionContext.tokens_remaining fresh_session.
Proof.
  split; [lia|].
  apply (session_budget fresh_session 600 500). lia.
Defined.

End RewardBudget.

(** ** Answers of the backend and the cache of the engine *)

Section EngineAnswers.

Import ExecutionEngine.

(** X7: a parsed answer counts as compiled exactly when its status is
    "success"; it then carries no error message and has not failed.
    Every condition it reports as covered is one of [allConditions] and
    equal to none of [uncoveredConditions], and its suite is the one
    handed to the parser. *)
Theorem parse_java_response_sound (response : JavaResponse)
    (new_name : option string) (suite_names : list string) :
  let r := _parse_java_response response new_name suite_names in
  (new_test_compiled r = true <-> jr_status response = Some "success"%string)
  /\ (new_test_compiled r = true ->
      error_message r = None /\ ExecutionResultM.failed r = false)
  /\ (forall c, In c (conditions_covered r) ->
        In c (jr_all response)
        /\ ConditionInfoM.mem c (jr_uncovered response) = false)
  /\ suite_test_names r = suite_names.
Proof.
  cbn [_parse_java_response new_test_compiled error_message
         conditions_covered suite_test_names].
  split; [|split; [|split; [|reflexivity]]].
  - rewrite String.eqb_eq. destruct (jr_status response) as [s|]; simpl.
    + split; intros H; [rewrite H|injection H as H; exact H]; reflexivity.
    + split; intros H; discriminate H.
  - unfold ExecutionResultM.failed.
    cbn [_parse_java_response new_test_compiled error_message]. intros ->.
    split; [reflexivity|]. cbn [negb orb].
    apply bool_decide_eq_false_2. intros [x Hx]. discriminate Hx.
  - intros c. destruct (jr_all response) as [|a rest] eqn:Hall;
      [intros []|].
    rewrite filter_In, negb_true_iff. tauto.
Qed.

Lemma parse_java_response_sound_witness :
  new_test_compiled (_parse_java_response (success_body 5) None []) = true
  /\ error_message (_parse_java_response (success_body 5) None []) = None.
Proof.
  assert (H : new_test_compiled (_parse_java_response (success_body 5) None [])
              = true) by reflexivity.
  split; [exact H|].
  exact (proj1 (proj1 (proj2 (parse_java_response_sound (success_body 5) None []))
                  H)).
Defined.

Lemma name_in_snoc (name : string) (names : list string) :
  name_in name (names ++ [name]) = true.
Proof.
  unfold name_in. rewrite existsb_app. simpl.
  now rewrite String.eqb_refl, orb_true_r.
Qed.

Lemma get_suite_coverage_names (outcome : http_outcome) (path : string)
    (names : list string) :
  suite_test_names (get_suite_coverage outcome path names) = names.
Proof. destruct outcome; reflexivity. Qed.

(** X8: once a test body has been executed with the answer "success",
    its fingerprint is cached under the test's name and the suite gains
    that name; executing the same body again on that suite, under any
    name and whatever the request comes to, only asks for the coverage
    of the suite: no name is added and the cache stays as it is.
    [clear_cache] forgets the body. *)
Theorem execute_cache_round_trip (sha : string -> string)
    (test_cache : gmap string string) (body : JavaResponse)
    (path code name : string) (existing : list string) :
  test_cache !! sha code = None ->
  jr_status body = Some "success"%string ->
  let first := execute_new_test sha test_cache (HttpOk body) path code name
                 existing in
  snd first !! sha code = Some name
  /\ new_test_compiled (fst first) = true
  /\ suite_test_names (fst first) = existing ++ [name]
  /\ (forall (outcome : http_outcome) (other_name : string),
        let second := execute_new_test sha (snd first) outcome path code
                        other_name (suite_test_names (fst first)) in
        fst second = get_suite_coverage outcome path (existing ++ [name])
        /\ suite_test_names (fst second) = existing ++ [name]
        /\ snd second = snd first)
  /\ clear_cache (snd first) !! sha code = None.
Proof.
  intros Hfresh Hok first.
  assert (Hfirst :
    first = (_parse_java_response body (Some name) (existing ++ [name]),
             <[sha code := name]> test_cache)).
  { subst first. unfold execute_new_test. rewrite Hfresh.
    now rewrite (bool_decide_eq_true_2 _ Hok). }
  rewrite Hfirst. cbn [fst snd].
  split; [apply lookup_insert_eq|].
  split; [cbn [_parse_java_response new_test_compiled]; now rewrite Hok|].
  split; [reflexivity|]. split; [|reflexivity].
  intros outcome other_name. cbv zeta.
  cbn [_parse_java_response suite_test_names].
  unfold execute_new_test. rewrite lookup_insert_eq.
  rewrite name_in_snoc. cbn [negb fst snd].
  rewrite get_suite_coverage_names. repeat split.
Qed.

Lemma execute_cache_round_trip_witness :
  (∅ : gmap string string) !! "a"%string = None
  /\ jr_status (success_body 5) = Some "success"%string
  /\ snd (execute_new_test (fun code => code) ∅ (HttpOk (success_body 5))
            "src/f.cpp::f" "a" "test_001" []) !! "a"%string
     = Some "test_001"%string.
Proof.
  assert (H1 : (∅ : gmap string string) !! "a"%string = None) by reflexivity.
  assert (H2 : jr_status (success_body 5) = Some "success"%string)
    by reflexivity.
  split; [exact H1|]. split; [exact H2|].
  exact (proj1 (execute_cache_round_trip (fun code => code) ∅ (success_body 5)
                  "src/f.cpp::f" "a" "test_001" [] H1 H2)).
Defined.

(** X9: when the backend answers an execution with a status other than
    "success", the result is not compiled and the body is not cached, so
    a later execution of the same body sends a new request; the name of
    the test is appended to the suite of the result all the same. *)
Theorem execute_rejected_test (sha : string -> string)
    (test_cache : gmap string string) (body : JavaResponse)
    (path code name : string) (existing : list string) :
  test_cache !! sha code = None ->
  jr_status body <> Some "success"%string ->
  let out := execute_new_test sha test_cache (HttpOk body) path code name
               existing in
  new_test_compiled (fst out) = false
  /\ suite_test_names (fst out) = existing ++ [name]
  /\ new_test_name (fst out) = name
  /\ snd out = test_cache
  /\ (forall parent : TestState,
        test_case_names (TestStateM.clone_with_new_test parent (fst out))
        = existing ++ [name]).
Proof.
  intros Hfresh Hbad out.
  assert (Hout :
    out = (_parse_java_response body (Some name) (existing ++ [name]),
           test_cache)).
  { subst out. unfold execute_new_test. rewrite Hfresh.
    now rewrite (bool_decide_eq_false_2 _ Hbad). }
  rewrite Hout. cbn [fst snd].
  split; [|split; [reflexivity|split; [reflexivity|split; [reflexivity|]]]];
    [|intros parent; reflexivity].
  cbn [_parse_java_response new_test_compiled].
  apply not_true_is_false. intros H. apply Hbad.
  apply String.eqb_eq in H. destruct (jr_status body) as [s|]; simpl in H.
  - now rewrite H.
  - discriminate H.
Qed.

Lemma execute_rejected_test_witness :
  (∅ : gmap string string) !! "a"%string = None
  /\ jr_status (mkJavaResponse (Some "failed"%string) (LogText "syntax error")
                  PyFloat.zero PyFloat.zero PyFloat.zero [] [])
     <> Some "success"%string
  /\ suite_test_names
       (fst (execute_new_test (fun code => code) ∅
               (HttpOk (mkJavaResponse (Some "failed"%string)
                          (LogText "syntax error") PyFloat.zero PyFloat.zero
                          PyFloat.zero [] []))
               "src/f.cpp::f" "a" "test_002" ["test_001"%string]))
     = ["test_001"%string; "test_002"%string].
Proof.
  assert (H1 : (∅ : gmap string string) !! "a"%string = None) by reflexivity.
  assert (H2 : jr_status (mkJavaResponse (Some "failed"%string)
                            (LogText "syntax error") PyFloat.zero PyFloat.zero
                            PyFloat.zero [] [])
               <> Some "success"%string) by discriminate.
  split; [exact H1|]. split; [exact H2|].
  exact (proj1 (proj2 (execute_rejected_test (fun code => code) ∅ _
                         "src/f.cpp::f" "a" "test_002" ["test_001"%string]
                         H1 H2))).
Defined.

End EngineAnswers.

(** ** The attempts of the language-model client *)

Section Attempts.

Import DeepSeekClient.

(** X10: [generate] returns the content of the first of its three
    requests that is answered with status 200 and a well-formed body,
    having slept 1 s, 2 s, ... after the failed requests before it and
    sent no request after it; when none of the three is answered so, it
    raises after three requests. *)
Theorem generate_first_success (outcomes : nat -> llm_attempt) :
  (forall (n : nat) (c : string),
     (n < 3)%nat ->
     llm_content (outcomes n) = Some c ->
     (forall m, (m < n)%nat -> llm_content (outcomes m) = None) ->
     generate outcomes
     = mkGenRun (Generated c) ((fun i => 2 ^ Z.of_nat i) <$> seq 0 n) (S n))
  /\ ((forall m, (m < 3)%nat -> llm_content (outcomes m) = None) ->
      exists e, gen_outcome (generate outcomes) = GenRaised e
                /\ gen_attempts (generate outcomes) = 3%nat).
Proof.
  unfold generate, generate_from, max_retries, llm_content. split.
  - intros n c Hn Hc Hbefore.
    assert (H0 := Hbefore 0%nat). assert (H1 := Hbefore 1%nat).
    destruct n as [|[|[|n]]]; [| | |lia].
    + destruct (outcomes 0%nat) as [s0 [c0|]| |m0]; try discriminate Hc.
      destruct (s0 =? 200); [|discriminate Hc]. now injection Hc as ->.
    + specialize (H0 ltac:(lia)).
      destruct (outcomes 1%nat) as [s1 [c1|]| |m1]; try discriminate Hc.
      destruct (s1 =? 200); [|discriminate Hc]. injection Hc as ->.
      destruct (outcomes 0%nat) as [s0 [c0|]| |m0]; cbn;
        try destruct (s0 =? 200); try discriminate H0;
        try destruct (s0 =? 429); reflexivity.
    + specialize (H0 ltac:(lia)). specialize (H1 ltac:(lia)).
      destruct (outcomes 2%nat) as [s2 [c2|]| |m2]; try discriminate Hc.
      destruct (s2 =? 200); [|discriminate Hc]. injection Hc as ->.
      destruct (outcomes 0%nat) as [s0 [c0|]| |m0]; cbn;
        try destruct (s0 =? 200); try discriminate H0;
        try destruct (s0 =? 429);
        destruct (outcomes 1%nat) as [s1 [c1|]| |m1]; cbn;
        try destruct (s1 =? 200); try discriminate H1;
        try destruct (s1 =? 429); reflexivity.
  - intros Hnone.
    assert (H0 := Hnone 0%nat ltac:(lia)).
    assert (H1 := Hnone 1%nat ltac:(lia)).
    assert (H2 := Hnone 2%nat ltac:(lia)).
    destruct (outcomes 0%nat) as [s0 [c0|]| |m0]; cbn;
      try destruct (s0 =? 200); try discriminate H0;
      try destruct (s0 =? 429);
      destruct (outcomes 1%nat) as [s1 [c1|]| |m1]; cbn;
      try destruct (s1 =? 200); try discriminate H1;
      try destruct (s1 =? 429);
      destruct (outcomes 2%nat) as [s2 [c2|]| |m2]; cbn;
      try destruct (s2 =? 200); try discriminate H2;
      try destruct (s2 =? 429); eexists; split; reflexivity.
Qed.

Lemma generate_first_success_witness :
  (1 < 3)%nat
  /\ llm_content (rate_limited_once 1%nat) = Some "ok"%string
  /\ (forall m, (m < 1)%nat -> llm_content (rate_limited_once m) = None)
  /\ generate rate_limited_once = mkGenRun (Generated "ok") [1] 2.
Proof.
  assert (H1 : (1 < 3)%nat) by lia.
  assert (H2 : llm_content (rate_limited_once 1%nat) = Some "ok"%string)
    by reflexivity.
  assert (H3 : forall m, (m < 1)%nat -> llm_content (rate_limited_once m) = None).
  { intros [|m] Hm; [reflexivity|lia]. }
  split; [exact H1|]. split; [exact H2|]. split; [exact H3|].
  exact (proj1 (generate_first_success rate_limited_once) 1%nat "ok"%string
           H1 H2 H3).
Defined.

End Attempts.

(** ** The session cache *)

Section SessionCache.

Import ContextManager.

Lemma lookup_snoc (cache : list (string * SessionContext.t))
    (k id : string) (ctx : SessionContext.t) :
  lookup (cache ++ [(k, ctx)]) id
  = match lookup cache id with
    | Some c => Some c
    | None => if String.eqb k id then Some ctx else None
    end.
Proof.
  induction cache as [|[k' c'] rest IH]; simpl; [reflexivity|].
  destruct (String.eqb k' id); [reflexivity|exact IH].
Qed.

Lemma lookup_None_keys (cache : list (string * SessionContext.t))
    (id : string) :
  lookup cache id = None <-> id ∉ (fst <$> cache).
Proof.
  induction cache as [|[k c] rest IH]; simpl.
  - split; [intros _ H; now apply elem_of_nil in H|reflexivity].
  - rewrite not_elem_of_cons. destruct (String.eqb_spec k id) as [->|Hne].
    + split; [discriminate|intros [H _]; now destruct H].
    + rewrite IH. split; [intros H; split; [congruence|exact H]|tauto].
Qed.

Lemma lookup_mutate (f : SessionContext.t -> SessionContext.t)
    (id id' : string) (cache : list (string * SessionContext.t)) :
  lookup (mutate f id cache) id'
  = if String.eqb id' id then f <$> lookup cache id' else lookup cache id'.
Proof.
  induction cache as [|[k c] rest IH]; simpl.
  - now destruct (String.eqb id' id).
  - destruct (String.eqb_spec k id) as [->|Hk]; simpl.
    + destruct (String.eqb_spec id id') as [<-|Hne].
      * now rewrite String.eqb_refl.
      * exact IH.
    + destruct (String.eqb_spec k id') as [<-|Hne].
      * destruct (String.eqb_spec k id) as [->|_]; [now destruct Hk|].
        reflexivity.
      * exact IH.
Qed.

Lemma mutate_keys (f : SessionContext.t -> SessionContext.t) (id : string)
    (cache : list (string * SessionContext.t)) :
  fst <$> mutate f id cache = fst <$> cache.
Proof.
  induction cache as [|[k c] rest IH]; simpl; [reflexivity|].
  f_equal; [now destruct (String.eqb k id)|exact IH].
Qed.

Lemma lookup_delete (id id' : string)
    (cache : list (string * SessionContext.t)) :
  lookup (delete id cache) id'
  = if String.eqb id' id then None else lookup cache id'.
Proof.
  induction cache as [|[k c] rest IH]; simpl.
  - now destruct (String.eqb id' id).
  - destruct (String.eqb_spec k id) as [->|Hk]; simpl.
    + rewrite IH. destruct (String.eqb_spec id' id) as [->|Hne].
      * reflexivity.
      * destruct (String.eqb_spec id id') as [->|_]; [now destruct Hne|].
        reflexivity.
    + rewrite IH. destruct (String.eqb_spec k id') as [<-|Hne].
      * destruct (String.eqb_spec k id) as [->|_]; [now destruct Hk|].
        reflexivity.
      * reflexivity.
Qed.

(** X11: [get_or_create] returns the context cached under the id when
    there is one, whatever the other arguments, and otherwise caches a
    fresh context at the end; either way the context is the one [get]
    and any later [get_or_create] with that id return, the other
    sessions are untouched and no id comes to be cached twice. *)
Theorem get_or_create_stable (self : t)
    (id sig path code ctx_text : string) (target : float) (iters : Z) :
  let out := get_or_create self id sig path code ctx_text target iters in
  get (snd out) id = Some (fst out)
  /\ (forall sig' path' code' ctx' target' iters',
        get_or_create (snd out) id sig' path' code' ctx' target' iters' = out)
  /\ (forall id', id' <> id -> get (snd out) id' = get self id')
  /\ (NoDup (keys self) -> NoDup (keys (snd out)))
  /\ (forall cached, get self id = Some cached ->
        fst out = cached /\ snd out = self)
  /\ (get self id = None ->
      fst out = SessionContext.make id sig path code ctx_text target iters
      /\ keys (snd out) = keys self ++ [id]).
Proof.
  intros out. subst out. unfold get_or_create, get, keys.
  destruct (lookup (_cache self) id) as [cached|] eqn:Hl; cbn [fst snd].
  - rewrite Hl. repeat split; try tauto.
    + now injection H as ->.
    + discriminate H.
    + discriminate H.
  - cbn [with_cache _cache]. rewrite !lookup_snoc, Hl, String.eqb_refl.
    split; [reflexivity|]. split; [reflexivity|]. split; [|split; [|split]].
    + intros id' Hne. rewrite lookup_snoc.
      destruct (lookup (_cache self) id'); [reflexivity|].
      destruct (String.eqb_spec id id') as [->|_]; [now destruct Hne|].
      reflexivity.
    + intros Hnd. rewrite fmap_app. apply NoDup_app.
      split; [exact Hnd|]. split; [|apply NoDup_singleton].
      intros x Hx Hx'. apply list_elem_of_singleton in Hx'. subst x.
      now apply lookup_None_keys in Hl.
    + intros cached H. discriminate H.
    + intros _. split; [reflexivity|]. now rewrite fmap_app.
Qed.

Lemma get_or_create_stable_witness :
  get two_sessions "s1" = Some fresh_session
  /\ fst (get_or_create two_sessions "s1" "other" "other" "other" ""
            PyFloat.zero 5) = fresh_session.
Proof.
  assert (H : get two_sessions "s1" = Some fresh_session) by reflexivity.
  split; [exact H|].
  destruct (get_or_create_stable two_sessions "s1" "other" "other" "other" ""
              PyFloat.zero 5) as (_ & _ & _ & _ & Hc & _).
  exact (proj1 (Hc fresh_session H)).
Defined.

Lemma remove_outcome (self : t) (id : string) :
  let out := remove self id in
  (fst out = true <-> is_Some (get self id))
  /\ get (snd out) id = None
  /\ remove (snd out) id = (false, snd out).
Proof.
  intros out. subst out. unfold remove, get.
  destruct (lookup (_cache self) id) as [cached|] eqn:Hl; cbn [fst snd].
  - cbn [with_cache _cache]. rewrite !lookup_delete, String.eqb_refl.
    split; [split; eauto|]. now split.
  - rewrite Hl. split; [split; [discriminate|intros [x Hx]; discriminate Hx]|].
    now split.
Qed.

(** X12: [remove] answers [True] exactly when the id is cached;
    afterwards [get] finds nothing under the id, a second [remove]
    answers [False] and changes nothing, and the other sessions are
    untouched. *)
Theorem remove_then_get (self : t) (id : string) :
  let out := remove self id in
  (fst out = true <-> is_Some (get self id))
  /\ get (snd out) id = None
  /\ remove (snd out) id = (false, snd out)
  /\ (forall id', id' <> id -> get (snd out) id' = get self id')
  /\ (get self id = None -> snd out = self).
Proof.
  intros out. subst out. unfold remove, get.
  destruct (lookup (_cache self) id) as [cached|] eqn:Hl; cbn [fst snd].
  - cbn [with_cache _cache]. rewrite !lookup_delete, String.eqb_refl.
    split; [split; eauto|]. split; [reflexivity|]. split; [reflexivity|].
    split; [|intros H; discriminate H].
    intros id' Hne. rewrite lookup_delete.
    destruct (String.eqb_spec id' id) as [->|_]; [now destruct Hne|].
    reflexivity.
  - rewrite Hl. split; [split; [discriminate|intros [x Hx]; discriminate Hx]|].
    repeat split.
Qed.

Lemma remove_then_get_witness :
  get two_sessions "missing" = None
  /\ snd (remove two_sessions "missing") = two_sessions.
Proof.
  assert (H : get two_sessions "missing" = None) by reflexivity.
  split; [exact H|].
  destruct (remove_then_get two_sessions "missing") as (_ & _ & _ & _ & Hn).
  exact (Hn H).
Defined.

Lemma session_add_rule_twice (s : SessionContext.t) (rule : string) :
  SessionContext.add_learned_rule (SessionContext.add_learned_rule s rule) rule
  = SessionContext.add_learned_rule s rule.
Proof.
  destruct (negb (String.eqb rule "")
            && negb (existsb (String.eqb rule) (SessionContext.learned_rules s)))
    eqn:Hb.
  - assert (E : SessionContext.add_learned_rule s rule
                = SessionContext.mk (SessionContext.session_id s)
                    (SessionContext.function_signature s)
                    (SessionContext.function_path s)
                    (SessionContext.function_code s) (SessionContext.context s)
                    (SessionContext.coverage_target s)
                    (SessionContext.max_iterations s)
                    (SessionContext.learned_rules s ++ [rule])
                    (SessionContext.total_prompt_tokens s)
                    (SessionContext.total_completion_tokens s)
                    (SessionContext.max_tokens s))
      by (unfold SessionContext.add_learned_rule; now rewrite Hb).
    rewrite E. unfold SessionContext.add_learned_rule.
    cbn [SessionContext.learned_rules].
    rewrite existsb_app. simpl. rewrite String.eqb_refl.
    now rewrite !orb_true_r, andb_false_r.
  - assert (E : SessionContext.add_learned_rule s rule = s)
      by (unfold SessionContext.add_learned_rule; now rewrite Hb).
    now rewrite !E.
Qed.

Lemma session_add_rule_nodup (s : SessionContext.t) (rule : string) :
  NoDup (SessionContext.learned_rules s) ->
  NoDup (SessionContext.learned_rules (SessionContext.add_learned_rule s rule)).
Proof.
  intros Hnd. unfold SessionContext.add_learned_rule.
  destruct (negb (String.eqb rule "")); cbn [andb]; [|exact Hnd].
  destruct (existsb (String.eqb rule) (SessionContext.learned_rules s)) eqn:Hin;
    cbn [negb SessionContext.learned_rules]; [exact Hnd|].
  apply NoDup_app. split; [exact Hnd|]. split; [|apply NoDup_singleton].
  intros x Hx Hx'. apply list_elem_of_singleton in Hx'. subst x.
  assert (existsb (String.eqb rule) (SessionContext.learned_rules s) = true);
    [|congruence].
  apply existsb_exists. exists rule. split; [|apply String.eqb_refl].
  now apply list_elem_of_In.
Qed.

Lemma mutate_twice (f : SessionContext.t -> SessionContext.t) (id : string)
    (cache : list (string * SessionContext.t)) :
  (forall s, f (f s) = f s) ->
  mutate f id (mutate f id cache) = mutate f id cache.
Proof.
  intros Hf. induction cache as [|[k c] rest IH]; simpl; [reflexivity|].
  f_equal; [|exact IH].
  destruct (String.eqb k id) eqn:Hk; simpl; rewrite Hk; [|reflexivity].
  now rewrite Hf.
Qed.

(** X13: [update_learned_rules] on an id that is not cached answers
    [False] and changes nothing; on a cached id it answers [True] and
    the session gets the rule as [add_learned_rule] adds it: no
    duplicate arises, the other sessions are untouched, and sending the
    same rule again changes nothing. *)
Theorem update_learned_rules_dedup (self : t) (id rule : string) :
  let out := update_learned_rules self id rule in
  (get self id = None -> out = (false, self))
  /\ (forall s, get self id = Some s ->
        fst out = true
        /\ get (snd out) id = Some (SessionContext.add_learned_rule s rule)
        /\ (NoDup (SessionContext.learned_rules s) ->
            NoDup (SessionContext.learned_rules
                     (SessionContext.add_learned_rule s rule)))
        /\ update_learned_rules (snd out) id rule = (true, snd out))
  /\ (forall id', id' <> id -> get (snd out) id' = get self id')
  /\ keys (snd out) = keys self.
Proof.
  intros out. subst out. unfold update_learned_rules, get, keys.
  destruct (lookup (_cache self) id) as [s0|] eqn:Hl; cbn [fst snd].
  - cbn [with_cache _cache]. split; [intros H; discriminate H|]. split.
    + intros s [= <-]. split; [reflexivity|].
      rewrite !lookup_mutate, String.eqb_refl, Hl. cbn [fmap option_fmap option_map].
      split; [reflexivity|]. split; [apply session_add_rule_nodup|].
      cbn [with_cache _cache ttl_seconds].
      rewrite mutate_twice by (intros; apply session_add_rule_twice).
      reflexivity.
    + split; [|apply mutate_keys].
      intros id' Hne. rewrite lookup_mutate.
      destruct (String.eqb_spec id' id) as [->|_]; [now destruct Hne|].
      reflexivity.
  - rewrite Hl. split; [reflexivity|]. split; [intros s H; discriminate H|].
    now split.
Qed.

Lemma update_learned_rules_dedup_witness :
  get two_sessions "s1" = Some fresh_session
  /\ update_learned_rules
       (snd (update_learned_rules two_sessions "s1" "x is positive"))
       "s1" "x is positive"
     = (true, snd (update_learned_rules two_sessions "s1" "x is positive")).
Proof.
  assert (H : get two_sessions "s1" = Some fresh_session) by reflexivity.
  split; [exact H|].
  destruct (update_learned_rules_dedup two_sessions "s1" "x is positive")
    as (_ & Hs & _).
  exact (proj2 (proj2 (proj2 (Hs fresh_session H)))).
Defined.

Lemma sum_from (xs : list Z) (a : Z) : fold_left Z.add xs a = a + sum xs.
Proof.
  unfold sum. revert a.
  induction xs as [|x xs IH]; intros a; cbn [fold_left]; [lia|].
  rewrite (IH (a + x)), (IH (0 + x)). lia.
Qed.

Lemma sum_cons (x : Z) (xs : list Z) : sum (x :: xs) = x + sum xs.
Proof. unfold sum at 1. cbn [fold_left]. rewrite sum_from. lia. Qed.

Lemma tokens_in_cons (k : string) (ctx : SessionContext.t)
    (rest : list (string * SessionContext.t)) :
  tokens_in ((k, ctx) :: rest) = SessionContext.total_tokens ctx + tokens_in rest.
Proof. unfold tokens_in. cbn [fmap list_fmap snd]. apply sum_cons. Qed.

Lemma mutate_absent (f : SessionContext.t -> SessionContext.t) (id : string)
    (cache : list (string * SessionContext.t)) :
  id ∉ (fst <$> cache) -> mutate f id cache = cache.
Proof.
  induction cache as [|[k ctx] rest IH]; intros Hk; [reflexivity|].
  cbn [fmap list_fmap fst] in Hk. apply not_elem_of_cons in Hk as [Hne Hk].
  unfold mutate. cbn [fmap list_fmap fst snd].
  destruct (String.eqb_spec k id) as [->|_]; [now destruct Hne|].
  f_equal. now apply IH.
Qed.

Lemma tokens_in_mutate (cache : list (string * SessionContext.t))
    (id : string) (p c : Z) :
  NoDup (fst <$> cache) ->
  forall s, lookup cache id = Some s ->
  tokens_in (mutate (fun ctx => SessionContext.add_token_usage ctx p c) id cache)
  = tokens_in cache + p + c.
Proof.
  induction cache as [|[k c0] rest IH]; intros Hnd s Hl; [discriminate Hl|].
  cbn [fmap list_fmap fst] in Hnd. apply NoDup_cons in Hnd as [Hk Hnd].
  cbn [lookup] in Hl.
  change (mutate ?f id ((k, c0) :: rest))
    with ((if String.eqb k id then (k, f c0) else (k, c0)) :: mutate f id rest).
  destruct (String.eqb_spec k id) as [->|Hne].
  - rewrite (mutate_absent _ _ _ Hk), !tokens_in_cons.
    unfold SessionContext.total_tokens, SessionContext.add_token_usage.
    cbn [SessionContext.total_prompt_tokens
           SessionContext.total_completion_tokens]. lia.
  - rewrite !tokens_in_cons, (IH Hnd s Hl). lia.
Qed.

(** X14: [add_token_usage] on an id that is not cached answers [False]
    and changes nothing; on a cached id, no id being cached twice, it
    adds the tokens to that session and the total that [get_stats]
    reports grows by their sum, with the same number of sessions. *)
Theorem manager_add_token_usage (self : t) (id : string) (p c : Z) :
  let out := add_token_usage self id p c in
  (get self id = None -> out = (false, self))
  /\ (forall s, get self id = Some s -> NoDup (keys self) ->
        fst out = true
        /\ get (snd out) id = Some (SessionContext.add_token_usage s p c)
        /\ Routes.getitem (get_stats (snd out)) "total_tokens_used"
           = Returned (tokens_in (_cache self) + p + c)
        /\ Routes.getitem (get_stats self) "total_tokens_used"
           = Returned (tokens_in (_cache self))
        /\ Routes.getitem (get_stats (snd out)) "total_sessions"
           = Routes.getitem (get_stats self) "total_sessions").
Proof.
  intros out. subst out. unfold add_token_usage, get, keys.
  destruct (lookup (_cache self) id) as [s0|] eqn:Hl; cbn [fst snd].
  - split; [intros H; discriminate H|].
    intros s [= <-] Hnd. split; [reflexivity|].
    cbn [with_cache _cache].
    rewrite lookup_mutate, String.eqb_refl, Hl.
    split; [reflexivity|].
    change (Routes.getitem (get_stats ?m) "total_tokens_used")
      with (Returned (tokens_in (_cache m))).
    change (Routes.getitem (get_stats ?m) "total_sessions")
      with (Returned (Z.of_nat (length (_cache m)))).
    cbn [with_cache _cache].
    rewrite (tokens_in_mutate _ _ _ _ Hnd s0 Hl).
    split; [reflexivity|]. split; [reflexivity|].
    unfold mutate. now rewrite length_fmap.
  - split; [reflexivity|]. intros s H. discriminate H.
Qed.

Lemma manager_add_token_usage_witness :
  get two_sessions "s2" = Some other_session
  /\ NoDup (keys two_sessions)
  /\ Routes.getitem
       (get_stats (snd (add_token_usage two_sessions "s2" 100 50)))
       "total_tokens_used"
     = Returned (tokens_in (_cache two_sessions) + 100 + 50).
Proof.
  assert (H : get two_sessions "s2" = Some other_session) by reflexivity.
  assert (Hnd : NoDup (keys two_sessions)).
  { apply NoDup_cons. split.
    - intros Hin. apply list_elem_of_singleton in Hin. discriminate Hin.
    - apply NoDup_singleton. }
  split; [exact H|]. split; [exact Hnd|].
  destruct (manager_add_token_usage two_sessions "s2" 100 50) as [_ Hs].
  exact (proj1 (proj2 (proj2 (Hs other_session H Hnd)))).
Defined.


Lemma filter_all {A : Type} (f : A -> bool) (l : list A) :
  (forall x, f x = true) -> List.filter f l = l.
Proof.
  intros Hf. induction l as [|x l IH]; [reflexivity|].
  cbn [List.filter]. rewrite Hf. now f_equal.
Qed.

Lemma filter_twice {A : Type} (f g : A -> bool) (l : list A) :
  List.filter f (List.filter g l) = List.filter (fun x => g x && f x) l.
Proof.
  induction l as [|x l IH]; [reflexivity|]. cbn [List.filter].
  destruct (g x); cbn [andb List.filter]; [|exact IH].
  destruct (f x); now rewrite IH.
Qed.

Lemma delete_all (ids : list string) :
  forall cache : list (string * SessionContext.t),
    fold_left (fun cache id => delete id cache) ids cache
    = List.filter (fun e => negb (existsb (String.eqb (fst e)) ids)) cache.
Proof.
  induction ids as [|id ids IH]; intros cache; cbn [fold_left].
  - symmetry. now apply filter_all.
  - rewrite IH. unfold delete. rewrite filter_twice.
    apply filter_ext. intros e. cbn [existsb].
    now rewrite negb_orb.
Qed.

Lemma expired_ids_spec (f : string -> bool)
    (cache : list (string * SessionContext.t)) (k : string) :
  existsb (String.eqb k)
    (fst <$> List.filter (fun e => f (fst e)) cache) = true ->
  f k = true.
Proof.
  induction cache as [|e cache IH]; [discriminate|].
  cbn [List.filter]. destruct (f (fst e)) eqn:He; [|exact IH].
  cbn [fmap list_fmap existsb]. rewrite orb_true_iff.
  intros [Heq|H]; [|now apply IH].
  apply String.eqb_eq in Heq. now subst.
Qed.

Lemma survivors_spec (f : string -> bool)
    (cache : list (string * SessionContext.t)) :
  List.filter
    (fun e => negb (existsb (String.eqb (fst e))
                      (fst <$> List.filter (fun e => f (fst e)) cache)))
    cache
  = List.filter (fun e => negb (f (fst e))) cache.
Proof.
  apply filter_ext_in. intros e He. f_equal.
  destruct (f (fst e)) eqn:Hf.
  - apply existsb_exists. exists (fst e). split; [|apply String.eqb_refl].
    apply in_map. apply filter_In. now split.
  - apply not_true_is_false. intros H.
    apply expired_ids_spec in H. congruence.
Qed.

Lemma filter_none {A : Type} (f : A -> bool) (l : list A) :
  List.filter f (List.filter (fun x => negb (f x)) l) = [].
Proof.
  induction l as [|x l IH]; [reflexivity|]. cbn [List.filter].
  destruct (f x) eqn:Hx; cbn [negb List.filter]; [exact IH|].
  now rewrite Hx.
Qed.

Lemma filter_split_length {A : Type} (f : A -> bool) (l : list A) :
  (length (List.filter f l) + length (List.filter (fun x => negb (f x)) l)
   = length l)%nat.
Proof.
  induction l as [|x l IH]; [reflexivity|]. cbn [List.filter].
  destruct (f x); cbn [negb length]; lia.
Qed.

(** X15: [cleanup_expired] keeps, in their order, exactly the sessions
    whose age is not greater than the time to live, and returns the
    number of sessions it evicted; a second sweep at the same ages
    evicts nothing and returns 0. *)
Theorem cleanup_expired_sweep (self : t) (age : string -> float) :
  let out := cleanup_expired self age in
  let expired id := PyFloat.gt (age id) (PyFloat.of_int (ttl_seconds self)) in
  _cache (snd out)
  = List.filter (fun e => negb (expired (fst e))) (_cache self)
  /\ fst out
     = Z.of_nat (length (_cache self)) - Z.of_nat (length (_cache (snd out)))
  /\ (forall id ctx, In (id, ctx) (_cache (snd out)) -> expired id = false)
  /\ (forall id ctx, In (id, ctx) (_cache self) -> expired id = false ->
        In (id, ctx) (_cache (snd out)))
  /\ cleanup_expired (snd out) age = (0, snd out).
Proof.
  intros out expired.
  assert (Hcache : _cache (snd out)
                   = List.filter (fun e => negb (expired (fst e))) (_cache self)).
  { subst out. unfold cleanup_expired. cbn [snd with_cache _cache].
    rewrite delete_all. apply (survivors_spec expired). }
  split; [exact Hcache|]. split; [|split; [|split]].
  - rewrite Hcache. subst out. unfold cleanup_expired. cbn [fst].
    rewrite length_fmap.
    pose proof (filter_split_length (fun e : string * SessionContext.t =>
                                       expired (fst e)) (_cache self)) as H.
    subst expired. cbv beta in *. lia.
  - intros id ctx. rewrite Hcache, filter_In, negb_true_iff. tauto.
  - intros id ctx Hin Hid. rewrite Hcache, filter_In, negb_true_iff. tauto.
  - unfold cleanup_expired at 1.
    assert (Httl : ttl_seconds (snd out) = ttl_seconds self) by reflexivity.
    rewrite Httl, Hcache. fold expired.
    rewrite (filter_none (fun e : string * SessionContext.t => expired (fst e))).
    cbn [fmap list_fmap length fold_left]. destruct (snd out) as [ttl cache] eqn:Hout.
    cbn [ttl_seconds _cache] in *. unfold with_cache. cbn [ttl_seconds].
    now rewrite Hcache.
Qed.

(** At the ages [ages] the sweep of [two_sessions] evicts "s1". *)
Example cleanup_expired_demo :
  cleanup_expired two_sessions ages
  = (1, ContextManager.mk 3600 [("s2"%string, other_session)]).
Proof. vm_compute. reflexivity. Qed.

End SessionCache.

(** ** The session routes *)

Section SessionRoutes.

Import Routes.

(** X16: [DELETE /session/{id}] answers 204 when the session is cached
    and raises 404 when it is not; after it, [GET /session/{id}] and a
    second delete both raise 404.  [GET /session/{id}] answers with the
    tokens used by the cached session and a number of remaining tokens
    that is never negative. *)
Theorem delete_session_then_get (context_manager : ContextManager.t)
    (age : float) (id : string) :
  let out := delete_session context_manager id in
  (forall s, ContextManager.get context_manager id = Some s ->
     fst out = Answered 204
     /\ exists info, get_session_info context_manager age id = Answered info
                     /\ si_tokens_used info = SessionContext.total_tokens s
                     /\ 0 <= si_tokens_remaining info)
  /\ (ContextManager.get context_manager id = None ->
      fst out = HTTPException 404
      /\ get_session_info context_manager age id = HTTPException 404)
  /\ get_session_info (snd out) age id = HTTPException 404
  /\ fst (delete_session (snd out) id) = HTTPException 404.
Proof.
  intros out.
  destruct (remove_outcome context_manager id)
    as (Hok & Hgone & Hagain).
  subst out. unfold delete_session, get_session_info.
  destruct (ContextManager.remove context_manager id) as [removed cm] eqn:Hrm.
  cbn [fst snd] in *.
  assert (Hlast : fst (let '(removed0, cm0) := ContextManager.remove cm id in
                       if removed0 then (Answered 204, cm0)
                       else (@HTTPException Z 404, cm0))
                  = HTTPException 404) by now rewrite Hagain.
  split; [|split; [|split]].
  - intros s Hs. rewrite Hs.
    assert (removed = true) as -> by (apply Hok; eauto).
    split; [reflexivity|]. eexists. split; [reflexivity|].
    cbn [si_tokens_used si_tokens_remaining]. split; [reflexivity|].
    unfold SessionContext.tokens_remaining. lia.
  - intros Hn. rewrite Hn.
    destruct removed; [|now split].
    destruct (proj1 Hok eq_refl) as [x Hx]. congruence.
  - destruct removed; cbn [snd]; now rewrite Hgone.
  - destruct removed; cbn [snd]; exact Hlast.
Qed.

Lemma delete_session_then_get_witness :
  ContextManager.get two_sessions "s1" = Some fresh_session
  /\ fst (delete_session two_sessions "s1") = Answered 204.
Proof.
  assert (H : ContextManager.get two_sessions "s1" = Some fresh_session)
    by reflexivity.
  split; [exact H|].
  destruct (delete_session_then_get two_sessions PyFloat.zero "s1")
    as (Hs & _).
  exact (proj1 (Hs fresh_session H)).
Defined.

End SessionRoutes.

(** ** Candidates *)

Section Candidates.

Import PyFloat MCTSController.

Lemma dedup_loop_spec (hash : string -> Z) (candidates : list (string * string)) :
  forall (seen_hashes : gset Z) (seen_names : gset string),
    let out := dedup_loop hash candidates seen_hashes seen_names in
    NoDup (snd <$> out)
    /\ (forall name, name ∈ (snd <$> out) -> name ∉ seen_names)
    /\ NoDup (code_hash hash <$> out)
    /\ (forall h, h ∈ (code_hash hash <$> out) -> h ∉ seen_hashes)
    /\ out `sublist_of` candidates.
Proof.
  induction candidates as [|[code name] rest IH]; intros seen_hashes seen_names.
  - cbn. repeat split; try constructor; intros x Hx; now apply elem_of_nil in Hx.
  - cbn [dedup_loop].
    destruct (bool_decide (hash (PyStr.strip code) ∉ seen_hashes)) eqn:Hh;
      [destruct (bool_decide (name ∉ seen_names)) eqn:Hn|]; cbn [andb].
    + apply bool_decide_eq_true in Hh, Hn.
      destruct (IH ({[hash (PyStr.strip code)]} ∪ seen_hashes)
                  ({[name]} ∪ seen_names)) as (H1 & H2 & H3 & H4 & H5).
      cbv zeta. cbn [fmap list_fmap snd fst code_hash].
      split; [|split; [|split; [|split]]].
      * apply NoDup_cons. split; [|exact H1].
        intros Hin. apply H2 in Hin.
        apply Hin, elem_of_union_l, elem_of_singleton. reflexivity.
      * intros x Hx. apply elem_of_cons in Hx as [->|Hx]; [exact Hn|].
        apply H2 in Hx. intros Hc. apply Hx, elem_of_union_r, Hc.
      * apply NoDup_cons. split; [|exact H3].
        intros Hin. apply H4 in Hin.
        apply Hin, elem_of_union_l, elem_of_singleton. reflexivity.
      * intros x Hx. apply elem_of_cons in Hx as [->|Hx]; [exact Hh|].
        apply H4 in Hx. intros Hc. apply Hx, elem_of_union_r, Hc.
      * now apply sublist_skip.
    + destruct (IH seen_hashes seen_names) as (H1 & H2 & H3 & H4 & H5).
      repeat split; try assumption. now apply sublist_cons.
    + destruct (IH seen_hashes seen_names) as (H1 & H2 & H3 & H4 & H5).
      repeat split; try assumption. now apply sublist_cons.
Qed.

Lemma dedup_loop_fixed (hash : string -> Z) (out : list (string * string)) :
  forall (seen_hashes : gset Z) (seen_names : gset string),
    NoDup (snd <$> out) ->
    (forall name, name ∈ (snd <$> out) -> name ∉ seen_names) ->
    NoDup (code_hash hash <$> out) ->
    (forall h, h ∈ (code_hash hash <$> out) -> h ∉ seen_hashes) ->
    dedup_loop hash out seen_hashes seen_names = out.
Proof.
  induction out as [|[code name] rest IH];
    intros seen_hashes seen_names Hn Hns Hh Hhs; [reflexivity|].
  cbn [fmap list_fmap snd fst code_hash] in *.
  apply NoDup_cons in Hn as [Hn1 Hn], Hh as [Hh1 Hh].
  cbn [dedup_loop].
  rewrite (bool_decide_eq_true_2 (hash (PyStr.strip code) ∉ seen_hashes))
    by (apply Hhs, elem_of_cons; now left).
  rewrite (bool_decide_eq_true_2 (name ∉ seen_names))
    by (apply Hns, elem_of_cons; now left).
  cbn [andb]. f_equal. apply IH; try assumption.
  - intros x Hx. assert (x ∉ seen_names) by (apply Hns, elem_of_cons; now right).
    assert (x <> name) by (intros ->; contradiction).
    intros [Hc|Hc]%elem_of_union; [|contradiction].
    apply elem_of_singleton in Hc. contradiction.
  - intros x Hx.
    assert (x ∉ seen_hashes) by (apply Hhs, elem_of_cons; now right).
    assert (x <> hash (PyStr.strip code)) by (intros ->; contradiction).
    intros [Hc|Hc]%elem_of_union; [|contradiction].
    apply elem_of_singleton in Hc. contradiction.
Qed.

(** X17: [_deduplicate_candidates] keeps candidates in their order,
    the first of each stripped-code hash and of each name; the names it
    returns are pairwise different and none is a name of the suite, the
    hashes are pairwise different, and filtering its result again
    changes nothing. *)
Theorem deduplicate_candidates_unique (hash : string -> Z)
    (candidates : list (string * string)) (existing_names : list string) :
  let out := _deduplicate_candidates hash candidates existing_names in
  out `sublist_of` candidates
  /\ NoDup (snd <$> out)
  /\ (forall name, name ∈ (snd <$> out) -> name ∉ existing_names)
  /\ NoDup (code_hash hash <$> out)
  /\ _deduplicate_candidates hash out existing_names = out.
Proof.
  intros out. subst out. unfold _deduplicate_candidates.
  destruct (dedup_loop_spec hash candidates ∅ (list_to_set existing_names))
    as (H1 & H2 & H3 & H4 & H5).
  cbv zeta in *.
  split; [exact H5|]. split; [exact H1|]. split; [|split; [exact H3|]].
  - intros name Hin Hex. apply (H2 name Hin). now apply elem_of_list_to_set.
  - now apply dedup_loop_fixed.
Qed.

Lemma upto_length {A : Type} (k : Z) (l : list A) :
  (length (PyList.upto k l) <= length l)%nat
  /\ (0 <= k -> Z.of_nat (length (PyList.upto k l)) <= k).
Proof.
  unfold PyList.upto. destruct (Z.leb_spec 0 k); rewrite length_take; split; lia.
Qed.

Lemma candidate_of_named (existing : list string) (i : nat) (t : test_obj) :
  snd (candidate_of existing i t) <> ""%string.
Proof.
  unfold candidate_of. destruct t as [code name|text]; cbv zeta; cbn [snd].
  - match goal with
    | |- context [String.eqb ?n ""] =>
        destruct (String.eqb_spec n "") as [_|Hne]; [|exact Hne]
    end.
    cbn [append]. discriminate.
  - cbn [append]. discriminate.
Qed.

(** X18: the candidates of one call of [_generate_candidates] are at
    most [K] (for [K >= 0]); each has a non-empty name, no two share a
    name, and no name is already in the suite of the node. *)
Theorem generate_candidates_named (env : Env) (iter : nat)
    (all_nodes : list TreeNode) (node : TreeNode)
    (session_ctx : SessionContext.t) (k : Z) :
  let out := fst (_generate_candidates env iter all_nodes node session_ctx k) in
  (0 <= k -> Z.of_nat (length out) <= k)
  /\ (forall c, c ∈ out -> snd c <> ""%string)
  /\ NoDup (snd <$> out)
  /\ (forall name, name ∈ (snd <$> out) ->
        name ∉ test_case_names (state node)).
Proof.
  intros out. subst out. unfold _generate_candidates.
  assert (Hnil : (0 <= k -> Z.of_nat (length (@nil (string * string))) <= k)
                 /\ (forall c : string * string, c ∈ [] -> snd c <> ""%string)
                 /\ NoDup (snd <$> (@nil (string * string)))
                 /\ (forall name, name ∈ (snd <$> (@nil (string * string))) ->
                       name ∉ test_case_names (state node))).
  { repeat split; try constructor; try (simpl; lia);
      intros x Hx; now apply elem_of_nil in Hx. }
  destruct (render_prompt _ _ _ _ _) as [prompt|]; [|exact Hnil].
  destruct (gen_outcome _) as [response|]; [|exact Hnil].
  destruct (parse_tests env response) as [tests_list|]; [|exact Hnil].
  cbn [fst].
  set (candidates := imap (candidate_of (test_case_names (state node)))
                       (PyList.upto k tests_list)).
  destruct (dedup_loop_spec (str_hash env) candidates ∅
              (list_to_set (test_case_names (state node))))
    as (H1 & H2 & _ & _ & H5).
  cbv zeta in *. unfold _deduplicate_candidates.
  split; [|split; [|split; [exact H1|]]].
  - intros Hk. apply sublist_length in H5.
    pose proof (proj2 (upto_length k tests_list) Hk).
    subst candidates. rewrite length_imap in H5. lia.
  - intros c Hc. apply (elem_of_sublist _ _ _ Hc) in H5 as Hc2. clear Hc. rename Hc2 into Hc.
    subst candidates. apply list_elem_of_lookup in Hc as [i Hi].
    rewrite list_lookup_imap in Hi. apply fmap_Some in Hi as (t & _ & ->).
    apply candidate_of_named.
  - intros name Hin Hex. apply (H2 name Hin). now apply elem_of_list_to_set.
Qed.

Lemma generate_candidates_named_witness :
  0 <= 5
  /\ Z.of_nat (length (fst (_generate_candidates demo_env 0 [fresh_root]
                              fresh_root fresh_session 5))) <= 5.
Proof.
  split; [lia|].
  apply (generate_candidates_named demo_env 0 [fresh_root] fresh_root
           fresh_session 5). lia.
Defined.

End Candidates.

(** ** The tree *)

Section TreeWalks.

Import PyFloat TreeNodeM MCTSController.

Lemma fold_max_elem {A : Type} (key : A -> float) (rest : list A) :
  forall x : A,
    fold_left (fun best y => if gt (key y) (key best) then y else best) rest x
    ∈ x :: rest.
Proof.
  induction rest as [|y rest IH]; intros x; cbn [fold_left].
  - apply elem_of_cons. now left.
  - destruct (gt (key y) (key x)).
    + apply elem_of_cons. right. apply IH.
    + specialize (IH x). apply elem_of_cons in IH as [->|IH].
      * apply elem_of_cons. now left.
      * apply elem_of_cons. right. apply elem_of_cons. now right.
Qed.

Lemma max_by_elem {A : Type} (key : A -> float) (items : list A) (x : A) :
  max_by key items = Some x -> x ∈ items.
Proof.
  destruct items as [|y rest]; [discriminate|]. cbn [max_by].
  intros [= <-]. apply fold_max_elem.
Qed.

Lemma best_child_elem (math_log : float -> float) (nodes : list TreeNode)
    (self : TreeNode) (exploration_coef : float) (c : nat) :
  best_child math_log nodes self exploration_coef = Some c ->
  c ∈ children self.
Proof.
  unfold best_child. destruct (children self) as [|y rest]; [discriminate|].
  destruct (eqb exploration_coef zero); apply max_by_elem.
Qed.

(** X19: [best_child] returns one of the node's own children, and
    [None] exactly when the node has none. *)
Theorem best_child_is_child (math_log : float -> float)
    (nodes : list TreeNode) (self : TreeNode) (exploration_coef : float) :
  match best_child math_log nodes self exploration_coef with
  | Some c => c ∈ children self
  | None => children self = []
  end.
Proof.
  destruct (best_child _ _ _ _) as [c|] eqn:E.
  - eapply best_child_elem, E.
  - unfold best_child in E. destruct (children self) as [|y rest]; [reflexivity|].
    destruct (eqb exploration_coef zero); discriminate.
Qed.

Lemma selection_loop_frontier (config : MCTSConfig.t) (env : Env)
    (nodes : list TreeNode) (remaining : nat) :
  forall current leaf : nat,
    selection_loop config env nodes current remaining = Some leaf ->
    exists n, nodes !! leaf = Some n
              /\ (is_terminal n = true \/ children n = []).
Proof.
  induction remaining as [|remaining IH]; intros current leaf; [discriminate|].
  cbn [selection_loop]. destruct (nodes !! current) as [n|] eqn:Hn; [|discriminate].
  destruct (is_terminal n) eqn:Hterm.
  { intros [= <-]. exists n. split; [exact Hn|now left]. }
  destruct (is_fully_expanded n) eqn:Hfull; cbn [negb].
  - destruct (best_child _ _ _ _) as [child|] eqn:Hbest.
    + apply IH.
    + intros [= <-]. exists n. split; [exact Hn|right].
      unfold best_child in Hbest.
      destruct (children n) as [|y rest]; [reflexivity|].
      destruct (eqb _ zero); discriminate.
  - intros [= <-]. exists n. split; [exact Hn|right].
    unfold is_fully_expanded in Hfull. apply Nat.ltb_ge in Hfull.
    destruct (children n); [reflexivity|simpl in Hfull; lia].
Qed.

(** X20: the node [_selection] returns is a stored node that is
    terminal or has no child yet, and it returns one only when
    [max_depth] is positive. *)
Theorem selection_returns_frontier (config : MCTSConfig.t) (env : Env)
    (nodes : list TreeNode) (root leaf : nat) :
  _selection config env nodes root = Some leaf ->
  0 < MCTSConfig.max_depth config
  /\ exists n, nodes !! leaf = Some n
               /\ (is_terminal n = true \/ children n = []).
Proof.
  unfold _selection. intros H. split.
  - destruct (MCTSConfig.max_depth config) as [|p|p]; [discriminate|lia|discriminate].
  - eapply selection_loop_frontier, H.
Qed.

Lemma selection_returns_frontier_witness :
  _selection (demo_config 2) demo_env (nodes demo_after_first) 0 = Some 1%nat
  /\ exists n, nodes demo_after_first !! 1%nat = Some n
               /\ (is_terminal n = true \/ children n = []).
Proof.
  assert (H : _selection (demo_config 2) demo_env (nodes demo_after_first) 0
              = Some 1%nat)
    by (vm_compute; reflexivity).
  split; [exact H|].
  exact (proj2 (selection_returns_frontier (demo_config 2) demo_env
                  (nodes demo_after_first) 0 1 H)).
Defined.

Lemma gt_irrefl (x : float) : gt x x = false.
Proof.
  unfold gt, lt, SFltb. destruct (SFcompare x x) as [[]|] eqn:E; try reflexivity.
  pose proof (SFcompare_antisym x x _ E) as E'. rewrite E in E'. discriminate.
Qed.

Lemma better_irrefl (n : TreeNode) : better n n = false.
Proof.
  unfold better. rewrite gt_irrefl, Z.ltb_irrefl, andb_false_r. reflexivity.
Qed.

(** X21: [_update_best] leaves the tree alone; the best node after it
    is the one before or the node it was given, and the latter replaces
    a stored incumbent only when it has strictly higher coverage, or the
    same coverage with fewer tests; a second call with the same node
    changes nothing. *)
Theorem update_best_strict (c : Controller) (node : nat) :
  let c' := _update_best c node in
  nodes c' = nodes c
  /\ (best_node c' = best_node c \/ best_node c' = Some node)
  /\ (forall b, best_node c = Some b -> best_node c' <> Some b ->
        exists n best, nodes c !! node = Some n /\ nodes c !! b = Some best
                       /\ better n best = true)
  /\ _update_best c' node = c'.
Proof.
  intros c'. subst c'. unfold _update_best.
  destruct (best_node c) as [b|] eqn:Hb.
  - destruct (nodes c !! node) as [n|] eqn:Hn.
    + destruct (nodes c !! b) as [best|] eqn:Hbest.
      * destruct (better n best) eqn:Hbetter.
        -- cbn [with_best nodes best_node]. rewrite Hn, better_irrefl.
           repeat split; [now right|].
           intros b' [= <-] _. now exists n, best.
        -- rewrite Hb, Hn, Hbest, Hbetter. repeat split; [now left|].
           intros b' Hb' Hne. congruence.
      * rewrite Hb, Hn, Hbest. repeat split; [now left|].
        intros b' Hb' Hne. congruence.
    + rewrite Hb, Hn. repeat split; [now left|].
      intros b' Hb' Hne. congruence.
  - cbn [with_best nodes best_node].
    repeat split; [now right|discriminate|].
    destruct (nodes c !! node) as [n|]; [|reflexivity].
    now rewrite better_irrefl.
Qed.

Lemma path_loop_chain (nodes : list TreeNode) (current : option nat)
    (path : list nat) :
  chain (parent <$> nodes) current path ->
  forall (fuel : nat) (acc : list nat),
    (length path <= fuel)%nat ->
    path_loop fuel nodes current acc = Some (acc ++ path).
Proof.
  induction 1 as [|i p path Hi Hchain IH]; intros fuel acc Hfuel.
  - destruct fuel; cbn; now rewrite app_nil_r.
  - destruct fuel as [|fuel]; [simpl in Hfuel; lia|]. cbn [path_loop].
    rewrite list_lookup_fmap in Hi.
    destruct (nodes !! i) as [n|]; [|discriminate].
    cbn in Hi. injection Hi as <-. cbn [mbind option_bind].
    rewrite IH by (simpl in Hfuel; lia).
    now rewrite <- app_assoc.
Qed.

(** X22: in a tree whose parents are older than their children,
    [get_path_from_root] of a stored node returns a path without
    repetition that ends in the node, starts at a node without parent
    and goes from each node to one of which it is the parent. *)
Theorem get_path_from_root_spec (nodes : list TreeNode) (self : nat) :
  wf_parents (parent <$> nodes) ->
  (self < length nodes)%nat ->
  exists path,
    get_path_from_root nodes self = Some path
    /\ NoDup path
    /\ last path = Some self
    /\ (exists r n, head path = Some r /\ nodes !! r = Some n
                    /\ parent n = None)
    /\ chain (parent <$> nodes) (Some self) (reverse path).
Proof.
  intros Hwf Hself.
  destruct (chain_from (parent <$> nodes) Hwf self) as (up & Hchain & _ & Hnd & Hlen);
    [now rewrite length_fmap|].
  exists (reverse up). unfold get_path_from_root.
  rewrite (path_loop_chain nodes (Some self) up Hchain) by lia.
  cbn [app fmap option_fmap option_map]. split; [reflexivity|].
  split; [now rewrite reverse_Permutation|].
  rewrite reverse_involutive. split; [|split; [|exact Hchain]].
  - inversion Hchain; subst. rewrite reverse_cons. apply last_snoc.
  - clear Hnd Hlen Hself. remember (Some self) as cur eqn:Hcur.
    revert self Hcur.
    induction Hchain as [|i p path Hi Hchain IH]; intros self Hcur; [discriminate|].
    rewrite reverse_cons. destruct Hchain as [|j q path' Hj Hchain'].
    + rewrite list_lookup_fmap in Hi.
      destruct (nodes !! i) as [n|] eqn:Hn; [|discriminate].
      cbn in Hi. injection Hi as Hp.
      exists i, n. now cbn.
    + destruct (IH j eq_refl) as (r & n & Hhead & Hr & Hp).
      exists r, n. split; [|now split].
      rewrite reverse_cons in Hhead |- *.
      destruct (reverse path' ++ [j]) eqn:E; [discriminate|exact Hhead].
Qed.

Lemma get_path_from_root_spec_witness :
  exists path,
    get_path_from_root (nodes demo_after_first) 1 = Some path
    /\ last path = Some 1%nat.
Proof.
  destruct (get_path_from_root_spec (nodes demo_after_first) 1)
    as (path & Hpath & _ & Hlast & _).
  - intros i p. destruct i as [|[|i]]; cbn; intros [=]; subst; lia.
  - cbn. lia.
  - exists path. now split.
Defined.

End TreeWalks.

(** ** Turns of the search *)

Section SearchSteps.

Import PyFloat TreeNodeM MCTSController.

Variable config : MCTSConfig.t.
Variable reward_config : RewardConfig.
Variable env : Env.

Lemma iteration_body_shape (iteration : nat) (c : Controller)
    (fl : flow) (c' : Controller) :
  iteration_body config reward_config env iteration c = Some (fl, c') ->
  let c0 := with_iterations c (Z.of_nat iteration + 1) in
  c' = c0
  \/ (exists leaf, c' = _update_best c0 leaf)
  \/ (exists leaf leaf_node,
        _should_terminate config c0 = false
        /\ nodes c !! leaf = Some leaf_node
        /\ let ce := snd (_expansion_and_simulation config reward_config env
                            iteration c0 leaf) in
           (c' = ce
            \/ exists reward cb,
                 _backpropagation ce leaf reward = Some cb
                 /\ let cu := _update_best_from_children cb leaf in
                    (c' = with_progress cu 0 (best_coverage cu)
                     \/ c' = with_progress cu (no_progress_count cu + 1)
                               (last_best_coverage cu)))).
Proof.
  intros H c0. unfold iteration_body in H.
  change (with_iterations c (Z.of_nat iteration + 1)) with c0 in H.
  destruct (_should_terminate config c0) eqn:Hstop.
  { injection H as _ <-. now left. }
  destruct (root c0 ≫= _) as [leaf|] eqn:Hsel.
  2:{ injection H as _ <-. now left. }
  assert (Hstored : is_Some (nodes c !! leaf)).
  { destruct (root c0) as [r|]; [|discriminate].
    simpl in Hsel. unfold _selection in Hsel.
    change (nodes c) with (nodes c0).
    eapply selection_loop_stored; eassumption. }
  destruct Hstored as [leaf_node Hleaf].
  destruct (default false _).
  { injection H as _ <-. right. left. now exists leaf. }
  right. right. exists leaf, leaf_node. split; [reflexivity|].
  split; [exact Hleaf|].
  destruct (_expansion_and_simulation config reward_config env iteration c0
              leaf) as [rewards ce].
  cbn [snd]. destruct (max_list rewards) as [best_reward|].
  2:{ injection H as _ <-. now left. }
  destruct (_backpropagation ce leaf best_reward) as [cb|] eqn:Hback;
    [|discriminate].
  cbn [mbind option_bind] in H. right. exists best_reward, cb.
  split; [exact Hback|].
  destruct (gt _ _); injection H as _ <-; [now left|now right].
Qed.

Lemma update_best_fields (c : Controller) (node : nat) :
  session (_update_best c node) = session c
  /\ test_cache (_update_best c node) = test_cache c
  /\ iterations (_update_best c node) = iterations c
  /\ no_progress_count (_update_best c node) = no_progress_count c.
Proof.
  unfold _update_best. destruct (best_node c); [|now idtac].
  destruct (nodes c !! node); [|now idtac].
  destruct (nodes c !! n); [|now idtac].
  destruct (better _ _); now idtac.
Qed.

Lemma update_best_all_fields (ids : list nat) :
  forall c : Controller,
    session (fold_left _update_best ids c) = session c
    /\ test_cache (fold_left _update_best ids c) = test_cache c
    /\ iterations (fold_left _update_best ids c) = iterations c
    /\ no_progress_count (fold_left _update_best ids c) = no_progress_count c.
Proof.
  induction ids as [|i ids IH]; intros c; cbn [fold_left]; [now idtac|].
  destruct (IH (_update_best c i)) as (-> & -> & -> & ->).
  apply update_best_fields.
Qed.

Lemma backpropagation_fields (c : Controller) (leaf : nat) (reward : float)
    (cb : Controller) :
  _backpropagation c leaf reward = Some cb ->
  session cb = session c
  /\ test_cache cb = test_cache c
  /\ iterations cb = iterations c
  /\ no_progress_count cb = no_progress_count c.
Proof.
  unfold _backpropagation. destruct (backprop_loop _ _ _ _); [|discriminate].
  intros [= <-]. now idtac.
Qed.

Lemma expansion_fields (iter : nat) (c : Controller) (leaf : nat) :
  let ce := snd (_expansion_and_simulation config reward_config env iter c
                   leaf) in
  iterations ce = iterations c
  /\ no_progress_count ce = no_progress_count c.
Proof.
  unfold _expansion_and_simulation. destruct (nodes c !! leaf); [|now idtac].
  destruct (kept_children _ _ _ _ _ _) as [[kept s] cache]. now idtac.
Qed.

(** The counters after one turn. *)
Lemma iteration_body_counters (iteration : nat) (c : Controller)
    (fl : flow) (c' : Controller) :
  iteration_body config reward_config env iteration c = Some (fl, c') ->
  iterations c' = Z.of_nat iteration + 1
  /\ (no_progress_count c' = no_progress_count c
      \/ no_progress_count c' = 0
      \/ no_progress_count c' = no_progress_count c + 1
         /\ no_progress_count c < MCTSConfig.max_no_progress_iters config).
Proof.
  intros H. apply iteration_body_shape in H. cbv zeta in H.
  destruct H as [->|[[leaf ->]|(leaf & leaf_node & Hstop & _ & H)]].
  - split; [reflexivity|now left].
  - destruct (update_best_fields
                (with_iterations c (Z.of_nat iteration + 1)) leaf)
      as (_ & _ & -> & ->).
    split; [reflexivity|now left].
  - pose proof (expansion_fields iteration
                  (with_iterations c (Z.of_nat iteration + 1)) leaf) as He.
    cbv zeta in He. destruct He as [Hi Hn].
    destruct H as [->|(reward & cb & Hback & H)].
    + rewrite Hi, Hn. split; [reflexivity|now left].
    + apply backpropagation_fields in Hback as (_ & _ & Hbi & Hbn).
      destruct (update_best_all_fields
                  (default [] (children <$> nodes cb !! leaf)) cb)
        as (_ & _ & Hui & Hun).
      fold (_update_best_from_children cb leaf) in Hui, Hun.
      destruct H as [->| ->]; cbn [with_progress iterations no_progress_count];
        rewrite Hui, Hbi, Hi; (split; [reflexivity|]);
        [right; now left|].
      right. right. rewrite Hun, Hbn, Hn. split; [reflexivity|].
      unfold _should_terminate in Hstop.
      apply orb_false_elim in Hstop as [Hstop _].
      apply orb_false_elim in Hstop as [_ Hstop].
      apply Z.leb_gt in Hstop. exact Hstop.
Qed.

Lemma search_loop_counters (remaining : nat) :
  forall (iteration : nat) (c c' : Controller),
    search_loop config reward_config env iteration remaining c = Some c' ->
    iterations c = Z.of_nat iteration ->
    0 <= no_progress_count c
         <= Z.max 0 (MCTSConfig.max_no_progress_iters config) ->
    Z.of_nat iteration <= iterations c' <= Z.of_nat (iteration + remaining)
    /\ 0 <= no_progress_count c'
            <= Z.max 0 (MCTSConfig.max_no_progress_iters config).
Proof.
  induction remaining as [|remaining IH]; intros iteration c c' H Hi Hn;
    cbn [search_loop] in H.
  - injection H as <-. split; [lia|exact Hn].
  - destruct (iteration_body config reward_config env iteration c)
      as [[fl c1]|] eqn:Hbody; [|discriminate].
    apply iteration_body_counters in Hbody as [Hi1 Hn1].
    assert (Hn1' : 0 <= no_progress_count c1
                        <= Z.max 0 (MCTSConfig.max_no_progress_iters config))
      by lia.
    destruct fl.
    + injection H as <-. split; [lia|exact Hn1'].
    + apply IH in H; [|lia|exact Hn1']. lia.
Qed.

(** X23: when [search] returns, the number of iterations it reports is
    between 0 and [max_iterations], and the count of iterations without
    progress between 0 and [max_no_progress_iters] (each bound taken as
    0 when it is negative). *)
Theorem search_counters_bounded (session_ctx : SessionContext.t)
    (cache : gmap string string) (initial_state : option TestState)
    (c : Controller) :
  search config reward_config env session_ctx cache initial_state = Some c ->
  0 <= iterations c <= Z.max 0 (MCTSConfig.max_iterations config)
  /\ 0 <= no_progress_count c
          <= Z.max 0 (MCTSConfig.max_no_progress_iters config).
Proof.
  unfold search. intros H.
  apply search_loop_counters in H; [|reflexivity|cbn; lia].
  rewrite Nat.add_0_l in H. cbn [start iterations] in H. lia.
Qed.

End SearchSteps.

Lemma search_counters_bounded_witness :
  demo_search 1 = Some demo_after_first
  /\ 0 <= iterations demo_after_first <= Z.max 0 1.
Proof.
  split; [exact demo_search_first|].
  exact (proj1 (search_counters_bounded (demo_config 1)
                  RewardFunction.default_config demo_env fresh_session ∅ None
                  demo_after_first demo_search_first)).
Defined.

Section SearchResources.

Import PyFloat TreeNodeM MCTSController.

Variable config : MCTSConfig.t.
Variable reward_config : RewardConfig.
Variable env : Env.

Lemma tokens_added_refl (s : SessionContext.t) : tokens_added s s.
Proof.
  exists 0, 0. split; [lia|split; [lia|]]. destruct s.
  unfold SessionContext.add_token_usage. cbn. now rewrite !Z.add_0_r.
Qed.

Lemma tokens_added_trans (s1 s2 s3 : SessionContext.t) :
  tokens_added s1 s2 -> tokens_added s2 s3 -> tokens_added s1 s3.
Proof.
  intros (p & q & Hp & Hq & ->) (p' & q' & Hp' & Hq' & ->).
  exists (p + p'), (q + q'). split; [lia|split; [lia|]].
  unfold SessionContext.add_token_usage. cbn. now rewrite !Z.add_assoc.
Qed.

Lemma generate_candidates_session (iter : nat) (all_nodes : list TreeNode)
    (node : TreeNode) (session_ctx : SessionContext.t) (k : Z) :
  tokens_added session_ctx
    (snd (_generate_candidates env iter all_nodes node session_ctx k)).
Proof.
  unfold _generate_candidates.
  destruct (render_prompt _ _ _ _ _) as [prompt|]; [|apply tokens_added_refl].
  destruct (gen_outcome _) as [response|]; [|apply tokens_added_refl].
  assert (H : tokens_added session_ctx
                (SessionContext.add_token_usage session_ctx
                   (PyStr.len prompt / 4) (PyStr.len response / 4))).
  { exists (PyStr.len prompt / 4), (PyStr.len response / 4).
    unfold PyStr.len. split; [|split; [|reflexivity]];
      apply Z.div_pos; lia. }
  destruct (parse_tests env response); exact H.
Qed.

Lemma execute_new_test_cache (hash : string -> string)
    (cache : gmap string string) (outcome : http_outcome)
    (path code name : string) (existing : list string) :
  cache ⊆ snd (ExecutionEngine.execute_new_test hash cache outcome path code
                 name existing).
Proof.
  unfold ExecutionEngine.execute_new_test.
  destruct (cache !! hash code) eqn:Hmiss; [reflexivity|].
  destruct outcome as [result|e|e|status e]; cbn [snd]; try reflexivity;
    destruct (bool_decide _); try reflexivity; now apply insert_subseteq.
Qed.

Lemma simulate_cache (iter : nat) (session_ctx : SessionContext.t)
    (leaf_state : TestState) (candidates : list (string * string)) :
  forall (j : nat) (cache : gmap string string),
    cache ⊆ snd (simulate config reward_config env iter j session_ctx cache
                   leaf_state candidates).
Proof.
  induction candidates as [|cand rest IH]; intros j cache; cbn [simulate];
    [reflexivity|].
  pose proof (execute_new_test_cache (sha256_16 env) cache (http_post env iter j)
                (SessionContext.function_path session_ctx) (fst cand)
                (snd cand) (test_case_names leaf_state)) as Hexec.
  fold (execute env iter j session_ctx cache leaf_state cand) in Hexec.
  destruct (execute env iter j session_ctx cache leaf_state cand)
    as [exec_result cache1].
  specialize (IH (S j) cache1).
  destruct (simulate config reward_config env iter (S j) session_ctx cache1
              leaf_state rest) as [valid cache2].
  cbn [snd] in *. destruct (pruned config _); cbn [snd];
    (etrans; [exact Hexec|exact IH]).
Qed.

Lemma simulate_length (iter : nat) (session_ctx : SessionContext.t)
    (leaf_state : TestState) (candidates : list (string * string)) :
  forall (j : nat) (cache : gmap string string),
    (length (fst (simulate config reward_config env iter j session_ctx cache
                    leaf_state candidates)) <= length candidates)%nat.
Proof.
  induction candidates as [|cand rest IH]; intros j cache; cbn [simulate];
    [reflexivity|].
  destruct (execute env iter j session_ctx cache leaf_state cand)
    as [exec_result cache1].
  specialize (IH (S j) cache1).
  destruct (simulate config reward_config env iter (S j) session_ctx cache1
              leaf_state rest) as [valid cache2].
  cbn [fst] in *. destruct (pruned config _); cbn [fst length]; lia.
Qed.

Lemma beam_length (valid : list (TestState * float)) :
  (length (beam config valid) <= length valid)%nat
  /\ (MCTSConfig.enable_pruning config = true ->
      0 <= MCTSConfig.beam_width config ->
      Z.of_nat (length (beam config valid)) <= MCTSConfig.beam_width config).
Proof.
  unfold beam.
  assert (Hsort : forall l : list (TestState * float),
             length (PyList.sort_desc snd l) = length l).
  { intros l. unfold PyList.sort_desc.
    assert (Hins : forall (x : TestState * float) acc,
               length (PyList.insert_desc snd x acc) = S (length acc)).
    { intros x acc. induction acc as [|y acc IHacc]; cbn; [reflexivity|].
      destruct (lt _ _); cbn; [reflexivity|now rewrite IHacc]. }
    assert (Hfold : forall l acc : list (TestState * float),
               length (fold_left (fun acc x => PyList.insert_desc snd x acc)
                         l acc)
               = (length l + length acc)%nat).
    { clear l. induction l as [|x l IHl]; intros acc; cbn [fold_left];
        [reflexivity|].
      rewrite IHl, Hins. cbn. lia. }
    rewrite Hfold. cbn. lia. }
  destruct (MCTSConfig.enable_pruning config); cbn [andb].
  - destruct (Z.ltb_spec (MCTSConfig.beam_width config) (PyList.len valid))
      as [Hlt|Hge].
    + destruct (upto_length (MCTSConfig.beam_width config)
                  (PyList.sort_desc snd valid)) as [H1 H2].
      rewrite Hsort in H1. split; [exact H1|]. intros _. exact H2.
    + split; [reflexivity|]. intros _ _. exact Hge.
  - split; [reflexivity|discriminate].
Qed.

Lemma generate_candidates_length (iter : nat) (all_nodes : list TreeNode)
    (node : TreeNode) (session_ctx : SessionContext.t) (k : Z) :
  0 <= k ->
  Z.of_nat (length (fst (_generate_candidates env iter all_nodes node
                           session_ctx k))) <= k.
Proof.
  intros Hk. unfold _generate_candidates.
  destruct (render_prompt _ _ _ _ _) as [prompt|]; [|exact Hk].
  destruct (gen_outcome _) as [response|]; [|exact Hk].
  destruct (parse_tests env response) as [tests_list|]; [|exact Hk].
  cbn [fst]. unfold _deduplicate_candidates.
  destruct (dedup_loop_spec (str_hash env)
              (imap (candidate_of (test_case_names (state node)))
                 (PyList.upto k tests_list)) ∅
              (list_to_set (test_case_names (state node))))
    as (_ & _ & _ & _ & H5).
  cbv zeta in H5. apply sublist_length in H5. rewrite length_imap in H5.
  pose proof (proj2 (upto_length k tests_list) Hk). lia.
Qed.

Lemma kept_children_length (iter : nat) (c : Controller)
    (leaf_node : TreeNode) :
  let kept := fst (fst (kept_children config reward_config env iter c
                          leaf_node)) in
  (0 <= _adaptive_k config leaf_node ->
   Z.of_nat (length kept) <= _adaptive_k config leaf_node)
  /\ (MCTSConfig.enable_pruning config = true ->
      0 <= MCTSConfig.beam_width config ->
      Z.of_nat (length kept) <= MCTSConfig.beam_width config).
Proof.
  unfold kept_children.
  pose proof (generate_candidates_length iter (nodes c) leaf_node (session c)
                (_adaptive_k config leaf_node)) as Hgen.
  destruct (_generate_candidates env iter (nodes c) leaf_node (session c)
              (_adaptive_k config leaf_node)) as [candidates session_ctx].
  cbn [fst] in Hgen. destruct candidates as [|cand rest].
  { cbn. split; intros; lia. }
  pose proof (simulate_length iter session_ctx (state leaf_node) (cand :: rest)
                0 (test_cache c)) as Hsim.
  destruct (simulate config reward_config env iter 0 session_ctx
              (test_cache c) (state leaf_node) (cand :: rest))
    as [valid cache].
  cbn [fst] in *. destruct (beam_length valid) as [Hb1 Hb2].
  split; [|exact Hb2]. intros Hk. specialize (Hgen Hk). lia.
Qed.

Lemma kept_children_resources (iter : nat) (c : Controller)
    (leaf_node : TreeNode) :
  let kept := kept_children config reward_config env iter c leaf_node in
  tokens_added (session c) (snd (fst kept))
  /\ test_cache c ⊆ snd kept.
Proof.
  unfold kept_children.
  pose proof (generate_candidates_session iter (nodes c) leaf_node (session c)
                (_adaptive_k config leaf_node)) as Hgen.
  destruct (_generate_candidates env iter (nodes c) leaf_node (session c)
              (_adaptive_k config leaf_node)) as [candidates session_ctx].
  cbn [snd] in Hgen. destruct candidates as [|cand rest].
  { cbn. now split. }
  pose proof (simulate_cache iter session_ctx (state leaf_node) (cand :: rest)
                0 (test_cache c)) as Hsim.
  destruct (simulate config reward_config env iter 0 session_ctx
              (test_cache c) (state leaf_node) (cand :: rest))
    as [valid cache].
  cbn [fst snd] in *. now split.
Qed.

(** X24: an expansion adds to the tree exactly the children whose
    rewards it returns; they are at most [K], the number of candidates
    asked for, and at most [beam_width] when pruning is enabled. *)
Theorem expansion_children_bounded (iter : nat) (c : Controller)
    (leaf : nat) (leaf_node : TreeNode) :
  nodes c !! leaf = Some leaf_node ->
  let out := _expansion_and_simulation config reward_config env iter c leaf in
  length (nodes (snd out)) = (length (nodes c) + length (fst out))%nat
  /\ (0 <= _adaptive_k config leaf_node ->
      Z.of_nat (length (fst out)) <= _adaptive_k config leaf_node)
  /\ (MCTSConfig.enable_pruning config = true ->
      0 <= MCTSConfig.beam_width config ->
      Z.of_nat (length (fst out)) <= MCTSConfig.beam_width config).
Proof.
  intros Hleaf out. subst out.
  rewrite (expansion_spec _ _ _ _ _ _ _ Hleaf). cbn [fst snd nodes].
  rewrite expanded_nodes_length, length_fmap.
  split; [reflexivity|]. apply kept_children_length.
Qed.

Lemma iteration_body_resources (iteration : nat) (c : Controller)
    (fl : flow) (c' : Controller) :
  iteration_body config reward_config env iteration c = Some (fl, c') ->
  tokens_added (session c) (session c') /\ test_cache c ⊆ test_cache c'.
Proof.
  intros H. apply iteration_body_shape in H. cbv zeta in H.
  destruct H as [->|[[leaf ->]|(leaf & leaf_node & _ & Hleaf & H)]].
  - split; [apply tokens_added_refl|reflexivity].
  - destruct (update_best_fields
                (with_iterations c (Z.of_nat iteration + 1)) leaf)
      as (-> & -> & _).
    split; [apply tokens_added_refl|reflexivity].
  - rewrite (expansion_spec _ _ _ _ (with_iterations c _) _ _ Hleaf) in H.
    cbn [snd] in H.
    pose proof (kept_children_resources iteration
                  (with_iterations c (Z.of_nat iteration + 1)) leaf_node)
      as Hres.
    cbv zeta in Hres. cbn [with_iterations session test_cache] in Hres.
    destruct H as [->|(reward & cb & Hback & H)]; [exact Hres|].
    apply backpropagation_fields in Hback as (Hbs & Hbc & _).
    cbn [session test_cache] in Hbs, Hbc.
    destruct (update_best_all_fields
                (default [] (children <$> nodes cb !! leaf)) cb)
      as (Hus & Huc & _).
    fold (_update_best_from_children cb leaf) in Hus, Huc.
    destruct H as [->| ->]; cbn [with_progress session test_cache];
      rewrite Hus, Huc, Hbs, Hbc; exact Hres.
Qed.

Lemma search_loop_resources (remaining : nat) :
  forall (iteration : nat) (c c' : Controller),
    search_loop config reward_config env iteration remaining c = Some c' ->
    tokens_added (session c) (session c') /\ test_cache c ⊆ test_cache c'.
Proof.
  induction remaining as [|remaining IH]; intros iteration c c' H;
    cbn [search_loop] in H.
  - injection H as <-. split; [apply tokens_added_refl|reflexivity].
  - destruct (iteration_body config reward_config env iteration c)
      as [[fl c1]|] eqn:Hbody; [|discriminate].
    apply iteration_body_resources in Hbody as [Hs Hc].
    destruct fl.
    + injection H as <-. now split.
    + apply IH in H as [Hs' Hc']. split.
      * eapply tokens_added_trans; eassumption.
      * etrans; eassumption.
Qed.

(** X25: the session a search leaves behind is the session it was
    given with token counts added, none of them negative: the learned
    rules, the budget and the target are the same, and the tokens used
    did not go down. *)
Theorem search_session_tokens (session_ctx : SessionContext.t)
    (cache : gmap string string) (initial_state : option TestState)
    (c : Controller) :
  search config reward_config env session_ctx cache initial_state = Some c ->
  tokens_added session_ctx (session c)
  /\ SessionContext.learned_rules (session c)
     = SessionContext.learned_rules session_ctx
  /\ SessionContext.max_tokens (session c)
     = SessionContext.max_tokens session_ctx
  /\ SessionContext.coverage_target (session c)
     = SessionContext.coverage_target session_ctx
  /\ SessionContext.total_tokens session_ctx
     <= SessionContext.total_tokens (session c).
Proof.
  unfold search. intros H. apply search_loop_resources in H as [H _].
  cbn [start session] in H. split; [exact H|].
  destruct H as (p & q & Hp & Hq & ->).
  unfold SessionContext.total_tokens. cbn. repeat split; lia.
Qed.

(** X26: a search only adds to the engine's cache of executed tests:
    every entry it started with is there, unchanged, when it returns. *)
Theorem search_cache_grows (session_ctx : SessionContext.t)
    (cache : gmap string string) (initial_state : option TestState)
    (c : Controller) :
  search config reward_config env session_ctx cache initial_state = Some c ->
  cache ⊆ test_cache c.
Proof.
  unfold search. intros H. apply search_loop_resources in H as [_ H].
  exact H.
Qed.

(** X27: on a session whose token budget is used up, [search] stops in
    its first iteration: it generates and executes no test, and returns
    with the root alone in the tree and the session and the cache as
    they were. *)
Theorem search_budget_exhausted (session_ctx : SessionContext.t)
    (cache : gmap string string) (initial_state : option TestState) :
  SessionContext.budget_exceeded session_ctx = true ->
  0 < MCTSConfig.max_iterations config ->
  search config reward_config env session_ctx cache initial_state
  = Some (with_iterations (start env session_ctx cache initial_state) 1).
Proof.
  intros Hbudget Hiter. unfold search.
  destruct (Z.to_nat (MCTSConfig.max_iterations config)) as [|n] eqn:Hn; [lia|].
  cbn [search_loop]. unfold iteration_body.
  change (Z.of_nat 0 + 1) with 1.
  assert (Hstop : _should_terminate config
                    (with_iterations
                       (start env session_ctx cache initial_state) 1) = true).
  { unfold _should_terminate. cbn [with_iterations start session].
    rewrite Hbudget. apply orb_true_r. }
  now rewrite Hstop.
Qed.

End SearchResources.

Section TreeShape.

Import PyFloat TreeNodeM MCTSController.

Variable config : MCTSConfig.t.
Variable reward_config : RewardConfig.
Variable env : Env.

Lemma update_lookup (ns : list TreeNode) (j : nat) (reward : float)
    (i : nat) (n' : TreeNode) :
  update ns j reward !! i = Some n' ->
  exists n, ns !! i = Some n
            /\ parent n' = parent n /\ children n' = children n
            /\ depth n' = depth n
            /\ (n' = n \/ visits n' = visits n + 1).
Proof.
  unfold update. destruct (decide (i = j)) as [->|Hne].
  - rewrite list_lookup_alter_eq. destruct (ns !! j) as [n|]; [|discriminate].
    intros [= <-]. exists n. cbn. repeat split. now right.
  - rewrite list_lookup_alter_ne by congruence. intros H. exists n'.
    repeat split; [exact H|now left].
Qed.

Lemma update_lookup_old (ns : list TreeNode) (j : nat) (reward : float)
    (i : nat) (n : TreeNode) :
  ns !! i = Some n ->
  exists n', update ns j reward !! i = Some n'
             /\ parent n' = parent n /\ children n' = children n
             /\ depth n' = depth n.
Proof.
  intros H. unfold update. destruct (decide (i = j)) as [->|Hne].
  - rewrite list_lookup_alter_eq, H. eexists. split; [reflexivity|]. now cbn.
  - rewrite list_lookup_alter_ne by congruence. exists n. now rewrite H.
Qed.

Lemma tree_ok_update (ns : list TreeNode) (j : nat) (reward : float) :
  tree_ok ns -> tree_ok (update ns j reward).
Proof.
  intros Hok i n' Hn'.
  destruct (update_lookup ns j reward i n' Hn')
    as (n & Hn & Hp & Hc & Hd & Hv).
  destruct (Hok i n Hn) as (H1 & H2 & H3 & H4 & H5).
  unfold node_ok. rewrite Hp, Hc, Hd.
  split; [destruct Hv as [->|Hv]; lia|].
  split; [destruct Hv as [->|Hv]; [exact H2|lia]|].
  split; [|split; [|exact H5]].
  - destruct (parent n) as [p|]; [|exact H3].
    destruct H3 as (pn & Hpn & Hdepth & Hin).
    destruct (update_lookup_old ns j reward p pn Hpn)
      as (pn' & Hpn' & _ & Hc' & Hd').
    exists pn'. now rewrite Hc', Hd'.
  - intros ch Hch. destruct (H4 ch Hch) as (cn & Hcn & Hparent).
    destruct (update_lookup_old ns j reward ch cn Hcn)
      as (cn' & Hcn' & Hp' & _).
    exists cn'. now rewrite Hp'.
Qed.

Lemma expanded_lookup_old (ns : list TreeNode) (leaf : nat)
    (leaf_node : TreeNode) (kept : list (TestState * float)) (i : nat)
    (n : TreeNode) :
  ns !! leaf = Some leaf_node ->
  ns !! i = Some n ->
  exists n', expanded_nodes ns leaf leaf_node kept !! i = Some n'
             /\ parent n' = parent n /\ depth n' = depth n
             /\ visits n' = visits n /\ total_reward n' = total_reward n
             /\ children n'
                = children n
                  ++ (if decide (i = leaf)
                      then seq (length ns) (length kept) else []).
Proof.
  intros Hleaf Hn. destruct (decide (i = leaf)) as [->|Hne].
  - rewrite (expanded_nodes_leaf _ _ _ _ Hleaf).
    assert (n = leaf_node) as -> by congruence.
    eexists. split; [reflexivity|]. now cbn.
  - rewrite expanded_nodes_old by (apply lookup_lt_Some in Hn; lia || exact Hne).
    exists n. rewrite app_nil_r. now rewrite Hn.
Qed.

Lemma tree_ok_expanded (ns : list TreeNode) (leaf : nat)
    (leaf_node : TreeNode) (kept : list (TestState * float)) :
  ns !! leaf = Some leaf_node ->
  tree_ok ns -> tree_ok (expanded_nodes ns leaf leaf_node kept).
Proof.
  intros Hleaf Hok i n' Hn'.
  destruct (decide (i < length ns)%nat) as [Hold|Hnew].
  - destruct (lookup_lt_is_Some_2 ns i Hold) as [n Hn].
    destruct (expanded_lookup_old ns leaf leaf_node kept i n Hleaf Hn)
      as (n2 & Hn2 & Hp & Hd & Hv & Ht & Hc).
    assert (n2 = n') as -> by congruence.
    destruct (Hok i n Hn) as (H1 & H2 & H3 & H4 & H5).
    unfold node_ok. rewrite Hp, Hd, Hv, Ht, Hc.
    split; [exact H1|]. split; [exact H2|]. split; [|split].
    + destruct (parent n) as [p|]; [|exact H3].
      destruct H3 as (pn & Hpn & Hdepth & Hin).
      destruct (expanded_lookup_old ns leaf leaf_node kept p pn Hleaf Hpn)
        as (pn' & Hpn' & _ & Hd' & _ & _ & Hc').
      exists pn'. rewrite Hd', Hc'. repeat split; try assumption.
      apply elem_of_app. now left.
    + intros ch Hch. apply elem_of_app in Hch as [Hch|Hch].
      * destruct (H4 ch Hch) as (cn & Hcn & Hparent).
        destruct (expanded_lookup_old ns leaf leaf_node kept ch cn Hleaf Hcn)
          as (cn' & Hcn' & Hp' & _).
        exists cn'. now rewrite Hp'.
      * destruct (decide (i = leaf)) as [->|Hne];
          [|now apply elem_of_nil in Hch].
        apply elem_of_seq in Hch as [Hlo Hhi].
        replace ch with (length ns + (ch - length ns))%nat by lia.
        rewrite expanded_nodes_new.
        destruct (lookup_lt_is_Some_2 kept (ch - length ns)%nat) as [child ->];
          [lia|].
        eexists. split; [reflexivity|]. reflexivity.
    + apply NoDup_app. split; [exact H5|]. split.
      * intros ch Hch Hseq. destruct (H4 ch Hch) as (cn & Hcn & _).
        apply lookup_lt_Some in Hcn.
        destruct (decide (i = leaf)); [|now apply elem_of_nil in Hseq].
        apply elem_of_seq in Hseq. lia.
      * destruct (decide (i = leaf)); [apply NoDup_seq|apply NoDup_nil_2].
  - assert (Hi : i = (length ns + (i - length ns))%nat) by lia.
    rewrite Hi, expanded_nodes_new in Hn'.
    destruct (kept !! (i - length ns)%nat) as [child|] eqn:Hchild;
      [|discriminate].
    injection Hn' as <-. unfold node_ok, child_node. cbn.
    split; [lia|]. split; [lia|]. split; [|split; [|apply NoDup_nil_2]].
    + exists (adopt (seq (length ns) (length kept)) leaf_node).
      split; [now apply expanded_nodes_leaf|]. split; [reflexivity|].
      cbn. apply elem_of_app. right. apply elem_of_seq.
      apply lookup_lt_Some in Hchild. lia.
    + intros ch Hch. now apply elem_of_nil in Hch.
Qed.

Lemma backprop_loop_tree_ok (reward : float) (fuel : nat) :
  forall (tree tree' : list TreeNode * list (nat * float))
         (current : option nat),
    backprop_loop fuel tree current reward = Some tree' ->
    tree_ok (fst tree) -> tree_ok (fst tree').
Proof.
  induction fuel as [|fuel IH]; intros tree tree' current H Hok;
    destruct current as [i|]; cbn [backprop_loop] in H;
    try discriminate; try (injection H as <-; exact Hok).
  apply IH in H; [exact H|]. cbn [fst]. now apply tree_ok_update.
Qed.

Lemma iteration_body_tree_ok (iteration : nat) (c : Controller)
    (fl : flow) (c' : Controller) :
  iteration_body config reward_config env iteration c = Some (fl, c') ->
  tree_ok (nodes c) -> tree_ok (nodes c').
Proof.
  intros H Hok. apply iteration_body_shape in H. cbv zeta in H.
  destruct H as [->|[[leaf ->]|(leaf & leaf_node & _ & Hleaf & H)]].
  - exact Hok.
  - now rewrite update_best_nodes.
  - rewrite (expansion_spec _ _ _ _ (with_iterations c _) _ _ Hleaf) in H.
    cbn [snd] in H.
    pose proof (tree_ok_expanded (nodes c) leaf leaf_node
                  (fst (fst (kept_children config reward_config env iteration
                               (with_iterations c (Z.of_nat iteration + 1))
                               leaf_node))) Hleaf Hok) as Hexp.
    cbn [with_iterations nodes] in H.
    destruct H as [->|(reward & cb & Hback & H)]; [exact Hexp|].
    assert (Hcb : tree_ok (nodes cb)).
    { unfold _backpropagation in Hback.
      destruct (backprop_loop _ _ _ _) as [tree'|] eqn:Hloop; [|discriminate].
      injection Hback as <-. cbn [with_tree nodes].
      eapply backprop_loop_tree_ok; [exact Hloop|exact Hexp]. }
    assert (Hcu : nodes (_update_best_from_children cb leaf) = nodes cb)
      by apply update_best_all_nodes.
    destruct H as [->| ->]; cbn [with_progress nodes]; now rewrite Hcu.
Qed.

Lemma search_loop_tree_ok (remaining : nat) :
  forall (iteration : nat) (c c' : Controller),
    search_loop config reward_config env iteration remaining c = Some c' ->
    tree_ok (nodes c) -> tree_ok (nodes c').
Proof.
  induction remaining as [|remaining IH]; intros iteration c c' H Hok;
    cbn [search_loop] in H.
  - now injection H as <-.
  - destruct (iteration_body config reward_config env iteration c)
      as [[fl c1]|] eqn:Hbody; [|discriminate].
    apply iteration_body_tree_ok in Hbody; [|exact Hok].
    destruct fl; [now injection H as <-|]. eapply IH; eassumption.
Qed.

(** X28: the tree [search] leaves behind is consistent, node by node
    ([node_ok]): parent and child links agree in both directions, the
    depth of a node is that of its parent plus one and 0 at the root,
    no child is listed twice, visits are not negative, and a node never
    visited has no reward. *)
Theorem search_tree_consistent (session_ctx : SessionContext.t)
    (cache : gmap string string) (initial_state : option TestState)
    (c : Controller) :
  search config reward_config env session_ctx cache initial_state = Some c ->
  tree_ok (nodes c).
Proof.
  unfold search. intros H. eapply search_loop_tree_ok; [exact H|].
  intros i n Hn. destruct i as [|i]; [|discriminate].
  injection Hn as <-. unfold node_ok, make. cbn.
  repeat split; try lia; try apply NoDup_nil_2.
  intros ch Hch. now apply elem_of_nil in Hch.
Qed.

End TreeShape.

Lemma search_tree_consistent_witness :
  demo_search 1 = Some demo_after_first
  /\ tree_ok (nodes demo_after_first).
Proof.
  split; [exact demo_search_first|].
  exact (search_tree_consistent (demo_config 1) RewardFunction.default_config
           demo_env fresh_session ∅ None demo_after_first demo_search_first).
Defined.

Section SearchWitnesses.

Import TreeNodeM MCTSController.

Lemma expansion_children_bounded_witness :
  nodes (start demo_env fresh_session ∅ None) !! 0%nat
  = Some (TreeNodeM.make (root_state demo_env fresh_session) None)
  /\ length (nodes (snd (_expansion_and_simulation (demo_config 1)
                           RewardFunction.default_config demo_env 0
                           (start demo_env fresh_session ∅ None) 0)))
     = (length (nodes (start demo_env fresh_session ∅ None))
        + length (fst (_expansion_and_simulation (demo_config 1)
                         RewardFunction.default_config demo_env 0
                         (start demo_env fresh_session ∅ None) 0)))%nat.
Proof.
  assert (H : nodes (start demo_env fresh_session ∅ None) !! 0%nat
              = Some (TreeNodeM.make (root_state demo_env fresh_session) None))
    by reflexivity.
  split; [exact H|].
  exact (proj1 (expansion_children_bounded (demo_config 1)
                  RewardFunction.default_config demo_env 0
                  (start demo_env fresh_session ∅ None) 0 _ H)).
Defined.

Lemma search_session_tokens_witness :
  demo_search 1 = Some demo_after_first
  /\ tokens_added fresh_session (session demo_after_first).
Proof.
  split; [exact demo_search_first|].
  exact (proj1 (search_session_tokens (demo_config 1)
                  RewardFunction.default_config demo_env fresh_session ∅ None
                  demo_after_first demo_search_first)).
Defined.

Lemma search_cache_grows_witness :
  demo_search 1 = Some demo_after_first
  /\ (∅ : gmap string string) ⊆ test_cache demo_after_first.
Proof.
  split; [exact demo_search_first|].
  exact (search_cache_grows (demo_config 1) RewardFunction.default_config
           demo_env fresh_session ∅ None demo_after_first demo_search_first).
Defined.

Lemma search_budget_exhausted_witness :
  SessionContext.budget_exceeded
    (SessionContext.add_token_usage fresh_session 100000 0) = true
  /\ 0 < MCTSConfig.max_iterations (demo_config 1)
  /\ search (demo_config 1) RewardFunction.default_config demo_env
       (SessionContext.add_token_usage fresh_session 100000 0) ∅ None
     = Some (with_iterations
               (start demo_env
                  (SessionContext.add_token_usage fresh_session 100000 0)
                  ∅ None) 1).
Proof.
  assert (H : SessionContext.budget_exceeded
                (SessionContext.add_token_usage fresh_session 100000 0) = true)
    by reflexivity.
  assert (H' : 0 < MCTSConfig.max_iterations (demo_config 1)) by (cbn; lia).
  split; [exact H|]. split; [exact H'|].
  exact (search_budget_exhausted (demo_config 1) RewardFunction.default_config
           demo_env (SessionContext.add_token_usage fresh_session 100000 0)
           ∅ None H H').
Defined.

End SearchWitnesses.
